(** * LBDserver project API: a shallow embedding of the lifecycle coordinator

    The handlers of the project API (createProject, deleteProject,
    queryProject, findProjectData, createNamedGraph, uploadDocumentToProject and
    their helpers) are embedded as functions in a small state-and-exception
    monad.  The two stores are external collaborators: every call to them is
    answered by an oracle and recorded in a trace, so that statements such as
    "the repository is deleted again" or "nothing is dispatched to the graph
    store" are statements about that trace. *)

From Stdlib Require Import ZArith Lia Bool List.
From stdpp Require Import base strings list gmap.

Open Scope string_scope.
Open Scope list_scope.
Open Scope Z_scope.

(** ** JavaScript strings as sequences of UTF-16 code units

    Only the text of a SPARQL query needs this level of detail, because
    [encodeURIComponent] looks at code units. *)
Module JsString.

Definition code_unit := Z.
Definition t := list code_unit.

Definition of_string (s : string) : t :=
  (λ a, Z.of_nat (Ascii.nat_of_ascii a)) <$> String.list_ascii_of_string s.

(** [String.prototype.toLowerCase], exact on the ASCII range.  Outside it
    the function leaves the unit alone.  The real function maps other cased
    letters to other non-ASCII units, and the only non-ASCII units it sends
    to something with an ASCII letter are U+0130 (to [i] followed by U+0307)
    and U+212A (to [k]); none of that can create or destroy an occurrence
    of [select], [insert] or [delete], which are the only things the gate
    looks for in a lower-cased string. *)
Definition lower_unit (c : code_unit) : code_unit :=
  if (65 <=? c) && (c <=? 90) then c + 32 else c.

Definition toLowerCase (s : t) : t := lower_unit <$> s.

Fixpoint startsWith (s tok : t) {struct tok} : bool :=
  match tok, s with
  | [], _ => true
  | _ :: _, [] => false
  | x :: tok', y :: s' => (x =? y) && startsWith s' tok'
  end.

(** [String.prototype.includes]: [tok] occurs somewhere in [s]. *)
Fixpoint includes (s tok : t) : bool :=
  startsWith s tok ||
  match s with
  | [] => false
  | _ :: s' => includes s' tok
  end.

(** *** encodeURIComponent (ECMA-262, Encode with the unreserved set) *)

Definition is_alpha (c : code_unit) : bool :=
  ((65 <=? c) && (c <=? 90)) || ((97 <=? c) && (c <=? 122)).
Definition is_digit (c : code_unit) : bool := (48 <=? c) && (c <=? 57).

(** The marks [- _ . ! ~ * ' ( )]. *)
Definition is_mark (c : code_unit) : bool :=
  existsb (Z.eqb c) [45; 95; 46; 33; 126; 42; 39; 40; 41].

Definition unreserved (c : code_unit) : bool :=
  is_alpha c || is_digit c || is_mark c.

Definition is_high_surrogate (c : code_unit) : bool := (0xD800 <=? c) && (c <=? 0xDBFF).
Definition is_low_surrogate (c : code_unit) : bool := (0xDC00 <=? c) && (c <=? 0xDFFF).

(** An upper-case hexadecimal digit, as a code unit. *)
Definition hex_digit (n : Z) : code_unit :=
  if n <? 10 then 48 + n else 55 + n.

(** One octet as [%XX]. *)
Definition escape_octet (b : Z) : t :=
  [37; hex_digit (Z.shiftr b 4); hex_digit (Z.land b 15)].

Definition utf8 (cp : Z) : list Z :=
  if cp <? 0x80 then [cp]
  else if cp <? 0x800 then
    [Z.lor 0xC0 (Z.shiftr cp 6); Z.lor 0x80 (Z.land cp 0x3F)]
  else if cp <? 0x10000 then
    [Z.lor 0xE0 (Z.shiftr cp 12);
     Z.lor 0x80 (Z.land (Z.shiftr cp 6) 0x3F);
     Z.lor 0x80 (Z.land cp 0x3F)]
  else
    [Z.lor 0xF0 (Z.shiftr cp 18);
     Z.lor 0x80 (Z.land (Z.shiftr cp 12) 0x3F);
     Z.lor 0x80 (Z.land (Z.shiftr cp 6) 0x3F);
     Z.lor 0x80 (Z.land cp 0x3F)].

Definition escape_code_point (cp : Z) : t :=
  concat (escape_octet <$> utf8 cp).

Definition surrogate_pair (hi lo : code_unit) : Z :=
  (hi - 0xD800) * 0x400 + (lo - 0xDC00) + 0x10000.

(** [None] is the URIError thrown for a lone surrogate. *)
Fixpoint encodeURIComponent (s : t) : option t :=
  match s with
  | [] => Some []
  | c :: r =>
      if unreserved c then cons c <$> encodeURIComponent r
      else if is_low_surrogate c then None
      else if is_high_surrogate c then
        match r with
        | d :: r' =>
            if is_low_surrogate d
            then app (escape_code_point (surrogate_pair c d)) <$> encodeURIComponent r'
            else None
        | [] => None
        end
      else app (escape_code_point c) <$> encodeURIComponent r
  end.

End JsString.

(** ** Plain strings *)

(** [String.prototype.endsWith]. *)
Definition endsWith (s suffix : string) : bool :=
  let n := String.length s in
  let k := String.length suffix in
  (k <=? n)%nat && String.eqb (String.substring (n - k) k s) suffix.

(** The double quote character. *)
Definition dquote : string := String (Ascii.ascii_of_nat 34) EmptyString.

(** ** Values, errors and requests *)

Record user := User {
  uri : string;
  email : string;
  projects : list string
}.

(** What a collaborator can hand back.  [VBindings] is the result of
    [getAllNamedGraphs], reduced to the [contextID.value] of each binding;
    [VFiles] is the result of [File.find], reduced to each file's [url]. *)
Inductive jsval :=
| VUndefined
| VBool (b : bool)
| VString (s : string)
| VBindings (contexts : list string)
| VFiles (urls : list string)
| VUser (u : user)
| VObject.

Definition truthy (v : jsval) : bool :=
  match v with
  | VUndefined => false
  | VBool b => b
  | VString s => negb (String.eqb s "")
  | _ => true
  end.

(** A thrown value: an [Error] with its message, or the bare
    [{reason, status}] object that some handlers throw. *)
Inductive jserr :=
| JsError (msg : string)
| JsThrown (reason : string) (status : Z).

(** [error.message]; a thrown plain object has none, and a template literal
    prints that as [undefined]. *)
Definition message (e : jserr) : string :=
  match e with
  | JsError m => m
  | JsThrown _ _ => "undefined"
  end.

(** A possibly-undefined string inside a template literal or next to [+]. *)
Definition str (o : option string) : string := default "undefined" o.

Definition truthy_str (o : option string) : bool :=
  match o with
  | Some s => negb (String.eqb s "")
  | None => false
  end.

(** The object handed to [graphStore.createNamedGraph]. *)
Record graphData := GraphData {
  g_context : option string;
  g_baseURI : string;
  g_data : string;
  g_acl : option string;
  g_label : option string;
  g_description : option string
}.

(** [req.body]; every field may be missing. *)
Record body := Body {
  b_title : option string;
  b_description : option string;
  b_open : bool;
  b_acl : option string;
  b_aclName : option string;
  b_label : option string
}.

(** [req.files]: per field the uploaded buffers, as text. *)
Record files := Files {
  f_file : option (list string);
  f_acl : option (list string);
  f_aclName : option (list string);
  f_graph : option (list string)
}.

(** The request, without [req.user]: the principal is a mutable object and
    lives in the [world]. *)
Record request := Request {
  method : string;
  projectName : string;
  query : option JsString.t;
  req_body : body;
  req_files : option files
}.

(** ** The collaborators *)

Inductive call :=
| CreateRepository (title : option string) (id : string)
| DeleteRepository (id : string)
| CreateNamedGraph (project : string) (g : graphData)
| GetNamedGraph (ctx : string) (project : string)
| DeleteNamedGraph (ctx : string) (project : string)
| GetAllNamedGraphs (project : string)
| QueryRepository (project : string) (q : JsString.t)
| CreateProjectDoc (repoUrl id : string)
| DeleteProjectDoc (id : string)
| UploadDocuments (project : string) (bytes : string) (owner : string)
| DeleteDocument (fileId : string)
| FileFind (project : string)
| SaveUser (u : user).

Inductive result (A : Type) :=
| Ok (a : A)
| Throw (e : jserr).
Arguments Ok {A} a.
Arguments Throw {A} e.

(** An event of the trace: a call and what came back. *)
Abbreviation event := (call * result jsval)%type.

(** ** The saga bookkeeping object [writeCommands] *)

(** An undo argument: a string, or a reference to the [req.user] object. *)
Inductive arg :=
| AStr (s : string)
| APrincipal.

(** The value stored under a key of [writeCommands]: the record
    [{done, undoArgs}] it is declared with, or whatever else is assigned over
    it. *)
Inductive command :=
| Cmd (done : jsval) (undoArgs : list arg)
| Replaced (v : jsval).

(** [entry.done]; no value a store returns carries such a property. *)
Definition done_of (c : command) : jsval :=
  match c with
  | Cmd d _ => d
  | Replaced _ => VUndefined
  end.

Definition args_of (c : command) : list arg :=
  match c with
  | Cmd _ a => a
  | Replaced _ => []
  end.

(** ** The world: trace of store calls, the principal object, the saga record *)

Record world := World {
  trace : list event;
  principal : option user;
  writeCommands : list (string * command)
}.

Definition M (A : Type) : Type := world → result A * world.

#[global] Instance M_ret : MRet M := λ A a w, (Ok a, w).
#[global] Instance M_bind : MBind M := λ A B f m w,
  match m w with
  | (Ok a, w') => f a w'
  | (Throw e, w') => (Throw e, w')
  end.

Definition throw {A} (e : jserr) : M A := λ w, (Throw e, w).

(** [try { body } catch (error) { handler error }]. *)
Definition try_catch {A} (body : M A) (handler : jserr → M A) : M A := λ w,
  match body w with
  | (Ok a, w') => (Ok a, w')
  | (Throw e, w') => handler e w'
  end.

Definition gets {A} (f : world → A) : M A := λ w, (Ok (f w), w).
Definition modify (f : world → world) : M unit := λ w, (Ok tt, f w).

Definition type_error (prop : string) : jserr :=
  JsError ("Cannot read properties of undefined (reading '" +:+ prop +:+ "')").

Definition set_principal (u : user) (w : world) : world :=
  World (trace w) (Some u) (writeCommands w).
Definition set_writeCommands (wc : list (string * command)) (w : world) : world :=
  World (trace w) (principal w) wc.
Definition record (ev : event) (w : world) : world :=
  World (trace w ++ [ev]) (principal w) (writeCommands w).

(** [writeCommands[name].done = v]; on an entry that was assigned over, the
    property lands on the assigned value and the entry stays what it is. *)
Fixpoint set_done (name : string) (v : jsval) (wc : list (string * command))
  : list (string * command) :=
  match wc with
  | [] => []
  | (k, c) :: rest =>
      if String.eqb k name
      then (k, match c with Cmd _ a => Cmd v a | Replaced x => Replaced x end) :: rest
      else (k, c) :: set_done name v rest
  end.

(** [writeCommands[name] = v]: the key keeps its place. *)
Fixpoint replace_command (name : string) (v : jsval) (wc : list (string * command))
  : list (string * command) :=
  match wc with
  | [] => [(name, Replaced v)]
  | (k, c) :: rest =>
      if String.eqb k name then (k, Replaced v) :: rest
      else (k, c) :: replace_command name v rest
  end.

(** [obj[key] = v] on a plain object used as a map; assigning to [__proto__]
    creates no own key. *)
Definition obj_set (key : string) (v : jsval) (m : gmap string jsval) : gmap string jsval :=
  if String.eqb key "__proto__" then m else <[key := v]> m.

(** ** The service *)

Section Service.

(** [process.env.DOMAIN_URL]. *)
Variable DOMAIN_URL : string.
(** [graphStore.namedGraphMeta(uri, acl, label, description)], which
    renders the metadata graph of a resource; it talks to no store. *)
Variable namedGraphMeta : string → option string → option string → option string → string.
(** [errorHandler(error)], turning a caught error into [{reason, status}]. *)
Variable errorHandler : jserr → string * Z.
(** What a store answers to a call, given everything that happened before. *)
Variable respond : list event → call → result jsval.

(** [await store.f(...)]: ask, record, and return or re-throw. *)
Definition invoke (c : call) : M jsval := λ w,
  let r := respond (trace w) c in
  (r, record (c, r) w).

(** [user.projects.push(id)] on the [req.user] object. *)
Definition push_project (id : string) : M unit :=
  u ← gets principal;
  match u with
  | None => throw (type_error "projects")
  | Some u => modify (set_principal (User (uri u) (email u) (projects u ++ [id])))
  end.

(** [user.projects = user.projects.filter(p => p !== id)]. *)
Definition remove_project (id : string) : M unit :=
  u ← gets principal;
  match u with
  | None => throw (type_error "projects")
  | Some u =>
      modify (set_principal
                (User (uri u) (email u)
                   (List.filter (λ p, negb (String.eqb p id)) (projects u))))
  end.

(** [await user.save()]. *)
Definition save : M jsval :=
  u ← gets principal;
  match u with
  | None => throw (type_error "save")
  | Some u => invoke (SaveUser u)
  end.

(** *** ACL bootstrap *)

(** The Turtle text that [createDefaultAclGraph] builds. *)
Definition defaultAclData (id : string) (creator : user) (open : bool) : string :=
  let data := "
# Root ACL resource for LBDserver project with id " +:+ id +:+ "
@prefix acl: <http://www.w3.org/ns/auth/acl#>.
@prefix lbd: <https://lbdserver.org/vocabulary#>.
@prefix vcard: <http://www.w3.org/2006/vcard/ns#>.
@prefix foaf: <http://xmlns.com/foaf/0.1/>.

# The owner has all permissions
<#owner>
    a acl:Authorization;
    acl:agent <" +:+ uri creator +:+ ">;
    acl:mode acl:Read, acl:Write, acl:Control.

<" +:+ uri creator +:+ "> vcard:email " +:+ dquote +:+ email creator +:+ dquote +:+ ".

" in
  if open then
    data +:+ "
  <#visitor>
    a acl:Authorization;
    acl:agentClass foaf:Agent;
    acl:mode acl:Read."
  else data.

Definition createDefaultAclGraph (id : string) (creator : option user)
    (aclUrl : string) (open : bool) : M bool :=
  try_catch
    (data ← match creator with
            | None => throw (type_error "uri")
            | Some c => mret (defaultAclData id c open)
            end;
     let aclData := GraphData (Some aclUrl) (aclUrl +:+ "#") data None None None in
     _ ← invoke (CreateNamedGraph id aclData);
     mret true)
    (λ error, throw (JsError ("Failed creating the default ACL graph; " +:+ message error))).

(** *** Compensation *)

(** Modelled from the spec: the reversal of one saga step (the module
    [util/databaseCleanup] is not part of the sources).  Section 4.5: the
    compensations of createProject "reverse each [step] respectively", and
    deleteProject mirrors them. *)
Definition compensate (name : string) (args : list arg) : M unit :=
  match args with
  | [AStr id] =>
      if String.eqb name "createProjectRepository" then _ ← invoke (DeleteRepository id); mret tt
      else if String.eqb name "createProjectDoc" then _ ← invoke (DeleteProjectDoc id); mret tt
      else mret tt
  | [AStr id; APrincipal] =>
      if String.eqb name "saveProjectToUser" then _ ← remove_project id; _ ← save; mret tt
      else if String.eqb name "deleteProjectFromUser" then _ ← push_project id; _ ← save; mret tt
      else mret tt
  | [AStr repoUrl; AStr id] =>
      if String.eqb name "deleteProjectDoc" then _ ← invoke (CreateProjectDoc repoUrl id); mret tt
      else mret tt
  | _ => mret tt
  end.

(** Modelled from the spec: attempt, in the order given, the compensation of
    every entry whose [done] is set; a failing compensation is noted and
    the next one still runs (section 4.4). *)
Fixpoint attempt_all (cmds : list (string * command)) : M (list string) :=
  match cmds with
  | [] => mret []
  | (name, c) :: rest =>
      here ← (if truthy (done_of c)
              then try_catch (_ ← compensate name (args_of c); mret [])
                             (λ err, mret [name +:+ ": " +:+ message err])
              else mret []);
      later ← attempt_all rest;
      mret (here ++ later)
  end.

(** Modelled from the spec: [undoDatabaseActions(writeCommands)] of
    [util/databaseCleanup], which is not part of the sources.  Sections 3
    and 4.4: compensations run only for Done steps, in reverse declaration
    order, all are attempted, and the failures are collected into one
    error. *)
Definition undoDatabaseActions (wc : list (string * command)) : M unit :=
  failures ← attempt_all (rev wc);
  match failures with
  | [] => mret tt
  | _ => throw (JsError (String.concat "; " failures))
  end.

(** *** Projects *)

(** What createProject returns; its [graphs] and [documents] fields are
    always empty objects and are left out. *)
Record project_payload := ProjectPayload {
  p_metadata : string;
  p_id : string;
  p_message : string
}.

(** The [catch] block of createProject. *)
Definition createProject_catch {A} (error : jserr) : M A :=
  wc ← gets writeCommands;
  undoError ← try_catch (_ ← undoDatabaseActions wc; mret "SUCCESS")
                        (λ err, mret (message err));
  throw (JsError ("Failed to create Project; " +:+ message error +:+
                  ". Undoing past operations: " +:+ undoError)).

(** [id] is the value drawn from [v4()]. *)
Definition createProject (id : string) (req : request) : M project_payload :=
  let metaTitle := DOMAIN_URL +:+ "/lbd/" +:+ id +:+ ".meta" in
  let repoUrl := DOMAIN_URL +:+ "/lbd/" +:+ id in
  let acl := DOMAIN_URL +:+ "/lbd/" +:+ id +:+ "/.acl" in
  let title := b_title (req_body req) in
  let description := b_description (req_body req) in
  let open := b_open (req_body req) in
  creator ← gets principal;
  match creator with
  | None => throw (JsError "You must be authenticated to create a new LBDserver Project")
  | Some _ =>
      _ ← modify (set_writeCommands
             [("createProjectRepository", Cmd (VBool false) [AStr id]);
              ("createProjectDoc", Cmd (VBool false) [AStr id]);
              ("saveProjectToUser", Cmd (VBool false) [AStr id; APrincipal])]);
      try_catch
        (let repoMetaData := namedGraphMeta repoUrl (Some acl) title description in
         _ ← push_project id;
         r ← invoke (CreateRepository title id);
         _ ← modify (λ w, set_writeCommands (set_done "createProjectRepository" r (writeCommands w)) w);
         r ← invoke (CreateProjectDoc repoUrl id);
         _ ← modify (λ w, set_writeCommands (set_done "createProjectDoc" r (writeCommands w)) w);
         r ← save;
         _ ← modify (λ w, set_writeCommands (set_done "saveProjectToUser" r (writeCommands w)) w);
         _ ← invoke (CreateNamedGraph id
                (GraphData (Some metaTitle) metaTitle repoMetaData None None None));
         creator ← gets principal;
         _ ← createDefaultAclGraph id creator acl open;
         mret (ProjectPayload repoMetaData id "Project successfully created"))
        createProject_catch
  end.

Record project_data := ProjectData {
  d_metadata : jsval;
  d_graphs : gmap string jsval;
  d_documents : gmap string jsval;
  d_id : string
}.

(** The loop [for (const file of files) documents[file.url] = ...]. *)
Fixpoint collect_documents (projectName : string) (urls : list string)
    (documents : gmap string jsval) : M (gmap string jsval) :=
  match urls with
  | [] => mret documents
  | url :: rest =>
      g ← invoke (GetNamedGraph (url +:+ ".meta") projectName);
      collect_documents projectName rest (obj_set url g documents)
  end.

(** The loop over [allNamed.results.bindings]. *)
Fixpoint collect_graphs (projectName : string) (contexts : list string)
    (graphs : gmap string jsval) : M (gmap string jsval) :=
  match contexts with
  | [] => mret graphs
  | ctx :: rest =>
      if negb (endsWith ctx "acl") && negb (endsWith ctx "meta")
      then g ← invoke (GetNamedGraph (ctx +:+ ".meta") projectName);
           collect_graphs projectName rest (obj_set ctx g graphs)
      else collect_graphs projectName rest graphs
  end.

Definition findProjectData (projectName : string) : M project_data :=
  try_catch
    (projectGraph ← invoke (GetNamedGraph (DOMAIN_URL +:+ "/lbd/" +:+ projectName +:+ ".meta")
                              projectName);
     allNamed ← invoke (GetAllNamedGraphs projectName);
     files ← invoke (FileFind (DOMAIN_URL +:+ "/lbd/" +:+ projectName));
     urls ← match files with
            | VFiles urls => mret urls
            | _ => throw (JsError "files is not iterable")
            end;
     documents ← collect_documents projectName urls ∅;
     contexts ← match allNamed with
                | VBindings contexts => mret contexts
                | _ => throw (type_error "bindings")
                end;
     graphs ← collect_graphs projectName contexts ∅;
     mret (ProjectData projectGraph graphs documents projectName))
    (λ error,
       throw (JsError ("Could not find project data for project with id " +:+ projectName +:+
                       "; " +:+ message error))).

(** The [catch] block of deleteProject. *)
Definition deleteProject_catch {A} (id : string) (error : jserr) : M A :=
  wc ← gets writeCommands;
  undoError ← try_catch (_ ← undoDatabaseActions wc; mret "SUCCESS")
                        (λ err, mret (message err));
  throw (JsError ("Failed to create Project with id " +:+ id +:+ "; " +:+ message error +:+
                  ". Undoing past operations: " +:+ undoError)).

Definition deleteProject (req : request) : M jsval :=
  let id := projectName req in
  let repoUrl := DOMAIN_URL +:+ "/lbd/" +:+ id in
  _ ← modify (set_writeCommands
         [("deleteProjectDoc", Cmd (VBool false) [AStr repoUrl; AStr id]);
          ("deleteProjectFromUser", Cmd (VBool false) [AStr id; APrincipal])]);
  try_catch
    (_ ← remove_project id;
     r ← save;
     _ ← modify (λ w, set_writeCommands (replace_command "deleteProjectFromUser" r (writeCommands w)) w);
     r ← invoke (DeleteProjectDoc id);
     _ ← modify (λ w, set_writeCommands (set_done "deleteProjectDoc" r (writeCommands w)) w);
     _ ← invoke (DeleteRepository id);
     mret VUndefined)
    (deleteProject_catch id).

(** *** Queries *)

Definition tok_select : JsString.t := JsString.of_string "select".
Definition tok_insert : JsString.t := JsString.of_string "insert".
Definition tok_delete : JsString.t := JsString.of_string "delete".

(** The condition of the [if] inside the GET branch: [raw] is
    [req.query.query], [encoded] is [encodeURIComponent(req.query.query)]. *)
Definition read_gate (raw encoded : JsString.t) : bool :=
  JsString.includes (JsString.toLowerCase raw) tok_select &&
  negb (JsString.includes (JsString.toLowerCase encoded) tok_insert) &&
  negb (JsString.includes (JsString.toLowerCase encoded) tok_delete).

Definition queryProject (req : request) : M jsval :=
  try_catch
    (if String.eqb (method req) "GET" then
       encoded ← match query req with
                 | None => mret (JsString.of_string "undefined")
                 | Some q =>
                     match JsString.encodeURIComponent q with
                     | Some e => mret e
                     | None => throw (JsError "URI malformed")
                     end
                 end;
       raw ← match query req with
             | None => throw (type_error "toLowerCase")
             | Some q => mret q
             end;
       if read_gate raw encoded
       then invoke (QueryRepository (projectName req) encoded)
       else throw (JsError "This SPARQL query is not allowed in a GET request. Use POST for INSERT and DELETE queries")
     else mret VUndefined)
    (λ error, throw (JsError ("Could not complete query; " +:+ message error))).

(** *** Named graphs and documents *)

Inductive payload :=
| PCreated (message : option string) (metaGraph : string) (url : jsval)
| PMessage (message : string)
| PError (reason : string).

(** [res.status(status).json(payload)]. *)
Record response := Response {
  status : Z;
  sent : payload
}.

(** String conversion of a value met where a string is expected. *)
Definition to_str (v : jsval) : string :=
  match v with
  | VString s => s
  | VUndefined => "undefined"
  | VBool true => "true"
  | VBool false => "false"
  | _ => "[object Object]"
  end.

(** [req.files.<field>[0].buffer.toString()]. *)
Definition first_buffer (bufs : list string) : M string :=
  match bufs with
  | b :: _ => mret b
  | [] => throw (type_error "buffer")
  end.

Definition setAcl (req : request) : M (option string) :=
  try_catch
    (let projectName := projectName req in
     fs ← match req_files req with
          | Some fs => mret fs
          | None => throw (type_error "acl")
          end;
     if negb (truthy_str (b_acl (req_body req))) && negb (bool_decide (is_Some (f_acl fs)))
     then mret (Some ("https://lbdserver.org/lbd/" +:+ projectName +:+ "/.acl"))
     else
       match f_acl fs with
       | Some bufs =>
           match f_aclName fs with
           | None =>
               throw (JsError "When uploading a custom acl file, please set a context URL for it")
           | Some _ =>
               let aclName := b_aclName (req_body req) in
               buffer ← first_buffer bufs;
               let aclData := GraphData aclName (str aclName +:+ "#") buffer None None None in
               _ ← invoke (CreateNamedGraph projectName aclData);
               mret aclName
           end
       | None =>
           try_catch
             (_ ← invoke (GetNamedGraph (str (b_acl (req_body req))) projectName);
              mret (b_acl (req_body req)))
             (λ _, throw (JsThrown "The specified acl graph does not exist yet. Please consider uploading a custom acl file or refer to already existing acl files" 400))
       end)
    (λ error, throw (JsError ("Could not create ACL file; " +:+ message error))).

Definition blank_graph (context : string) : string :=
  "
@prefix : <" +:+ context +:+ "#>.
@prefix sp: <http://spinrdf.org/sp#>.
@prefix bot: <https://w3id.org/bot#>.
@prefix stg: <https://raw.githubusercontent.com/JWerbrouck/Thesis/master/stg.ttl#>.

: a sp:NamedGraph .
        ".

Definition setGraph (req : request) (projectName : string) (acl : option string)
    (context : string) : M string :=
  try_catch
    (fs ← match req_files req with
          | Some fs => mret fs
          | None => throw (type_error "graph")
          end;
     data ← match f_graph fs with
            | Some bufs => first_buffer bufs
            | None => mret (blank_graph context)
            end;
     _ ← invoke (CreateNamedGraph projectName
            (GraphData (Some context) (context +:+ "#") data acl None None));
     mret context)
    (λ error,
       throw (JsError ("Could not create graph with context " +:+ context +:+ "; " +:+
                       message error))).

Definition setMetaGraph (projectName uri : string) (acl label description : option string)
    : M string :=
  try_catch
    (let graphMetaData := namedGraphMeta uri acl label description in
     _ ← invoke (CreateNamedGraph projectName
            (GraphData (Some (uri +:+ ".meta")) (uri +:+ ".meta#") graphMetaData None
               label description));
     mret graphMetaData)
    (λ error,
       throw (JsError ("Could not create metadata graph with context " +:+ uri +:+ "; " +:+
                       message error))).

(** [if (req.body.x) { x = req.body.x }]. *)
Definition if_truthy (o : option string) : option string :=
  if truthy_str o then o else None.

Definition respond_error (error : jserr) : M response :=
  let '(reason, status) := errorHandler error in
  mret (Response status (PError reason)).

(** [graphId] is the value drawn from [v4()]. *)
Definition createNamedGraph (graphId : string) (req : request) : M response :=
  try_catch
    (let projectName := projectName req in
     let context := DOMAIN_URL +:+ "/lbd/" +:+ projectName +:+ "/graphs/" +:+ graphId in
     allNamed ← invoke (GetAllNamedGraphs projectName);
     _ ← match allNamed with
         | VBindings _ => mret tt
         | _ => throw (type_error "bindings")
         end;
     acl ← setAcl req;
     _ ← setGraph req projectName acl context;
     let description := if_truthy (b_description (req_body req)) in
     let label := if_truthy (b_label (req_body req)) in
     metaContext ← setMetaGraph projectName context acl label description;
     mret (Response 201
             (PCreated (Some ("Successfully created the named graph with context " +:+ context))
                metaContext (VString context))))
    respond_error.

Definition uploadDocumentToProject (req : request) : M response :=
  try_catch
    (let projectName := projectName req in
     u ← gets principal;
     owner ← match u with
             | Some u => mret (uri u)
             | None => throw (type_error "uri")
             end;
     data ← match req_files req with
            | None => throw (type_error "file")
            | Some fs =>
                match f_file fs with
                | None => throw (type_error "0")
                | Some bufs => first_buffer bufs
                end
            end;
     documentUrl ← invoke (UploadDocuments projectName data owner);
     acl ← setAcl req;
     let description := if_truthy (b_description (req_body req)) in
     let label := if_truthy (b_label (req_body req)) in
     metaContext ← setMetaGraph projectName (to_str documentUrl) acl label description;
     mret (Response 201 (PCreated None metaContext documentUrl)))
    respond_error.

Definition deleteDocumentFromProject (fileId : string) (req : request) : M response :=
  try_catch
    (docUrl ← invoke (DeleteDocument fileId);
     let projectName := projectName req in
     _ ← invoke (DeleteNamedGraph (to_str docUrl +:+ ".meta") projectName);
     mret (Response 200 (PMessage "Document deleted")))
    respond_error.

Definition deleteNamedGraph (graphId : string) (req : request) : M response :=
  try_catch
    (let projectName := projectName req in
     let namedGraph := DOMAIN_URL +:+ "/lbd/" +:+ projectName +:+ "/graphs/" +:+ graphId in
     let namedGraphMeta := DOMAIN_URL +:+ "/lbd/" +:+ projectName +:+ "/graphs/" +:+ graphId +:+ ".meta" in
     _ ← invoke (DeleteNamedGraph namedGraph projectName);
     _ ← invoke (DeleteNamedGraph namedGraphMeta projectName);
     mret (Response 200 (PMessage "The named graph was successfully deleted")))
    respond_error.

End Service.

(** ** What the stores hold, read off a trace *)

(** The principal's record in the document store after a trace: the last
    version a [save()] wrote (a [save()] that throws writes nothing). *)
Definition stored_user (before : option user) (tr : list event) : option user :=
  fold_left (λ acc ev,
               match ev with
               | (SaveUser u, Ok _) => Some u
               | _ => acc
               end) tr before.

Definition with_project (id : string) (u : user) : user :=
  User (uri u) (email u) (projects u ++ [id]).

Definition without_project (id : string) (u : user) : user :=
  User (uri u) (email u) (List.filter (λ p, negb (String.eqb p id)) (projects u)).

Definition with_principal (p : option user) (w : world) : world :=
  World (trace w) p (writeCommands w).

(** A computation that neither reads nor writes [req.user]. *)
Definition principal_blind {A} (m : M A) : Prop :=
  ∀ w p, m (with_principal p w) = (fst (m w), with_principal p (snd (m w))).

(** A handler that answers with an error and has called no store. *)
Definition refused_before_stores (m : M response) (w : world) : Prop :=
  ∃ reason status w',
    m w = (Ok (Response status (PError reason)), w') ∧ trace w' = trace w.

(** *** The compensation phase, as seen in the trace *)

(** The step of the create saga that a call of the undo phase reverses. *)
Definition create_step (c : call) : string :=
  match c with
  | DeleteRepository _ => "createProjectRepository"
  | DeleteProjectDoc _ => "createProjectDoc"
  | SaveUser _ => "saveProjectToUser"
  | _ => ""
  end.


(** The failures among the events of an undo phase, one diagnostic each. *)
Definition failures (step : call → string) (evs : list event) : list string :=
  flat_map (λ ev : event,
              match snd ev with
              | Ok _ => []
              | Throw e => [step (fst ev) +:+ ": " +:+ message e]
              end) evs.

(** What the [catch] blocks print after "Undoing past operations: ". *)
Definition undo_report (fs : list string) : string :=
  match fs with
  | [] => "SUCCESS"
  | _ => String.concat "; " fs
  end.

(** After a failed record write: an error, the repository deleted again,
    and the [projects] of the principal object as they were. *)
Definition record_write_failure_claim (DOMAIN_URL : string)
    (namedGraphMeta : string → option string → option string → option string → string)
    (respond : list event → call → result jsval)
    (id : string) (req : request) (w : world) : Prop :=
  let '(r, w') := createProject DOMAIN_URL namedGraphMeta respond id req w in
  (∃ e, r = Throw e) ∧
  (∃ r, (DeleteRepository id, r) ∈ trace w') ∧
  projects <$> principal w' = projects <$> principal w.

(** *** The read gate *)

(** The request was dispatched to the graph store as a read. *)
Definition accepted_as_read (respond : list event → call → result jsval)
    (req : request) (w : world) : Prop :=
  ∃ e r, snd (queryProject respond req w) = record (QueryRepository (projectName req) e, r) w.

(** The request failed and nothing was dispatched. *)
Definition rejected (respond : list event → call → result jsval)
    (req : request) (w : world) : Prop :=
  (∃ m, fst (queryProject respond req w) = Throw (JsError m)) ∧
  snd (queryProject respond req w) = w.

(** The text, lower-cased, has [select] and neither [insert] nor [delete].
    Express hands the handler the query already percent-decoded. *)
Definition read_only_text (q : JsString.t) : Prop :=
  JsString.includes (JsString.toLowerCase q) tok_select = true ∧
  JsString.includes (JsString.toLowerCase q) tok_insert = false ∧
  JsString.includes (JsString.toLowerCase q) tok_delete = false.

(** A lower-case ASCII letter. *)
Definition lower_letter (c : Z) : bool := (97 <=? c) && (c <=? 122).

(** *** The project snapshot *)

(** The project's own ACL graph, as createProject names it. *)
Definition project_acl (DOMAIN_URL id : string) : string :=
  DOMAIN_URL +:+ "/lbd/" +:+ id +:+ "/.acl".

(** The graphs that findProjectData lists: neither suffix, and a key that a
    plain object can hold. *)
Definition listed (ctx : string) : bool :=
  negb (endsWith ctx "acl") && negb (endsWith ctx "meta") && negb (String.eqb ctx "__proto__").

(** The graphs component holds exactly the enumerated graphs that are
    neither a [.meta] companion nor the project's ACL graph. *)
Definition snapshot_claim (DOMAIN_URL : string) (respond : list event → call → result jsval)
    (project : string) (w : world) : Prop :=
  ∀ d w' contexts,
    findProjectData DOMAIN_URL respond project w = (Ok d, w') →
    (GetAllNamedGraphs project, Ok (VBindings contexts)) ∈ trace w' →
    ∀ ctx, is_Some (d_graphs d !! ctx) ↔
           ctx ∈ contexts ∧ endsWith ctx ".meta" = false ∧ ctx ≠ project_acl DOMAIN_URL project.

(** ** The ACL text, read as Turtle

    A reader for the part of Turtle (W3C RDF 1.1 Turtle) that the default
    ACL text is written in: comments, [@prefix] directives, IRIs in angle
    brackets, prefixed names, the keyword [a], double-quoted strings
    without escapes, and triples with [;] and [,].  For anything else
    (escapes, long or single-quoted strings, language tags and datatypes,
    numbers, blank nodes, collections, [@base], SPARQL-style directives) the
    answer is [None], never a guess.  IRIs are kept as written: the store
    resolves a relative IRI such as [<#owner>] against the base URI, the
    reader does not. *)
Module Turtle.

Definition code (c : Ascii.ascii) : nat := Ascii.nat_of_ascii c.

(** [c] is one of the characters with these codes. *)
Definition one_of (codes : list nat) (c : Ascii.ascii) : bool :=
  existsb (Nat.eqb (code c)) codes.

(** Line feed and carriage return, which end a comment. *)
Definition is_eol : Ascii.ascii → bool := one_of [10; 13]%nat.
(** Space, tab, line feed, carriage return. *)
Definition is_ws : Ascii.ascii → bool := one_of [32; 9; 10; 13]%nat.
(** IRIREF: anything above the space except the angle brackets, the double
    quote, the braces, the bar, the caret, the backquote and the
    backslash. *)
Definition iri_char (c : Ascii.ascii) : bool :=
  (32 <? code c)%nat && negb (one_of [60; 62; 34; 123; 125; 124; 94; 96; 92]%nat c).
(** STRING_LITERAL_QUOTE without escapes: anything except the double quote,
    the backslash, line feed and carriage return. *)
Definition string_char (c : Ascii.ascii) : bool := negb (one_of [34; 92; 10; 13]%nat c).
Definition is_letter (c : Ascii.ascii) : bool :=
  ((65 <=? code c) && (code c <=? 90) || (97 <=? code c) && (code c <=? 122))%nat.
Definition is_digit (c : Ascii.ascii) : bool := ((48 <=? code c) && (code c <=? 57))%nat.
(** The characters of a prefixed name that the reader knows: letters,
    digits, [_], [-] and [:]. *)
Definition name_char (c : Ascii.ascii) : bool :=
  is_letter c || is_digit c || one_of [95; 45; 58]%nat c.

Inductive token :=
| TIri (iri : string)
| TString (lexical : string)
| TName (name : string)
| TDot
| TSemicolon
| TComma.

(** Where the reader is: between two tokens, in a comment, or inside an
    IRI, a string or a name, with what it has read of it. *)
Inductive mode :=
| Between
| Comment
| InIri (read : string)
| InString (read : string)
| InName (read : string).

Definition snoc (s : string) (c : Ascii.ascii) : string := s +:+ String c EmptyString.

Definition head_is (p : Ascii.ascii → bool) (s : string) : bool :=
  match s with
  | String c _ => p c
  | EmptyString => false
  end.

(** What a character between two tokens opens, and the token that it is by
    itself.  A dot before a digit would begin a number. *)
Definition open_token (c : Ascii.ascii) (rest : string) : option (mode * list token) :=
  if is_ws c then Some (Between, [])
  else if one_of [35]%nat c then Some (Comment, [])
  else if one_of [60]%nat c then Some (InIri "", [])
  else if one_of [34]%nat c then Some (InString "", [])
  else if one_of [59]%nat c then Some (Between, [TSemicolon])
  else if one_of [44]%nat c then Some (Between, [TComma])
  else if one_of [46]%nat c then
    if head_is is_digit rest then None else Some (Between, [TDot])
  else if is_letter c || one_of [58; 64]%nat c then Some (InName (String c ""), [])
  else None.

(** What may follow a name directly: white space, [;], [,], or a dot that
    is not itself followed by a name character (a name can have dots
    inside). *)
Definition close_name (c : Ascii.ascii) (rest : string) : option (list token) :=
  if is_ws c then Some []
  else if one_of [59]%nat c then Some [TSemicolon]
  else if one_of [44]%nat c then Some [TComma]
  else if one_of [46]%nat c then
    if head_is name_char rest then None else Some [TDot]
  else None.

(** The tokens of a text; [out] holds those read so far, last first.  Two
    double quotes directly followed by a third would open a long string. *)
Fixpoint lex_from (m : mode) (out : list token) (s : string) : option (list token) :=
  match s with
  | EmptyString =>
      match m with
      | Between | Comment => Some (rev out)
      | InName n => Some (rev (TName n :: out))
      | InIri _ | InString _ => None
      end
  | String c rest =>
      match m with
      | Between =>
          match open_token c rest with
          | Some (m', ts) => lex_from m' (ts ++ out) rest
          | None => None
          end
      | Comment => lex_from (if is_eol c then Between else Comment) out rest
      | InIri i =>
          if iri_char c then lex_from (InIri (snoc i c)) out rest
          else if one_of [62]%nat c then lex_from Between (TIri i :: out) rest
          else None
      | InString l =>
          if string_char c then lex_from (InString (snoc l c)) out rest
          else if one_of [34]%nat c then
            if head_is (one_of [34]%nat) rest && String.eqb l "" then None
            else lex_from Between (TString l :: out) rest
          else None
      | InName n =>
          if name_char c then lex_from (InName (snoc n c)) out rest
          else
            match close_name c rest with
            | Some ts => lex_from Between (ts ++ TName n :: out) rest
            | None => None
            end
      end
  end.

Definition lex (text : string) : option (list token) := lex_from Between [] text.

Inductive term :=
| Iri (iri : string)
| Literal (lexical : string).

Definition triple : Type := term * term * term.

(** A prefixed name, cut at its first colon. *)
Fixpoint split_name (n : string) : option (string * string) :=
  match n with
  | EmptyString => None
  | String c rest =>
      if one_of [58]%nat c then Some ("", rest)
      else
        match split_name rest with
        | Some (p, l) => Some (String c p, l)
        | None => None
        end
  end.

(** The namespace of a prefix: the latest declaration counts. *)
Fixpoint namespace (prefixes : list (string * string)) (p : string) : option string :=
  match prefixes with
  | [] => None
  | (q, ns) :: older => if String.eqb q p then Some ns else namespace older p
  end.

Definition expand (prefixes : list (string * string)) (n : string) : option term :=
  match split_name n with
  | Some (p, l) =>
      match namespace prefixes p with
      | Some ns => Some (Iri (ns +:+ l))
      | None => None
      end
  | None => None
  end.

Definition resource (prefixes : list (string * string)) (t : token) : option term :=
  match t with
  | TIri i => Some (Iri i)
  | TName n => expand prefixes n
  | _ => None
  end.

Definition rdf_type : term := Iri "http://www.w3.org/1999/02/22-rdf-syntax-ns#type".

(** What the reader expects next. *)
Inductive expecting :=
| Statement
| PrefixName
| PrefixIri (p : string)
| PrefixDot (p ns : string)
| Verb (s : term)
| Object (s p : term)
| Separator (s p : term).

(** The triples of a sequence of tokens; [out] holds those read so far,
    last first. *)
Fixpoint parse_from (e : expecting) (prefixes : list (string * string))
    (out : list triple) (toks : list token) : option (list triple) :=
  match toks with
  | [] =>
      match e with
      | Statement => Some (rev out)
      | _ => None
      end
  | t :: rest =>
      match e with
      | Statement =>
          match t with
          | TName n =>
              if String.eqb n "@prefix" then parse_from PrefixName prefixes out rest
              else
                match expand prefixes n with
                | Some s => parse_from (Verb s) prefixes out rest
                | None => None
                end
          | TIri i => parse_from (Verb (Iri i)) prefixes out rest
          | _ => None
          end
      | PrefixName =>
          match t with
          | TName n =>
              match split_name n with
              | Some (p, l) =>
                  if String.eqb l "" then parse_from (PrefixIri p) prefixes out rest
                  else None
              | None => None
              end
          | _ => None
          end
      | PrefixIri p =>
          match t with
          | TIri ns => parse_from (PrefixDot p ns) prefixes out rest
          | _ => None
          end
      | PrefixDot p ns =>
          match t with
          | TDot => parse_from Statement ((p, ns) :: prefixes) out rest
          | _ => None
          end
      | Verb s =>
          match t with
          | TName n =>
              if String.eqb n "a" then parse_from (Object s rdf_type) prefixes out rest
              else
                match expand prefixes n with
                | Some p => parse_from (Object s p) prefixes out rest
                | None => None
                end
          | TIri i => parse_from (Object s (Iri i)) prefixes out rest
          | _ => None
          end
      | Object s p =>
          match t with
          | TString l => parse_from (Separator s p) prefixes ((s, p, Literal l) :: out) rest
          | _ =>
              match resource prefixes t with
              | Some o => parse_from (Separator s p) prefixes ((s, p, o) :: out) rest
              | None => None
              end
          end
      | Separator s p =>
          match t with
          | TComma => parse_from (Object s p) prefixes out rest
          | TSemicolon => parse_from (Verb s) prefixes out rest
          | TDot => parse_from Statement prefixes out rest
          | _ => None
          end
      end
  end.

(** The graph that a text denotes. *)
Definition graph (text : string) : option (list triple) :=
  match lex text with
  | Some toks => parse_from Statement [] [] toks
  | None => None
  end.

End Turtle.

(** ** The authorizations of an ACL graph *)

Definition term_eqb (a b : Turtle.term) : bool :=
  match a, b with
  | Turtle.Iri x, Turtle.Iri y => String.eqb x y
  | Turtle.Literal x, Turtle.Literal y => String.eqb x y
  | _, _ => false
  end.

(** A term of the ACL vocabulary. *)
Definition acl (local : string) : Turtle.term :=
  Turtle.Iri ("http://www.w3.org/ns/auth/acl#" +:+ local).

(** The class of all agents. *)
Definition foaf_Agent : Turtle.term := Turtle.Iri "http://xmlns.com/foaf/0.1/Agent".

(** An authorization, as the graph has it: its subject, the agents and the
    agent classes it names, and the modes it grants. *)
Record authorization := Authorization {
  a_subject : Turtle.term;
  a_agents : list Turtle.term;
  a_classes : list Turtle.term;
  a_modes : list Turtle.term
}.

(** The objects of the triples with this predicate and this subject. *)
Definition objects (g : list Turtle.triple) (s p : Turtle.term) : list Turtle.term :=
  flat_map (λ t : Turtle.triple,
              let '(s', p', o) := t in
              if term_eqb p' p && term_eqb s' s then [o] else []) g.

(** The subjects typed [acl:Authorization]. *)
Definition authorization_subjects (g : list Turtle.triple) : list Turtle.term :=
  flat_map (λ t : Turtle.triple,
              let '(s, p, o) := t in
              if term_eqb p Turtle.rdf_type && term_eqb o (acl "Authorization")
              then [s] else []) g.

Definition authorizations (g : list Turtle.triple) : list authorization :=
  (λ s, Authorization s (objects g s (acl "agent")) (objects g s (acl "agentClass"))
          (objects g s (acl "mode"))) <$> authorization_subjects g.

(** A predicate that names whom an authorization is for. *)
Definition names_principal (p : Turtle.term) : bool :=
  term_eqb p (acl "agent") || term_eqb p (acl "agentClass") ||
  term_eqb p (acl "agentGroup") || term_eqb p (acl "origin").

(** No triple names a principal outside the authorizations. *)
Definition principals_only_in_authorizations (g : list Turtle.triple) : bool :=
  forallb (λ t : Turtle.triple,
             let '(s, p, _) := t in
             negb (names_principal p) ||
             existsb (λ t' : Turtle.triple,
                        let '(s', p', o') := t' in
                        term_eqb p' Turtle.rdf_type && term_eqb o' (acl "Authorization") &&
                        term_eqb s' s) g) g.

(** The owner authorization for [uri], as the template writes it. *)
Definition owner_authorization (uri : string) : authorization :=
  Authorization (Turtle.Iri "#owner") [Turtle.Iri uri] []
    [acl "Read"; acl "Write"; acl "Control"].

Definition public_read_authorization : authorization :=
  Authorization (Turtle.Iri "#visitor") [] [foaf_Agent] [acl "Read"].

(** The text is Turtle, and its graph has the owner authorization, the
    public-read authorization exactly when the project is open, and no
    other; no triple outside them names an agent, a class, a group or an
    origin. *)
Definition acl_claim (id : string) (creator : user) (open : bool) : Prop :=
  ∃ g,
    Turtle.graph (defaultAclData id creator open) = Some g ∧
    authorizations g =
      owner_authorization (uri creator) ::
      (if open then [public_read_authorization] else []) ∧
    principals_only_in_authorizations g = true.

(** Every character of the text passes the test. *)
Fixpoint forall_chars (p : Ascii.ascii → bool) (s : string) : bool :=
  match s with
  | EmptyString => true
  | String c rest => p c && forall_chars p rest
  end.


(** The graph that the template is written to denote: the owner
    authorization, the owner's contact, and the visitor authorization of an
    open project. *)
Definition default_acl_graph (uri email : string) (open : bool) : list Turtle.triple :=
  let owner := Turtle.Iri "#owner" in
  let visitor := Turtle.Iri "#visitor" in
  [ (owner, Turtle.rdf_type, acl "Authorization");
    (owner, acl "agent", Turtle.Iri uri);
    (owner, acl "mode", acl "Read");
    (owner, acl "mode", acl "Write");
    (owner, acl "mode", acl "Control");
    (Turtle.Iri uri, Turtle.Iri "http://www.w3.org/2006/vcard/ns#email", Turtle.Literal email) ] ++
  (if open then
     [ (visitor, Turtle.rdf_type, acl "Authorization");
       (visitor, acl "agentClass", foaf_Agent);
       (visitor, acl "mode", acl "Read") ]
   else []).

(** ** A concrete deployment, for the examples *)

Module Scenario.

Definition domain : string := "http://localhost:5000".

Definition meta (uri : string) (acl label description : option string) : string :=
  "<" +:+ uri +:+ "> lbd:hasAcl <" +:+ str acl +:+ "> ; rdfs:label " +:+ dquote +:+
  str label +:+ dquote +:+ " ; rdfs:comment " +:+ dquote +:+ str description +:+ dquote +:+ " .".

Definition handler (e : jserr) : string * Z :=
  match e with
  | JsError m => (m, 500)
  | JsThrown reason status => (reason, status)
  end.

(** Both stores work. *)
Definition all_ok (tr : list event) (c : call) : result jsval :=
  Ok match c with
     | GetAllNamedGraphs _ => VBindings []
     | FileFind _ => VFiles []
     | GetNamedGraph ctx _ => VString ("# graph " +:+ ctx)
     | SaveUser u => VUser u
     | UploadDocuments project _ _ => VString (domain +:+ "/lbd/" +:+ project +:+ "/files/f1")
     | _ => VBool true
     end.

(** The document store refuses to write the project record. *)
Definition doc_write_fails (tr : list event) (c : call) : result jsval :=
  match c with
  | CreateProjectDoc _ _ => Throw (JsError "E11000 duplicate key")
  | _ => all_ok tr c
  end.

(** The graph store reports through its return value that no repository
    was created. *)
Definition repository_not_created (tr : list event) (c : call) : result jsval :=
  match c with
  | CreateRepository _ _ => Ok (VBool false)
  | _ => all_ok tr c
  end.

(** The document store fails to delete the project record. *)
Definition doc_delete_fails (tr : list event) (c : call) : result jsval :=
  match c with
  | DeleteProjectDoc _ => Throw (JsError "connection lost")
  | _ => all_ok tr c
  end.

(** The graph writes fail, and so does every compensation: the repository
    and the record cannot be deleted, and the user cannot be saved without
    p1. *)
Definition all_but_undo (tr : list event) (c : call) : result jsval :=
  match c with
  | CreateNamedGraph _ _ => Throw (JsError "repository unavailable")
  | DeleteRepository _ => Throw (JsError "cannot drop repository")
  | DeleteProjectDoc _ => Throw (JsError "cannot delete record")
  | SaveUser u =>
      if bool_decide ("p1" ∈ projects u) then Ok (VUser u)
      else Throw (JsError "cannot save user")
  | _ => all_ok tr c
  end.

(** The repository of project p1 holds these graphs. *)
Definition p1_graphs : list string :=
  [ "http://localhost:5000/lbd/p1.meta";
    "http://localhost:5000/lbd/p1/.acl";
    "http://localhost:5000/lbd/p1/graphs/g1";
    "http://localhost:5000/lbd/p1/graphs/g1.meta";
    "http://localhost:5000/lbd/p1/graphs/sitemeta";
    "http://localhost:5000/lbd/p1/graphs/sitemeta.meta";
    "http://localhost:5000/lbd/p1/files/f1.meta" ].

Definition p1_repository (tr : list event) (c : call) : result jsval :=
  match c with
  | GetAllNamedGraphs _ => Ok (VBindings p1_graphs)
  | FileFind _ => Ok (VFiles ["http://localhost:5000/lbd/p1/files/f1"])
  | _ => all_ok tr c
  end.

Definition alice : user :=
  User "http://localhost:5000/alice" "alice@example.org" ["p0"].

(** Alice once she owns project p1. *)
Definition alice_p1 : user := with_project "p1" alice.

(** A creator whose e-mail field carries Turtle of its own. *)
Definition mallory : user :=
  User "http://localhost:5000/mallory"
       ("m@example.org" +:+ dquote +:+ ". <#extra> a acl:Authorization; acl:agent <http://localhost:5000/eve>; acl:mode acl:Read, acl:Write, acl:Control. <#e> vcard:email " +:+ dquote +:+ "e@example.org")
       [].

Definition tab : string := String (Ascii.ascii_of_nat 9) EmptyString.

(** The same, written without a single space: tabs and line breaks
    separate the words. *)
Definition trudy : user :=
  User "http://localhost:5000/trudy"
       ("t@example.org" +:+ dquote +:+ ".
<#extra>" +:+ tab +:+ "a" +:+ tab +:+ "acl:Authorization;
acl:agent" +:+ tab +:+ "<http://localhost:5000/eve>;
acl:mode" +:+ tab +:+ "acl:Read,acl:Write,acl:Control.
<#e>" +:+ tab +:+ "vcard:email" +:+ tab +:+ dquote +:+ "e@example.org")
       [].

Definition no_body : body := Body None None false None None None.
Definition no_files : files := Files None None None None.

(** POST /project with title Atrium, open. *)
Definition create_atrium : request :=
  Request "POST" "" None (Body (Some "Atrium") (Some "A hall") true None None None) None.

(** POST /project/p1/graphs with neither an ACL file nor an ACL reference. *)
Definition create_graph : request :=
  Request "POST" "p1" None (Body None None false None None (Some "plan")) (Some no_files).

(** DELETE /project/p1. *)
Definition delete_p1 : request := Request "DELETE" "p1" None no_body None.

(** GET and POST /project/p1?query=... *)
Definition get_query (q : string) : request :=
  Request "GET" "p1" (Some (JsString.of_string q)) no_body None.
Definition post_query (q : string) : request :=
  Request "POST" "p1" (Some (JsString.of_string q)) no_body None.

(** A read whose text uses a prefix named [elete]. *)
Definition prefixed_query : string :=
  "PREFIX elete: <http://example.org/elete#> SELECT ?s WHERE { ?s a ?c FILTER(?c=elete:Room) }".

Definition logged_in (u : user) : world := World [] (Some u) [].

(** The world in which the [catch] block of createProject starts after the
    meta-graph write failed: all three steps are done. *)
Definition all_steps_done : world :=
  World [] (Some alice_p1)
    [("createProjectRepository", Cmd (VBool true) [AStr "p1"]);
     ("createProjectDoc", Cmd (VBool true) [AStr "p1"]);
     ("saveProjectToUser", Cmd (VUser alice_p1) [AStr "p1"; APrincipal])].


Definition anonymous : world := World [] None [].

End Scenario.

(** ** The read handlers *)

(** What getOneProject returns: the snapshot, the caller's permissions and,
    when a query came with the request, its results. *)
Record one_project := OneProject {
  o_data : project_data;
  o_permissions : list string;
  o_queryResults : option jsval
}.

Inductive graph_payload :=
| GPermissions (permissions : list string)
| GQuery (query : JsString.t) (results : jsval)
| GGraph (graph : jsval) (permissions : list string)
| GError (reason : option string).

(** What getNamedGraph sends. *)
Record graph_response := GraphResponse {
  gr_status : Z;
  gr_sent : graph_payload
}.

(** [Array.from(req.permissions)]. *)
Definition array_from (permissions : option (list string)) : M (list string) :=
  match permissions with
  | Some l => mret l
  | None => throw (JsError "undefined is not iterable (cannot read property Symbol(Symbol.iterator))")
  end.

(** Truthiness of [req.query.query]: present and not the empty string. *)
Definition truthy_query (q : option JsString.t) : bool :=
  match q with
  | Some (_ :: _) => true
  | _ => false
  end.

(** [graph.length > 0] for what the store returned: a string or an array has
    a length, [undefined] has no properties, and on anything else [length]
    is [undefined], which is not greater than zero. *)
Definition has_length (v : jsval) : result bool :=
  match v with
  | VUndefined => Throw (type_error "length")
  | VString s => Ok (0 <? String.length s)%nat
  | VFiles l => Ok (0 <? length l)%nat
  | _ => Ok false
  end.

(** A computation that touches nothing. *)
Definition lift {A} (r : result A) : M A := λ w, (r, w).

Section Readers.

(** [process.env.DOMAIN_URL]. *)
Variable DOMAIN_URL : string.
(** What a store answers to a call, given everything that happened before. *)
Variable respond : list event → call → result jsval.
(** [adaptQuery(query, graphs)] of the authorisation module, which rewrites
    a query for the given named graphs; it is not part of the sources. *)
Variable adaptQuery : JsString.t → list string → result JsString.t.

(** [docStore.findAllProjectDocuments()], reduced to the [url] and the
    [_id] of each project document, and
    [queryPermissions(agent, acl, project)] of the authorisation module,
    reduced to the list of the modes it grants.  Neither is part of the
    sources; both only read, and their answers are taken not to change
    during one request. *)
Variable findAllProjectDocuments : result (list (string * string)).
Variable queryPermissions : option user → string → string → result (list string).

(** The loop of getAllProjects over [req.user.projects]. *)
Fixpoint collect_projects (names : list string) (projects : list project_data)
    : M (list project_data) :=
  match names with
  | [] => mret projects
  | project :: rest =>
      data ← findProjectData DOMAIN_URL respond project;
      collect_projects rest (projects ++ [data])
  end.

Definition getAllProjects (req : request) : M (list project_data) :=
  try_catch
    (u ← gets principal;
     names ← match u with
             | Some u => mret (projects u)
             | None => throw (type_error "projects")
             end;
     collect_projects names [])
    (λ error, throw (JsError ("Could not retrieve all projects; " +:+ message error))).

(** The loop of getPublicProjects: [url] and [id] are the [url] and the
    [_id] of a project document; the agent handed to [queryPermissions] is
    [undefined]. *)
Fixpoint collect_public (documents : list (string * string))
    (publicProjects : list project_data) : M (list project_data) :=
  match documents with
  | [] => mret publicProjects
  | (url, id) :: rest =>
      permissions ← lift (queryPermissions None (url +:+ "/.acl") id);
      if bool_decide ("http://www.w3.org/ns/auth/acl#Read" ∈ permissions)
      then projectData ← findProjectData DOMAIN_URL respond id;
           collect_public rest (publicProjects ++ [projectData])
      else collect_public rest publicProjects
  end.

Definition getPublicProjects : M (list project_data) :=
  try_catch
    (projects ← lift findAllProjectDocuments;
     collect_public projects [])
    (λ error, throw (JsError ("Could not get public projects; " +:+ message error))).

(** [permissions] is [req.permissions]. *)
Definition getOneProject (permissions : option (list string)) (req : request)
    : M one_project :=
  try_catch
    (let projectName := projectName req in
     projectData ← findProjectData DOMAIN_URL respond projectName;
     permissions ← array_from permissions;
     if truthy_query (query req)
     then results ← queryProject respond req;
          mret (OneProject projectData permissions (Some results))
     else mret (OneProject projectData permissions None))
    (λ error, throw (JsError ("Unable to get project; " +:+ message error))).

(** The [catch] block of getNamedGraph. *)
Definition getNamedGraph_catch (error : jserr) : M graph_response :=
  match error with
  | JsThrown reason status =>
      if negb (String.eqb reason "")
      then mret (GraphResponse status (GError (Some reason)))
      else mret (GraphResponse 500 (GError None))
  | JsError msg => mret (GraphResponse 500 (GError (Some msg)))
  end.

(** [graphId] is [req.params.graphId], [onlyPermissions] the truthiness of
    [req.query.onlyPermissions], [permissions] is [req.permissions].  The
    test [req.query.query] holds for a query that is present and not the
    empty string. *)
Definition getNamedGraph (graphId : string) (onlyPermissions : bool)
    (permissions : option (list string)) (req : request) : M graph_response :=
  try_catch
    (let projectName := projectName req in
     let namedGraph := DOMAIN_URL +:+ "/lbd/" +:+ projectName +:+ "/graphs/" +:+ graphId in
     if onlyPermissions then
       permissions ← array_from permissions;
       mret (GraphResponse 200 (GPermissions permissions))
     else
       match query req with
       | Some (c :: q) =>
           newQuery ← lift (adaptQuery (c :: q) [namedGraph]);
           results ← invoke respond (QueryRepository projectName newQuery);
           mret (GraphResponse 200 (GQuery newQuery results))
       | _ =>
           graph ← invoke respond (GetNamedGraph namedGraph projectName);
           nonempty ← lift (has_length graph);
           if negb nonempty then throw (JsThrown "Graph not found" 404)
           else
             permissions ← array_from permissions;
             mret (GraphResponse 200 (GGraph graph permissions))
       end)
    getNamedGraph_catch.

End Readers.

(** The project documents that getPublicProjects keeps: those for which
    the anonymous agent is granted [acl:Read] on [<url>/.acl]. *)
Definition publicly_readable
    (queryPermissions : option user → string → string → result (list string))
    (document : string * string) : bool :=
  match queryPermissions None (fst document +:+ "/.acl") (snd document) with
  | Ok permissions => bool_decide ("http://www.w3.org/ns/auth/acl#Read" ∈ permissions)
  | Throw _ => false
  end.

(** ** What a run does to the stores *)

(** The calls that only read a store. *)
Definition reads (c : call) : bool :=
  match c with
  | GetNamedGraph _ _ | GetAllNamedGraphs _ | FileFind _ => true
  | _ => false
  end.

(** The calls that remove something from a store. *)
Definition deletes (c : call) : bool :=
  match c with
  | DeleteRepository _ | DeleteNamedGraph _ _ | DeleteProjectDoc _ | DeleteDocument _ => true
  | _ => false
  end.

(** A computation that leaves [req.user] and the saga record as they are
    and calls the stores only with calls that satisfy [allowed]. *)
Definition calls_only {A} (allowed : call → Prop) (m : M A) : Prop :=
  ∀ w, ∃ evs,
    snd (m w) = World (trace w ++ evs) (principal w) (writeCommands w) ∧
    Forall (λ ev : event, allowed (fst ev)) evs.

(** A call that the handlers of one project may make while reading: a read
    of a store, or the query of the request once it has passed the read
    gate. *)
Definition read_or_gated_query (req : request) (c : call) : Prop :=
  reads c = true ∨
  ∃ q e, method req = "GET" ∧ query req = Some q ∧
         JsString.encodeURIComponent q = Some e ∧ read_gate q e = true ∧
         c = QueryRepository (projectName req) e.

(** The text that setGraph stores: the buffer of the uploaded file, or a
    blank graph. *)
Definition graph_text (context : string) (fs : files) : result string :=
  match f_graph fs with
  | None => Ok (blank_graph context)
  | Some [] => Throw (type_error "buffer")
  | Some (buffer :: _) => Ok buffer
  end.

(** The graphs that a run has written: project and context of every
    [createNamedGraph] that the graph store answered normally. *)
Definition graphs_written (evs : list event) : list (string * option string) :=
  flat_map (λ ev : event,
              match ev with
              | (CreateNamedGraph project g, Ok _) => [(project, g_context g)]
              | _ => []
              end) evs.

(** The graphs that a run has removed. *)
Definition graphs_removed (evs : list event) : list (string * option string) :=
  flat_map (λ ev : event,
              match ev with
              | (DeleteNamedGraph ctx project, Ok _) => [(project, Some ctx)]
              | _ => []
              end) evs.

(** The ACL graph that comes with a request as a file; setAcl stores it
    under [req.body.aclName]. *)
Definition uploaded_acl (req : request) : list (string * option string) :=
  match req_files req with
  | Some fs =>
      match f_acl fs with
      | Some _ => [(projectName req, b_aclName (req_body req))]
      | None => []
      end
  | None => []
  end.

(** ** The read gate, seen from the text of the query *)

(** Code units are 16-bit. *)
Definition code_units (q : JsString.t) : bool :=
  forallb (λ c, (0 <=? c) && (c <? 65536)) q.

(** An octet of a UTF-8 sequence. *)
Definition octet (b : Z) : Prop := 0 ≤ b < 256.

Definition tok_elete : JsString.t := JsString.of_string "elete".

(** Somewhere in the text a unit that encodeURIComponent escapes, and whose
    escape ends in the hexadecimal digit D, is directly followed by [elete]
    in either case: the encoded text then reads [...Delete].  The last
    hexadecimal digit of an escape is the low nibble of the unit (of the low
    surrogate, for a pair). *)
Fixpoint escape_completes_delete (q : JsString.t) : bool :=
  match q with
  | [] => false
  | c :: r =>
      negb (JsString.unreserved c) && (Z.land c 15 =? 13) &&
      JsString.startsWith (JsString.toLowerCase r) tok_elete
      || escape_completes_delete r
  end.

(** ** More of the concrete deployment *)

Module Incidents.
Import Scenario.

(** A shared ACL graph that a request can refer to. *)
Definition team_acl : string := "http://localhost:5000/lbd/p1/acl/team".

(** The graph store has no graph [team_acl]. *)
Definition reference_missing (tr : list event) (c : call) : result jsval :=
  match c with
  | GetNamedGraph ctx _ =>
      if String.eqb ctx team_acl then Throw (JsError "Graph not found") else all_ok tr c
  | _ => all_ok tr c
  end.

(** The graph store refuses to write meta-graphs. *)
Definition meta_write_fails (tr : list event) (c : call) : result jsval :=
  match c with
  | CreateNamedGraph _ g =>
      if endsWith (str (g_context g)) ".meta"
      then Throw (JsError "repository unavailable")
      else Ok (VBool true)
  | _ => all_ok tr c
  end.

(** The repository of project p0 is gone; that of p1 is there. *)
Definition p0_unavailable (tr : list event) (c : call) : result jsval :=
  match c with
  | GetNamedGraph _ project | GetAllNamedGraphs project =>
      if String.eqb project "p0" then Throw (JsError "Repository p0 not found")
      else p1_repository tr c
  | _ => p1_repository tr c
  end.

(** The document store hands back the URL of the file it deleted. *)
Definition file_deleted (tr : list event) (c : call) : result jsval :=
  match c with
  | DeleteDocument _ => Ok (VString "http://localhost:5000/lbd/p1/files/f1")
  | _ => all_ok tr c
  end.

(** POST /project/p1/graphs with a reference to the team's ACL graph. *)
Definition create_graph_with_reference : request :=
  Request "POST" "p1" None (Body None None false (Some team_acl) None (Some "plan"))
    (Some no_files).

(** POST /project/p1/files with a file and the same reference. *)
Definition upload_with_reference : request :=
  Request "POST" "p1" None (Body None None false (Some team_acl) None (Some "survey"))
    (Some (Files (Some ["%PDF-1.7"]) None None None)).

(** DELETE /project/p1/graphs/g1. *)
Definition delete_graph : request := Request "DELETE" "p1" None no_body None.

(** GET /project. *)
Definition list_projects : request := Request "GET" "" None no_body None.

(** An update that empties a graph. *)
Definition mutation : string := "DELETE WHERE { ?s ?p ?o }".

(** An [adaptQuery] that hands the query on as it is. *)
Definition same_query (q : JsString.t) (graphs : list string) : result JsString.t := Ok q.

Definition may_read : list string := ["http://www.w3.org/ns/auth/acl#Read"].

(** The document store knows the projects p0 and p1. *)
Definition project_documents : result (list (string * string)) :=
  Ok [("http://localhost:5000/lbd/p0", "p0"); ("http://localhost:5000/lbd/p1", "p1")].

(** Only the ACL graph of p1 lets everybody read. *)
Definition p1_is_open (agent : option user) (acl project : string) : result (list string) :=
  if String.eqb acl (project_acl domain "p1") then Ok may_read else Ok [].

End Incidents.

(** * Properties *)

(** ** Percent-encoding keeps every word of letters *)

Section Encoding.
Import JsString.

Lemma lower_letter_unreserved c :
  lower_letter (lower_unit c) = true → unreserved c = true.
Proof.
  unfold lower_unit, lower_letter, unreserved, is_alpha.
  destruct ((65 <=? c) && (c <=? 90)) eqn:E; intros H; [done|].
  rewrite H. by rewrite orb_true_r.
Qed.

Lemma low_surrogate_not_letter d :
  is_low_surrogate d = true → lower_letter (lower_unit d) = false.
Proof.
  unfold is_low_surrogate, lower_letter, lower_unit. intros H.
  apply andb_true_iff in H as [H1 H2]. apply Z.leb_le in H1, H2.
  destruct ((65 <=? d) && (d <=? 90)) eqn:E.
  - apply andb_true_iff in E as [E1 E2]. apply Z.leb_le in E1, E2. lia.
  - apply andb_false_iff. right. apply Z.leb_gt. lia.
Qed.

Lemma startsWith_includes s tok : startsWith s tok = true → includes s tok = true.
Proof. destruct s; simpl; intros ->; done. Qed.

Lemma includes_nil s : includes s [] = true.
Proof. by destruct s. Qed.

Lemma includes_app p s tok : includes s tok = true → includes (p ++ s) tok = true.
Proof.
  induction p as [|a p IH]; [done|]. intros H. simpl.
  rewrite (IH H). by rewrite orb_true_r.
Qed.

Lemma toLowerCase_app a b : toLowerCase (a ++ b) = toLowerCase a ++ toLowerCase b.
Proof. apply fmap_app. Qed.

(** A word of lower-case letters at the start of the lower-cased text is
    still there after encoding: letters are never escaped. *)
Lemma startsWith_encoded tok :
  forallb lower_letter tok = true →
  ∀ q e, startsWith (toLowerCase q) tok = true →
         encodeURIComponent q = Some e →
         startsWith (toLowerCase e) tok = true.
Proof.
  induction tok as [|x tok IH]; intros Htok q e Hs He; [done|].
  simpl in Htok. apply andb_true_iff in Htok as [Hx Htok].
  destruct q as [|c r]; [done|]. simpl in Hs.
  apply andb_true_iff in Hs as [Hc Hs]. apply Z.eqb_eq in Hc. subst x.
  pose proof (lower_letter_unreserved c Hx) as Hu.
  simpl in He. rewrite Hu in He.
  destruct (encodeURIComponent r) as [e'|] eqn:Hr; [|done].
  simpl in He. injection He as <-. simpl. rewrite Z.eqb_refl. simpl.
  by apply (IH Htok r).
Qed.

Lemma includes_encoded_upto tok :
  forallb lower_letter tok = true →
  ∀ n q e, (length q ≤ n)%nat →
           includes (toLowerCase q) tok = true →
           encodeURIComponent q = Some e →
           includes (toLowerCase e) tok = true.
Proof.
  intros Htok. induction n as [|n IH]; intros q e Hn Hi He.
  - destruct q; [|simpl in Hn; lia]. simpl in He. by injection He as <-.
  - destruct q as [|c r]; [simpl in He; by injection He as <-|].
    simpl in Hn. simpl in Hi. apply orb_true_iff in Hi as [Hs|Hi].
    { apply startsWith_includes.
      by eapply (startsWith_encoded tok Htok (c :: r)). }
    simpl in He. destruct (unreserved c).
    { destruct (encodeURIComponent r) as [e'|] eqn:Hr; [|done].
      injection He as <-. simpl.
      rewrite (IH r e'); [by rewrite orb_true_r|lia|done|done]. }
    destruct (is_low_surrogate c); [done|].
    destruct (is_high_surrogate c).
    + destruct r as [|d r']; [done|].
      destruct (is_low_surrogate d) eqn:Hd; [|done].
      destruct (encodeURIComponent r') as [e'|] eqn:Hr; [|done].
      injection He as <-. rewrite toLowerCase_app. apply includes_app.
      simpl in Hi. apply orb_true_iff in Hi as [Hs|Hi].
      * destruct tok as [|x tok]; [apply includes_nil|].
        simpl in Hs, Htok. apply andb_true_iff in Hs as [Hx _].
        apply Z.eqb_eq in Hx. subst x.
        by rewrite (low_surrogate_not_letter d Hd) in Htok.
      * apply (IH r'); [simpl in Hn; lia|done|done].
    + destruct (encodeURIComponent r) as [e'|] eqn:Hr; [|done].
      injection He as <-. rewrite toLowerCase_app. apply includes_app.
      apply (IH r); [lia|done|done].
Qed.

Lemma includes_encoded tok q e :
  forallb lower_letter tok = true →
  includes (toLowerCase q) tok = true →
  encodeURIComponent q = Some e →
  includes (toLowerCase e) tok = true.
Proof. intros. by eapply (includes_encoded_upto tok) with (n := length q) (q := q). Qed.

End Encoding.

(** ** The read gate *)

Ltac monad_unfold :=
  unfold save, push_project, remove_project in *;
  unfold mbind, M_bind, mret, M_ret, try_catch, throw, gets, modify, invoke in *;
  unfold record, set_writeCommands, set_principal in *.

Lemma record_neq ev w : record ev w ≠ w.
Proof.
  intros H. apply (f_equal (λ w, length (trace w))) in H. simpl in H.
  rewrite length_app in H. simpl in H. lia.
Qed.

Section ReadGate.
Variable respond : list event → call → result jsval.

(** What queryProject does with a GET request that carries a query. *)
Lemma queryProject_get req w q :
  method req = "GET" → query req = Some q →
  queryProject respond req w =
    match JsString.encodeURIComponent q with
    | None => (Throw (JsError "Could not complete query; URI malformed"), w)
    | Some e =>
        if read_gate q e then
          let r := respond (trace w) (QueryRepository (projectName req) e) in
          (match r with
           | Ok v => Ok v
           | Throw err => Throw (JsError ("Could not complete query; " +:+ message err))
           end, record (QueryRepository (projectName req) e, r) w)
        else
          (Throw (JsError "Could not complete query; This SPARQL query is not allowed in a GET request. Use POST for INSERT and DELETE queries"), w)
    end.
Proof.
  intros Hm Hq. unfold queryProject, try_catch. rewrite Hm, Hq. simpl.
  unfold mbind, M_bind, mret, M_ret, throw, invoke.
  destruct (JsString.encodeURIComponent q) as [e|]; [|done].
  destruct (read_gate q e); [|done].
  by destruct (respond _ _).
Qed.

(** C3 (as the code has it): a GET request is dispatched as a read exactly
    when its lower-cased text contains [select] and the lower-cased
    percent-ENCODED text contains neither [insert] nor [delete].  Every
    request so accepted has [select] and no [insert] or [delete] in its
    lower-cased text; every request whose text has [insert] or [delete] is
    rejected with an error and never dispatched; and whatever is not
    accepted is rejected that way. *)
Theorem read_gate_accepts_only_reads req w q :
  method req = "GET" → query req = Some q →
  (accepted_as_read respond req w ↔
     ∃ e, JsString.encodeURIComponent q = Some e ∧ read_gate q e = true) ∧
  (accepted_as_read respond req w → read_only_text q) ∧
  (JsString.includes (JsString.toLowerCase q) tok_insert = true ∨
   JsString.includes (JsString.toLowerCase q) tok_delete = true →
     rejected respond req w) ∧
  (¬ accepted_as_read respond req w → rejected respond req w).
Proof.
  intros Hm Hq. unfold accepted_as_read, rejected, read_only_text.
  rewrite (queryProject_get req w q Hm Hq).
  assert (¬ ∃ e r, w = record (QueryRepository (projectName req) e, r) w) as Hno.
  { intros (e' & r & H). by apply symmetry, record_neq in H. }
  destruct (JsString.encodeURIComponent q) as [e|] eqn:He.
  - destruct (read_gate q e) eqn:Hg; simpl.
    + pose proof Hg as Hgate. unfold read_gate in Hg.
      apply andb_true_iff in Hg as [Hg Hd]. apply andb_true_iff in Hg as [Hs Hi].
      apply negb_true_iff in Hd, Hi.
      assert (JsString.includes (JsString.toLowerCase q) tok_insert = false) as Hqi.
      { destruct (JsString.includes (JsString.toLowerCase q) tok_insert) eqn:E; [|done].
        rewrite (includes_encoded tok_insert q e) in Hi; done. }
      assert (JsString.includes (JsString.toLowerCase q) tok_delete = false) as Hqd.
      { destruct (JsString.includes (JsString.toLowerCase q) tok_delete) eqn:E; [|done].
        rewrite (includes_encoded tok_delete q e) in Hd; done. }
      split; [|split; [|split]].
      * split; [intros _; by exists e|]. intros _. eexists _, _. reflexivity.
      * done.
      * intros [H|H]; congruence.
      * intros H; destruct H. eexists _, _. reflexivity.
    + split; [|split; [|split]].
      * split; [intros H; by apply Hno in H|]. intros (e' & [= <-] & H). congruence.
      * intros H; by apply Hno in H.
      * eauto.
      * eauto.
  - simpl. split; [|split; [|split]].
    + split; [intros H; by apply Hno in H|]. intros (e' & [=] & _).
    + intros H; by apply Hno in H.
    + eauto.
    + eauto.
Qed.

(** C10: a project query whose method is not GET dispatches nothing and
    returns [undefined]. *)
Theorem queryProject_ignores_other_methods req w :
  method req ≠ "GET" → queryProject respond req w = (Ok VUndefined, w).
Proof.
  intros H. unfold queryProject. apply String.eqb_neq in H.
  monad_unfold. by rewrite H.
Qed.

End ReadGate.

(** ** Strings *)

Lemma append_assoc (a b c : string) : (a +:+ b) +:+ c = a +:+ (b +:+ c).
Proof.
  induction a as [|x a IH]; [done|].
  change (String x ((a +:+ b) +:+ c) = String x (a +:+ (b +:+ c))). by rewrite IH.
Qed.


(** ** The default ACL graph *)

Section DefaultAcl.
Import Turtle.













End DefaultAcl.

(** ** Sagas *)



Section Sagas.
Variable DOMAIN_URL : string.
Variable namedGraphMeta : string → option string → option string → option string → string.
Variable respond : list event → call → result jsval.


(** C2 (as the code has it): when the repository was created and the
    record write then throws, createProject throws, the undo phase calls
    [deleteRepository] for the new repository and nothing else, and no
    [save()] has happened, so the owner's stored project list is what it
    was; the principal object in memory keeps the id that was pushed onto
    its list before step 1.  The undo phase is modelled from the spec. *)
Theorem record_write_failure (id : string) (req : request) (w : world)
    (u : user) (v : jsval) (e : jserr) :
  let title := b_title (req_body req) in
  let repoUrl := DOMAIN_URL +:+ "/lbd/" +:+ id in
  let step1 : event := (CreateRepository title id, Ok v) in
  let step2 : event := (CreateProjectDoc repoUrl id, Throw e) in
  let undo1 : event :=
    (DeleteRepository id, respond (trace w ++ [step1; step2]) (DeleteRepository id)) in
  principal w = Some u →
  respond (trace w) (CreateRepository title id) = Ok v →
  truthy v = true →
  respond (trace w ++ [step1]) (CreateProjectDoc repoUrl id) = Throw e →
  ∃ w',
    createProject DOMAIN_URL namedGraphMeta respond id req w =
      (Throw (JsError ("Failed to create Project; " +:+ message e +:+
                       ". Undoing past operations: " +:+
                       undo_report (failures create_step [undo1]))), w') ∧
    trace w' = trace w ++ [step1; step2; undo1] ∧
    (∀ before, stored_user before (trace w') = stored_user before (trace w)) ∧
    principal w' = Some (with_project id u).
Proof.
  intros title repoUrl step1 step2 undo1 Hu H1 Hv H2.
  subst title repoUrl step1 step2 undo1.
  destruct w as [tr p wc]. simpl in *. subst p.
  unfold createProject. monad_unfold. cbn.
  rewrite H1. cbn. rewrite H2. cbn.
  unfold createProject_catch, undoDatabaseActions. monad_unfold. cbn.
  rewrite Hv. unfold compensate. monad_unfold. cbn.
  rewrite <- !app_assoc. cbn.
  destruct (respond _ (DeleteRepository id)) as [v'|e'] eqn:H3; cbn;
    (eexists; split; [reflexivity|]; cbn; rewrite <- ?app_assoc; cbn;
     split; [reflexivity|]; split; [|reflexivity]);
    intros before; unfold stored_user; by rewrite fold_left_app.
Qed.

(** The [catch] block of createProject always throws. *)
Lemma createProject_catch_throws {A} error w :
  ∃ undoError w',
    createProject_catch (A := A) respond error w =
      (Throw (JsError ("Failed to create Project; " +:+ message error +:+
                       ". Undoing past operations: " +:+ undoError)), w').
Proof.
  unfold createProject_catch. monad_unfold. cbn.
  destruct (undoDatabaseActions respond (writeCommands w) w) as [[[]|err] w1];
    eexists _, _; reflexivity.
Qed.

(** A success payload means that no store call of createProject threw:
    the trace consists of the five calls, each answered normally. *)
Lemma createProject_success id req w payload w' :
  createProject DOMAIN_URL namedGraphMeta respond id req w = (Ok payload, w') →
  ∃ u v1 v2 v3 v4 v5 meta acl,
    principal w = Some u ∧
    trace w' = trace w ++
      [ (CreateRepository (b_title (req_body req)) id, Ok v1);
        (CreateProjectDoc (DOMAIN_URL +:+ "/lbd/" +:+ id) id, Ok v2);
        (SaveUser (with_project id u), Ok v3);
        (CreateNamedGraph id meta, Ok v4);
        (CreateNamedGraph id acl, Ok v5) ] ∧
    g_context acl = Some (project_acl DOMAIN_URL id).
Proof.
  unfold createProject. destruct w as [tr [u|] wc]; [|done].
  intros H. exists u. unfold createDefaultAclGraph in H. monad_unfold.
  cbn -[createProject_catch] in H.
  repeat match type of H with
    | context [respond ?t ?c] =>
        let E := fresh "E" in
        destruct (respond t c) as [?|?] eqn:E; cbn -[createProject_catch] in H
    | context [createProject_catch respond ?e ?w0] =>
        let Hc := fresh "Hc" in
        destruct (createProject_catch_throws (A := project_payload) e w0) as (? & ? & Hc);
        rewrite Hc in H; discriminate
    end.
  injection H as <- <-. cbn. rewrite <- !app_assoc. cbn.
  eexists _, _, _, _, _, _, _. split; [done|]. split; [reflexivity|done].
Qed.

End Sagas.

(** ** Requests without a principal *)

Section Blind.
Variable respond : list event → call → result jsval.

Lemma blind_ret {A} (a : A) : principal_blind (mret a).
Proof. done. Qed.

Lemma blind_throw {A} e : principal_blind (@throw A e).
Proof. done. Qed.

Lemma blind_invoke c : principal_blind (invoke respond c).
Proof. done. Qed.

Lemma blind_first_buffer bufs : principal_blind (first_buffer bufs).
Proof. by destruct bufs. Qed.

Lemma blind_bind {A B} (m : M A) (f : A → M B) :
  principal_blind m → (∀ a, principal_blind (f a)) → principal_blind (m ≫= f).
Proof.
  intros Hm Hf w p. unfold mbind, M_bind. rewrite Hm.
  destruct (m w) as [[a|e] w']; simpl; [apply Hf|done].
Qed.

Lemma blind_try_catch {A} (m : M A) (h : jserr → M A) :
  principal_blind m → (∀ e, principal_blind (h e)) → principal_blind (try_catch m h).
Proof.
  intros Hm Hh w p. unfold try_catch. rewrite Hm.
  destruct (m w) as [[a|e] w']; simpl; [done|apply Hh].
Qed.
End Blind.

Ltac blind :=
  repeat first
    [ apply blind_ret | apply blind_throw | apply blind_invoke | apply blind_first_buffer
    | apply blind_bind; [|intros ?] | apply blind_try_catch; [|intros ?]
    | match goal with
      | |- principal_blind (match ?x with _ => _ end) => destruct x
      | |- principal_blind (if ?x then _ else _) => destruct x
      end ].

Section Principal.
Variable DOMAIN_URL : string.
Variable namedGraphMeta : string → option string → option string → option string → string.
Variable errorHandler : jserr → string * Z.
Variable respond : list event → call → result jsval.

Lemma createNamedGraph_blind graphId req :
  principal_blind
    (createNamedGraph DOMAIN_URL namedGraphMeta errorHandler respond graphId req).
Proof.
  unfold createNamedGraph, respond_error, setAcl, setGraph, setMetaGraph. blind.
Qed.

Lemma deleteNamedGraph_blind graphId req :
  principal_blind (deleteNamedGraph DOMAIN_URL errorHandler respond graphId req).
Proof. unfold deleteNamedGraph, respond_error. blind. Qed.

Lemma deleteDocumentFromProject_blind fileId req :
  principal_blind (deleteDocumentFromProject errorHandler respond fileId req).
Proof. unfold deleteDocumentFromProject, respond_error. blind. Qed.

(** C7 (as the code has it): without a principal, createProject throws its
    authentication error before any store is touched; deleteProject and
    uploadDocumentToProject also fail before any store call, with the
    TypeError of dereferencing the missing principal; createNamedGraph,
    deleteNamedGraph and deleteDocumentFromProject never look at the
    principal and do, with or without one, the same store calls with the
    same outcome. *)
Theorem operations_without_principal (w : world) :
  principal w = None →
  (∀ id req,
     createProject DOMAIN_URL namedGraphMeta respond id req w =
       (Throw (JsError "You must be authenticated to create a new LBDserver Project"), w)) ∧
  (∀ req, ∃ w',
     deleteProject DOMAIN_URL respond req w =
       (Throw (JsError ("Failed to create Project with id " +:+ projectName req +:+ "; " +:+
                        message (type_error "projects") +:+
                        ". Undoing past operations: SUCCESS")), w') ∧
     trace w' = trace w) ∧
  (∀ req,
     uploadDocumentToProject namedGraphMeta errorHandler respond req w =
       (Ok (Response (snd (errorHandler (type_error "uri")))
                     (PError (fst (errorHandler (type_error "uri"))))), w)) ∧
  (∀ graphId req u,
     let anonymous :=
       createNamedGraph DOMAIN_URL namedGraphMeta errorHandler respond graphId req w in
     let known :=
       createNamedGraph DOMAIN_URL namedGraphMeta errorHandler respond graphId req
         (with_principal (Some u) w) in
     fst anonymous = fst known ∧ trace (snd anonymous) = trace (snd known)) ∧
  (∀ graphId req u,
     let anonymous := deleteNamedGraph DOMAIN_URL errorHandler respond graphId req w in
     let known :=
       deleteNamedGraph DOMAIN_URL errorHandler respond graphId req
         (with_principal (Some u) w) in
     fst anonymous = fst known ∧ trace (snd anonymous) = trace (snd known)) ∧
  (∀ fileId req u,
     let anonymous := deleteDocumentFromProject errorHandler respond fileId req w in
     let known :=
       deleteDocumentFromProject errorHandler respond fileId req
         (with_principal (Some u) w) in
     fst anonymous = fst known ∧ trace (snd anonymous) = trace (snd known)).
Proof.
  intros Hp. destruct w as [tr p wc]. simpl in Hp. subst p.
  split; [|split; [|split; [|split; [|split]]]].
  - intros id req. reflexivity.
  - intros req. unfold deleteProject, deleteProject_catch, undoDatabaseActions.
    monad_unfold. cbn. eexists. split; reflexivity.
  - intros req. unfold uploadDocumentToProject, respond_error. monad_unfold. cbn.
    by destruct (errorHandler _).
  - intros gid req u anonymous known. subst anonymous known.
    by rewrite (createNamedGraph_blind gid req _ (Some u)).
  - intros gid req u anonymous known. subst anonymous known.
    by rewrite (deleteNamedGraph_blind gid req _ (Some u)).
  - intros fid req u anonymous known. subst anonymous known.
    by rewrite (deleteDocumentFromProject_blind fid req _ (Some u)).
Qed.

End Principal.

(** ** The project snapshot *)

Lemma obj_set_is_Some key v (m : gmap string jsval) k :
  is_Some (obj_set key v m !! k) ↔ is_Some (m !! k) ∨ (k = key ∧ key ≠ "__proto__").
Proof.
  unfold obj_set. destruct (String.eqb key "__proto__") eqn:E.
  - apply String.eqb_eq in E. split; [by left|]. by intros [?|[_ ?]].
  - apply String.eqb_neq in E. rewrite lookup_insert_is_Some. split.
    + intros [->|[_ ?]]; [by right|by left].
    + intros [?|[-> _]]; [|by left].
      destruct (decide (key = k)); [by left|by right].
Qed.

Lemma obj_set_Some key v (m : gmap string jsval) k x :
  obj_set key v m !! k = Some x → m !! k = Some x ∨ (k = key ∧ x = v).
Proof.
  unfold obj_set. destruct (String.eqb key "__proto__"); [by left|].
  rewrite lookup_insert_Some. intros [[-> ->]|[_ ?]]; [by right|by left].
Qed.

Lemma listed_iff k :
  listed k = true ↔
  negb (endsWith k "acl") && negb (endsWith k "meta") = true ∧ k ≠ "__proto__".
Proof.
  unfold listed. by rewrite andb_true_iff, negb_true_iff, String.eqb_neq.
Qed.

Section Snapshot.
Variable DOMAIN_URL : string.
Variable respond : list event → call → result jsval.

Lemma collect_graphs_spec project contexts : ∀ graphs w graphs' w',
  collect_graphs respond project contexts graphs w = (Ok graphs', w') →
  (∃ evs, trace w' = trace w ++ evs) ∧
  (∀ k, is_Some (graphs' !! k) ↔
          is_Some (graphs !! k) ∨ (k ∈ contexts ∧ listed k = true)) ∧
  (∀ k v, graphs' !! k = Some v →
          graphs !! k = Some v ∨ (GetNamedGraph (k +:+ ".meta") project, Ok v) ∈ trace w').
Proof.
  induction contexts as [|ctx rest IH]; intros graphs w graphs' w' H.
  - injection H as <- <-. split; [exists []; by rewrite app_nil_r|].
    split; [|by left]. intros k. rewrite elem_of_nil. tauto.
  - cbn [collect_graphs] in H.
    destruct (negb (endsWith ctx "acl") && negb (endsWith ctx "meta")) eqn:Hf.
    + monad_unfold.
      destruct (respond (trace w) (GetNamedGraph (ctx +:+ ".meta") project)) as [g|e] eqn:Hr;
        [|done].
      apply IH in H as ([evs Ht] & Hdom & Hval). simpl in Ht.
      split; [exists ((GetNamedGraph (ctx +:+ ".meta") project, Ok g) :: evs);
              by rewrite Ht, <- app_assoc|].
      split.
      * intros k. rewrite Hdom, obj_set_is_Some, elem_of_cons, listed_iff.
        intuition (subst; auto).
      * intros k v Hk. apply Hval in Hk as [Hk|Hk]; [|by right].
        apply obj_set_Some in Hk as [Hk|[? ?]]; [by left|subst].
        right. rewrite Ht. apply elem_of_app. left. apply elem_of_app. right. by left.
    + apply IH in H as (Ht & Hdom & Hval). split; [done|]. split; [|done].
      intros k. rewrite Hdom, elem_of_cons, listed_iff.
      assert (negb (endsWith ctx "acl") && negb (endsWith ctx "meta") ≠ true)
        by (by rewrite Hf).
      intuition (subst; auto; exfalso; auto).
Qed.

Lemma collect_documents_spec project urls : ∀ documents w documents' w',
  collect_documents respond project urls documents w = (Ok documents', w') →
  (∃ evs, trace w' = trace w ++ evs) ∧
  (∀ k, is_Some (documents' !! k) ↔
          is_Some (documents !! k) ∨ (k ∈ urls ∧ k ≠ "__proto__")) ∧
  (∀ k v, documents' !! k = Some v →
          documents !! k = Some v ∨ (GetNamedGraph (k +:+ ".meta") project, Ok v) ∈ trace w').
Proof.
  induction urls as [|url rest IH]; intros documents w documents' w' H.
  - injection H as <- <-. split; [exists []; by rewrite app_nil_r|].
    split; [|by left]. intros k. rewrite elem_of_nil. tauto.
  - cbn [collect_documents] in H. monad_unfold.
    destruct (respond (trace w) (GetNamedGraph (url +:+ ".meta") project)) as [g|e] eqn:Hr;
      [|done].
    apply IH in H as ([evs Ht] & Hdom & Hval). simpl in Ht.
    split; [exists ((GetNamedGraph (url +:+ ".meta") project, Ok g) :: evs);
            by rewrite Ht, <- app_assoc|].
    split.
    * intros k. rewrite Hdom, obj_set_is_Some, elem_of_cons. intuition (subst; auto).
    * intros k v Hk. apply Hval in Hk as [Hk|Hk]; [|by right].
      apply obj_set_Some in Hk as [Hk|[? ?]]; [by left|subst].
      right. rewrite Ht. apply elem_of_app. left. apply elem_of_app. right. by left.
Qed.

(** C9 (as the code has it): the graphs component of a snapshot has an
    entry for exactly those enumerated graphs whose context ends neither in
    [acl] nor in [meta] (for a context that a plain object can hold as a
    key), each entry holding that graph's meta-graph; the project's own
    meta-graph is the metadata component, and the documents component has
    one entry per file of the document store, holding the file's
    meta-graph. *)
Theorem snapshot_graphs (project : string) (w : world) (d : project_data) (w' : world) :
  findProjectData DOMAIN_URL respond project w = (Ok d, w') →
  let meta : event :=
    (GetNamedGraph (DOMAIN_URL +:+ "/lbd/" +:+ project +:+ ".meta") project,
     Ok (d_metadata d)) in
  ∃ contexts urls,
    respond (trace w) (fst meta) = snd meta ∧
    respond (trace w ++ [meta]) (GetAllNamedGraphs project) = Ok (VBindings contexts) ∧
    respond (trace w ++ [meta; (GetAllNamedGraphs project, Ok (VBindings contexts))])
      (FileFind (DOMAIN_URL +:+ "/lbd/" +:+ project)) = Ok (VFiles urls) ∧
    (∀ ctx, is_Some (d_graphs d !! ctx) ↔ ctx ∈ contexts ∧ listed ctx = true) ∧
    (∀ ctx v, d_graphs d !! ctx = Some v →
              (GetNamedGraph (ctx +:+ ".meta") project, Ok v) ∈ trace w') ∧
    (∀ url, is_Some (d_documents d !! url) ↔ url ∈ urls ∧ url ≠ "__proto__") ∧
    (∀ url v, d_documents d !! url = Some v →
              (GetNamedGraph (url +:+ ".meta") project, Ok v) ∈ trace w').
Proof.
  intros H meta. subst meta. unfold findProjectData in H. monad_unfold. cbn in H.
  destruct (respond (trace w) (GetNamedGraph _ project)) as [g|?] eqn:H0; [|done].
  destruct (respond _ (GetAllNamedGraphs project)) as [named|?] eqn:H1; [|done].
  destruct (respond _ (FileFind _)) as [fs|?] eqn:H2; [|done].
  destruct fs as [| | | |urls| |]; try done.
  destruct (collect_documents _ _ _ _ _) as [[docs|?] w1] eqn:Hd; [|done].
  destruct named as [| | |contexts| | |]; try done.
  destruct (collect_graphs _ _ _ _ _) as [[graphs|?] w2] eqn:Hg; [|done].
  injection H as <- <-. simpl.
  apply collect_documents_spec in Hd as ([evs1 Ht1] & Hd1 & Hd2).
  apply collect_graphs_spec in Hg as ([evs2 Ht2] & Hg1 & Hg2).
  exists contexts, urls. rewrite <- !app_assoc in H2. simpl in H2.
  split; [done|]. split; [done|]. split; [done|].
  split; [|split; [|split]].
  - intros ctx. rewrite Hg1, lookup_empty. split; [intros [[? ?]|?]; done|by right].
  - intros ctx v Hv. apply Hg2 in Hv as [Hv|Hv]; [by rewrite lookup_empty in Hv|done].
  - intros url. rewrite Hd1, lookup_empty. split; [intros [[? ?]|?]; done|by right].
  - intros url v Hv. apply Hd2 in Hv as [Hv|Hv]; [by rewrite lookup_empty in Hv|].
    rewrite Ht2. apply elem_of_app. by left.
Qed.

End Snapshot.

(** ** The default ACL reference of a new resource *)

(** With neither an ACL file nor an ACL reference in the request, setAcl
    answers with a URL under [https://lbdserver.org], whatever the
    configured domain, and calls no store. *)
Lemma setAcl_default respond req fs w :
  req_files req = Some fs →
  truthy_str (b_acl (req_body req)) = false →
  f_acl fs = None →
  setAcl respond req w =
    (Ok (Some ("https://lbdserver.org/lbd/" +:+ projectName req +:+ "/.acl")), w).
Proof.
  intros Hf Hacl Hfile. unfold setAcl. monad_unfold. rewrite Hf. cbn.
  by rewrite Hacl, Hfile.
Qed.

(** * The claims on a concrete deployment *)

Import Scenario.

(** C1: on a server configured for [http://localhost:5000], project p1 gets
    its ACL graph at [http://localhost:5000/lbd/p1/.acl], and a graph
    created in p1 without any ACL choice is given the reference
    [https://lbdserver.org/lbd/p1/.acl], which is another URL. *)
Lemma default_acl_ignores_the_configured_domain :
  let created := createProject domain meta all_ok "p1" create_atrium (logged_in alice) in
  let chosen := setAcl all_ok create_graph (logged_in alice) in
  (∃ g r, last (trace (snd created)) = Some (CreateNamedGraph "p1" g, r) ∧
          g_context g = Some (project_acl domain "p1")) ∧
  fst chosen = Ok (Some "https://lbdserver.org/lbd/p1/.acl") ∧
  "https://lbdserver.org/lbd/p1/.acl" ≠ project_acl domain "p1".
Proof.
  split; [|split; [reflexivity|discriminate]].
  eexists _, _. split; [vm_compute; reflexivity|reflexivity].
Qed.

(** C2, on an example: the record write fails with a duplicate key. *)
Lemma record_write_failure_witness :
  ∃ w',
    createProject domain meta doc_write_fails "p1" create_atrium (logged_in alice) =
      (Throw (JsError "Failed to create Project; E11000 duplicate key. Undoing past operations: SUCCESS"),
       w') ∧
    trace w' =
      [ (CreateRepository (Some "Atrium") "p1", Ok (VBool true));
        (CreateProjectDoc "http://localhost:5000/lbd/p1" "p1",
         Throw (JsError "E11000 duplicate key"));
        (DeleteRepository "p1", Ok (VBool true)) ] ∧
    (∀ before, stored_user before (trace w') = stored_user before []) ∧
    principal w' = Some (with_project "p1" alice).
Proof.
  exact (record_write_failure domain meta doc_write_fails "p1" create_atrium
           (logged_in alice) alice (VBool true) (JsError "E11000 duplicate key")
           eq_refl eq_refl eq_refl eq_refl).
Defined.

(** C2 as stated fails: after the failed call the principal's project list
    has the new id. *)
Lemma principal_keeps_the_project :
  ¬ record_write_failure_claim domain meta doc_write_fails "p1" create_atrium
      (logged_in alice).
Proof. intros (_ & _ & H). vm_compute in H. discriminate. Qed.

(** C3, on an example. *)
Lemma read_gate_accepts_only_reads_witness :
  let req := get_query "SELECT * WHERE { ?s ?p ?o }" in
  accepted_as_read all_ok req anonymous ∧
  read_only_text (JsString.of_string "SELECT * WHERE { ?s ?p ?o }").
Proof.
  intros req.
  destruct (read_gate_accepts_only_reads all_ok req anonymous
              (JsString.of_string "SELECT * WHERE { ?s ?p ?o }") eq_refl eq_refl)
    as (Hacc & Hread & _ & _).
  assert (accepted_as_read all_ok req anonymous) as H.
  { apply Hacc. eexists. split; vm_compute; reflexivity. }
  split; [exact H | exact (Hread H)].
Defined.

(** C3 as stated fails: a read that uses the prefix [elete:] right after an
    [=] has no mutation word in it and is rejected, because [=] is encoded
    as [%3D]. *)
Lemma read_gate_rejects_a_read :
  ¬ (accepted_as_read all_ok (get_query prefixed_query) anonymous ↔
     read_only_text (JsString.of_string prefixed_query)).
Proof.
  intros [_ H].
  assert (read_only_text (JsString.of_string prefixed_query)) as Hr
    by (repeat split; vm_compute; reflexivity).
  destruct (H Hr) as (e & r & Hacc). vm_compute in Hacc. discriminate.
Qed.


(** The error of that first example, in full: the original failure, then
    the three compensation failures, last step first. *)
Example every_compensation_fails :
  fst (createProject_catch (A := project_payload) all_but_undo
         (JsError "repository unavailable") all_steps_done) =
    Throw (JsError "Failed to create Project; repository unavailable. Undoing past operations: saveProjectToUser: cannot save user; createProjectDoc: cannot delete record; createProjectRepository: cannot drop repository").
Proof. vm_compute. reflexivity. Qed.

(** C5: the graph store answers [false] to createRepository and throws
    nothing.  createProject goes on, writes the record and the user, and
    returns its success payload; the saga record still says that the
    repository step is not done, and nothing is compensated. *)
Lemma createProject_reports_success_without_repository :
  let '(r, w') :=
    createProject domain meta repository_not_created "p1" create_atrium (logged_in alice) in
  r = Ok (ProjectPayload
            (meta "http://localhost:5000/lbd/p1" (Some "http://localhost:5000/lbd/p1/.acl")
               (Some "Atrium") (Some "A hall"))
            "p1" "Project successfully created") ∧
  trace w' !! 0%nat = Some (CreateRepository (Some "Atrium") "p1", Ok (VBool false)) ∧
  writeCommands w' !! 0%nat =
    Some ("createProjectRepository", Cmd (VBool false) [AStr "p1"]) ∧
  (∀ ev, ev ∈ trace w' → fst ev ≠ DeleteRepository "p1") ∧
  stored_user (Some alice) (trace w') = Some alice_p1.
Proof.
  vm_compute. split; [reflexivity|]. split; [reflexivity|]. split; [reflexivity|].
  split; [|reflexivity].
  intros ev H. repeat (apply elem_of_cons in H as [->|H]; [discriminate|]).
  by apply elem_of_nil in H.
Qed.

(** C6: alice deletes p1, her record is saved without p1, and the deletion
    of the project record then fails.  deleteProject has overwritten the
    saga entry of the user step with what [save()] returned, so no step is
    marked done, nothing is compensated, and the stored project list stays
    without p1 although the project record and the repository still
    exist. *)
Lemma deleteProject_records_no_done_step :
  let '(r, w') := deleteProject domain doc_delete_fails delete_p1 (logged_in alice_p1) in
  r = Throw (JsError "Failed to create Project with id p1; connection lost. Undoing past operations: SUCCESS") ∧
  trace w' =
    [ (SaveUser alice, Ok (VUser alice));
      (DeleteProjectDoc "p1", Throw (JsError "connection lost")) ] ∧
  writeCommands w' =
    [ ("deleteProjectDoc",
       Cmd (VBool false) [AStr "http://localhost:5000/lbd/p1"; AStr "p1"]);
      ("deleteProjectFromUser", Replaced (VUser alice)) ] ∧
  stored_user (Some alice_p1) (trace w') = Some alice.
Proof. vm_compute. repeat split; reflexivity. Qed.

(** C7, on an example: an anonymous request. *)
Lemma operations_without_principal_witness :
  createProject domain meta all_ok "p1" create_atrium anonymous =
    (Throw (JsError "You must be authenticated to create a new LBDserver Project"), anonymous).
Proof.
  exact (proj1 (operations_without_principal domain meta handler all_ok anonymous eq_refl)
           "p1" create_atrium).
Defined.

(** C7 as stated fails: an anonymous createNamedGraph is served; it answers
    201 after three calls to the graph store. *)
Lemma createNamedGraph_serves_anonymous :
  ¬ refused_before_stores (createNamedGraph domain meta handler all_ok "g1" create_graph)
      anonymous.
Proof. intros (reason & status & w' & H & _). vm_compute in H. discriminate. Qed.



(** The graph of that text, in full: after the owner's authorization and
    contact comes an authorization that grants all three modes to eve. *)
Example injected_graph :
  Turtle.graph (defaultAclData "p1" mallory false) =
    Some (default_acl_graph (uri mallory) "m@example.org" false ++
          [ (Turtle.Iri "#extra", Turtle.rdf_type, acl "Authorization");
            (Turtle.Iri "#extra", acl "agent", Turtle.Iri "http://localhost:5000/eve");
            (Turtle.Iri "#extra", acl "mode", acl "Read");
            (Turtle.Iri "#extra", acl "mode", acl "Write");
            (Turtle.Iri "#extra", acl "mode", acl "Control");
            (Turtle.Iri "#e", Turtle.Iri "http://www.w3.org/2006/vcard/ns#email",
             Turtle.Literal "e@example.org") ]).
Proof. vm_compute. reflexivity. Qed.

(** Spaces are not what matters: the same injection written with tabs and
    line breaks only. *)
Example injected_authorization_without_spaces :
  forall_chars (λ c, negb (Turtle.one_of [32]%nat c)) (email trudy) = true ∧
  authorizations <$> Turtle.graph (defaultAclData "p1" trudy false) =
    Some [ owner_authorization (uri trudy);
           Authorization (Turtle.Iri "#extra") [Turtle.Iri "http://localhost:5000/eve"] []
             [acl "Read"; acl "Write"; acl "Control"] ] ∧
  ¬ acl_claim "p1" trudy false.
Proof.
  split; [vm_compute; reflexivity|]. split; [vm_compute; reflexivity|].
  intros (g & Hg & Hauth & _). vm_compute in Hg. injection Hg as <-.
  vm_compute in Hauth. discriminate.
Qed.

(** C9, on an example: the repository of p1. *)
Lemma snapshot_graphs_witness :
  ∃ d w',
    findProjectData domain p1_repository "p1" anonymous = (Ok d, w') ∧
    ∃ contexts urls,
      p1_repository [] (GetNamedGraph "http://localhost:5000/lbd/p1.meta" "p1") =
        Ok (d_metadata d) ∧
      p1_repository
        [(GetNamedGraph "http://localhost:5000/lbd/p1.meta" "p1", Ok (d_metadata d))]
        (GetAllNamedGraphs "p1") = Ok (VBindings contexts) ∧
      p1_repository
        [(GetNamedGraph "http://localhost:5000/lbd/p1.meta" "p1", Ok (d_metadata d));
         (GetAllNamedGraphs "p1", Ok (VBindings contexts))]
        (FileFind "http://localhost:5000/lbd/p1") = Ok (VFiles urls) ∧
      (∀ ctx, is_Some (d_graphs d !! ctx) ↔ ctx ∈ contexts ∧ listed ctx = true) ∧
      (∀ ctx v, d_graphs d !! ctx = Some v →
                (GetNamedGraph (ctx +:+ ".meta") "p1", Ok v) ∈ trace w') ∧
      (∀ url, is_Some (d_documents d !! url) ↔ url ∈ urls ∧ url ≠ "__proto__") ∧
      (∀ url v, d_documents d !! url = Some v →
                (GetNamedGraph (url +:+ ".meta") "p1", Ok v) ∈ trace w').
Proof.
  destruct (findProjectData domain p1_repository "p1" anonymous) as [[d|e] w'] eqn:E.
  - exists d, w'. split; [reflexivity|].
    exact (snapshot_graphs domain p1_repository "p1" anonymous d w' E).
  - vm_compute in E. discriminate.
Defined.

(** The snapshot of p1 succeeds, lists no graph named [sitemeta], and has
    asked the repository for its graphs. *)
Lemma snapshot_of_p1 :
  ∃ d w',
    findProjectData domain p1_repository "p1" anonymous = (Ok d, w') ∧
    d_graphs d !! "http://localhost:5000/lbd/p1/graphs/sitemeta" = None ∧
    (GetAllNamedGraphs "p1", Ok (VBindings p1_graphs)) ∈ trace w'.
Proof.
  destruct (findProjectData domain p1_repository "p1" anonymous) as [[d|e] w'] eqn:E.
  - exists d, w'. split; [done|].
    vm_compute in E. injection E as <- <-. split; [reflexivity|].
    apply elem_of_cons. right. by left.
  - vm_compute in E. discriminate.
Qed.

(** C9 as stated fails: the repository holds a graph whose context ends in
    [meta] without being a [.meta] companion, and it is not the ACL graph;
    the snapshot leaves it out. *)
Lemma suffix_test_is_wider : ¬ snapshot_claim domain p1_repository "p1" anonymous.
Proof.
  intros H. destruct snapshot_of_p1 as (d & w' & E & Hnone & Hin).
  specialize (H d w' p1_graphs E Hin "http://localhost:5000/lbd/p1/graphs/sitemeta").
  destruct H as [_ H]. rewrite Hnone in H.
  assert (is_Some (None : option jsval)) as [? ?]; [|done].
  apply H. split; [|split; [reflexivity|discriminate]].
  unfold p1_graphs. repeat (first [by left | right]).
Qed.

(** C10, on an example: a POST with a query. *)
Lemma queryProject_ignores_other_methods_witness :
  queryProject all_ok (post_query "SELECT * WHERE { ?s ?p ?o }") anonymous =
    (Ok VUndefined, anonymous).
Proof.
  apply (queryProject_ignores_other_methods all_ok
           (post_query "SELECT * WHERE { ?s ?p ?o }") anonymous).
  discriminate.
Defined.
(** * Further properties of the handlers *)

(** ** The two sagas, from start to end *)

Section Lifecycle.
Variable DOMAIN_URL : string.
Variable namedGraphMeta : string → option string → option string → option string → string.
Variable respond : list event → call → result jsval.

(** X1: createProject returns its payload exactly when there is a principal
    and five store calls, made in this order, are all answered normally:
    create the repository, write the project record, save the principal
    with the new id appended to its projects, write the project's
    meta-graph (context and base URI both [DOMAIN/lbd/id.meta]) and write
    the ACL graph (context [DOMAIN/lbd/id/.acl], base URI the same with a
    [#]).  The payload then carries the metadata text that went into the
    meta-graph, and each saga entry holds what its store call returned. *)
Theorem createProject_completes id req w payload w' :
  let title := b_title (req_body req) in
  let description := b_description (req_body req) in
  let repoUrl := DOMAIN_URL +:+ "/lbd/" +:+ id in
  let metaTitle := DOMAIN_URL +:+ "/lbd/" +:+ id +:+ ".meta" in
  let acl := project_acl DOMAIN_URL id in
  let repoMetaData := namedGraphMeta repoUrl (Some acl) title description in
  createProject DOMAIN_URL namedGraphMeta respond id req w = (Ok payload, w') ↔
  ∃ u v1 v2 v3 v4 v5,
    let e1 : event := (CreateRepository title id, Ok v1) in
    let e2 : event := (CreateProjectDoc repoUrl id, Ok v2) in
    let e3 : event := (SaveUser (with_project id u), Ok v3) in
    let e4 : event :=
      (CreateNamedGraph id (GraphData (Some metaTitle) metaTitle repoMetaData None None None),
       Ok v4) in
    let e5 : event :=
      (CreateNamedGraph id
         (GraphData (Some acl) (acl +:+ "#")
            (defaultAclData id (with_project id u) (b_open (req_body req))) None None None),
       Ok v5) in
    principal w = Some u ∧
    respond (trace w) (fst e1) = snd e1 ∧
    respond (trace w ++ [e1]) (fst e2) = snd e2 ∧
    respond (trace w ++ [e1; e2]) (fst e3) = snd e3 ∧
    respond (trace w ++ [e1; e2; e3]) (fst e4) = snd e4 ∧
    respond (trace w ++ [e1; e2; e3; e4]) (fst e5) = snd e5 ∧
    payload = ProjectPayload repoMetaData id "Project successfully created" ∧
    w' = World (trace w ++ [e1; e2; e3; e4; e5]) (Some (with_project id u))
           [("createProjectRepository", Cmd v1 [AStr id]);
            ("createProjectDoc", Cmd v2 [AStr id]);
            ("saveProjectToUser", Cmd v3 [AStr id; APrincipal])].
Proof.
  intros title description repoUrl metaTitle acl repoMetaData.
  subst title description repoUrl metaTitle acl repoMetaData. unfold project_acl.
  destruct w as [tr p wc]. split.
  - unfold createProject. destruct p as [u|]; [|done].
    intros H. exists u. unfold createDefaultAclGraph in H. monad_unfold.
    cbn -[createProject_catch] in H.
    repeat match type of H with
      | context [respond ?t ?c] =>
          let E := fresh "E" in
          destruct (respond t c) as [?|?] eqn:E; cbn -[createProject_catch] in H
      | context [createProject_catch respond ?e ?w0] =>
          let Hc := fresh "Hc" in
          destruct (createProject_catch_throws respond (A := project_payload) e w0)
            as (? & ? & Hc);
          rewrite Hc in H; discriminate
      end.
    injection H as <- <-. rewrite <- !app_assoc in *. cbn in *.
    eexists _, _, _, _, _. by repeat (split; [eassumption || reflexivity|]).
  - intros (u & v1 & v2 & v3 & v4 & v5 & Hu & H1 & H2 & H3 & H4 & H5 & -> & ->).
    cbn in *. subst p. unfold createProject, createDefaultAclGraph, with_project in *.
    monad_unfold. cbn.
    rewrite H1. cbn. rewrite H2. cbn. rewrite <- ?app_assoc. cbn. rewrite H3. cbn.
    rewrite <- ?app_assoc. cbn. rewrite H4. cbn. rewrite <- ?app_assoc. cbn.
    rewrite H5. cbn. rewrite <- ?app_assoc. reflexivity.
Qed.

(** X2: when createProject throws, either there was no principal, and then
    no store was called and the error is the authentication error; or one
    of its five store calls threw, and the error reads
    [Failed to create Project; <the message of that store error>. Undoing
    past operations: <report>], with [Failed creating the default ACL
    graph; ] put before the message when the failing call is the ACL
    write.  The report is whatever the undo phase produced. *)
Theorem createProject_failure id req w e w' :
  let title := b_title (req_body req) in
  let description := b_description (req_body req) in
  let repoUrl := DOMAIN_URL +:+ "/lbd/" +:+ id in
  let metaTitle := DOMAIN_URL +:+ "/lbd/" +:+ id +:+ ".meta" in
  let acl := project_acl DOMAIN_URL id in
  let repoMetaData := namedGraphMeta repoUrl (Some acl) title description in
  createProject DOMAIN_URL namedGraphMeta respond id req w = (Throw e, w') →
  (principal w = None ∧ w' = w ∧
   e = JsError "You must be authenticated to create a new LBDserver Project") ∨
  ∃ u tr c cause undo,
    principal w = Some u ∧
    respond tr c = Throw cause ∧
    ((c ∈ [ CreateRepository title id;
            CreateProjectDoc repoUrl id;
            SaveUser (with_project id u);
            CreateNamedGraph id
              (GraphData (Some metaTitle) metaTitle repoMetaData None None None) ] ∧
      e = JsError ("Failed to create Project; " +:+ message cause +:+
                   ". Undoing past operations: " +:+ undo)) ∨
     (c = CreateNamedGraph id
            (GraphData (Some acl) (acl +:+ "#")
               (defaultAclData id (with_project id u) (b_open (req_body req)))
               None None None) ∧
      e = JsError ("Failed to create Project; Failed creating the default ACL graph; " +:+
                   message cause +:+ ". Undoing past operations: " +:+ undo))).
Proof.
  intros title description repoUrl metaTitle acl repoMetaData.
  subst title description repoUrl metaTitle acl repoMetaData. unfold project_acl.
  destruct w as [tr p wc]. unfold createProject. destruct p as [u|].
  2: { intros [= <- <-]. by left. }
  intros H. right. exists u. unfold createDefaultAclGraph, with_project in *. monad_unfold.
  cbn -[createProject_catch] in H.
  repeat match type of H with
    | context [respond ?t ?c] =>
        let E := fresh "E" in
        destruct (respond t c) as [?|?] eqn:E; cbn -[createProject_catch] in H
    end;
  try discriminate;
  match type of H with
  | context [createProject_catch respond ?e ?w0] =>
      let Hc := fresh "Hc" in
      destruct (createProject_catch_throws respond (A := project_payload) e w0)
        as (undo & ? & Hc);
      rewrite Hc in H; injection H as <- <-
  end;
  match goal with
  | E : respond ?t ?c = Throw ?cause |- _ => exists t, c, cause, undo
  end;
  (split; [reflexivity|]); (split; [assumption|]).
  all: first [ left; split; [|reflexivity]; cbn; set_solver
             | right; split; reflexivity ].
Qed.

End Lifecycle.

Section Deletion.
Variable DOMAIN_URL : string.
Variable respond : list event → call → result jsval.

(** The [catch] block of deleteProject always throws. *)
Lemma deleteProject_catch_throws {A} id error w :
  ∃ undoError w',
    deleteProject_catch (A := A) respond id error w =
      (Throw (JsError ("Failed to create Project with id " +:+ id +:+ "; " +:+ message error +:+
                       ". Undoing past operations: " +:+ undoError)), w').
Proof.
  unfold deleteProject_catch. monad_unfold. cbn.
  destruct (undoDatabaseActions respond (writeCommands w) w) as [[[]|err] w1];
    eexists _, _; reflexivity.
Qed.

(** X3: deleteProject returns exactly when there is a principal and three
    store calls, made in this order, are all answered normally: save the
    principal without the project in its list, delete the project record,
    delete the repository.  Nothing is read before, and whether the
    principal had the project in its list makes no difference. *)
Theorem deleteProject_completes req w v w' :
  let id := projectName req in
  let repoUrl := DOMAIN_URL +:+ "/lbd/" +:+ id in
  deleteProject DOMAIN_URL respond req w = (Ok v, w') ↔
  ∃ u v1 v2 v3,
    let e1 : event := (SaveUser (without_project id u), Ok v1) in
    let e2 : event := (DeleteProjectDoc id, Ok v2) in
    let e3 : event := (DeleteRepository id, Ok v3) in
    principal w = Some u ∧
    respond (trace w) (fst e1) = snd e1 ∧
    respond (trace w ++ [e1]) (fst e2) = snd e2 ∧
    respond (trace w ++ [e1; e2]) (fst e3) = snd e3 ∧
    v = VUndefined ∧
    w' = World (trace w ++ [e1; e2; e3]) (Some (without_project id u))
           [("deleteProjectDoc", Cmd v2 [AStr repoUrl; AStr id]);
            ("deleteProjectFromUser", Replaced v1)].
Proof.
  intros id repoUrl. subst id repoUrl. destruct w as [tr p wc]. split.
  - unfold deleteProject. intros H. monad_unfold. cbn -[deleteProject_catch] in H.
    destruct p as [u|]; cbn -[deleteProject_catch] in H.
    2: { match type of H with
         | context [deleteProject_catch respond ?i ?e ?w0] =>
             destruct (deleteProject_catch_throws (A := jsval) i e w0) as (? & ? & Hc);
             rewrite Hc in H; discriminate
         end. }
    exists u.
    repeat match type of H with
      | context [respond ?t ?c] =>
          let E := fresh "E" in
          destruct (respond t c) as [?|?] eqn:E; cbn -[deleteProject_catch] in H
      | context [deleteProject_catch respond ?i ?e ?w0] =>
          let Hc := fresh "Hc" in
          destruct (deleteProject_catch_throws (A := jsval) i e w0) as (? & ? & Hc);
          rewrite Hc in H; discriminate
      end.
    injection H as <- <-. rewrite <- !app_assoc in *. cbn in *.
    eexists _, _, _. by repeat (split; [eassumption || reflexivity|]).
  - intros (u & v1 & v2 & v3 & Hu & H1 & H2 & H3 & -> & ->).
    cbn in *. subst p. unfold deleteProject, without_project in *. monad_unfold. cbn.
    rewrite H1. cbn. rewrite H2. cbn. rewrite <- ?app_assoc. cbn. rewrite H3. cbn.
    rewrite <- ?app_assoc. reflexivity.
Qed.

(** X4: when deleteProject throws, the error reads [Failed to create
    Project with id <id>; <cause>. Undoing past operations: <report>]
    (the message says create), where the cause is the TypeError of
    reading [projects] off a missing principal, or the message of the
    error that one of the three store calls threw. *)
Theorem deleteProject_failure req w e w' :
  let id := projectName req in
  deleteProject DOMAIN_URL respond req w = (Throw e, w') →
  ∃ cause undo,
    e = JsError ("Failed to create Project with id " +:+ id +:+ "; " +:+ cause +:+
                 ". Undoing past operations: " +:+ undo) ∧
    ((principal w = None ∧ cause = message (type_error "projects")) ∨
     ∃ u tr c err,
       principal w = Some u ∧ respond tr c = Throw err ∧ cause = message err ∧
       c ∈ [SaveUser (without_project id u); DeleteProjectDoc id; DeleteRepository id]).
Proof.
  intros id. subst id. destruct w as [tr p wc].
  unfold deleteProject. intros H. monad_unfold. cbn -[deleteProject_catch] in H.
  destruct p as [u|]; cbn -[deleteProject_catch] in H.
  2: { match type of H with
       | context [deleteProject_catch respond ?i ?e ?w0] =>
           destruct (deleteProject_catch_throws (A := jsval) i e w0) as (undo & ? & Hc);
           rewrite Hc in H; injection H as <- <-
       end.
       eexists _, undo. split; [reflexivity|]. by left. }
  unfold without_project.
  repeat match type of H with
    | context [respond ?t ?c] =>
        let E := fresh "E" in
        destruct (respond t c) as [?|?] eqn:E; cbn -[deleteProject_catch] in H
    end;
  try discriminate;
  match type of H with
  | context [deleteProject_catch respond ?i ?e ?w0] =>
      let Hc := fresh "Hc" in
      destruct (deleteProject_catch_throws (A := jsval) i e w0) as (undo & ? & Hc);
      rewrite Hc in H; injection H as <- <-
  end;
  match goal with
  | E : respond ?t ?c = Throw ?cause |- _ =>
      exists (message cause), undo; split; [reflexivity|]; right; exists u, t, c, cause
  end;
  (split; [reflexivity|]); (split; [assumption|]); (split; [reflexivity|]); set_solver.
Qed.

End Deletion.

(** ** The store calls of a run *)

Section Calls.
Variable respond : list event → call → result jsval.
Variable allowed : call → Prop.

Lemma world_eta w : World (trace w) (principal w) (writeCommands w) = w.
Proof. by destruct w. Qed.

Lemma calls_ret {A} (a : A) : calls_only allowed (mret a).
Proof. intros w. exists []. by rewrite app_nil_r, world_eta. Qed.

Lemma calls_throw {A} e : calls_only allowed (@throw A e).
Proof. intros w. exists []. by rewrite app_nil_r, world_eta. Qed.

Lemma calls_gets {A} (f : world → A) : calls_only allowed (gets f).
Proof. intros w. exists []. by rewrite app_nil_r, world_eta. Qed.

Lemma calls_invoke c : allowed c → calls_only allowed (invoke respond c).
Proof. intros H w. eexists [_]. split; [reflexivity|]. by constructor. Qed.

Lemma calls_first_buffer bufs : calls_only allowed (first_buffer bufs).
Proof. destruct bufs; [apply calls_throw|apply calls_ret]. Qed.

Lemma calls_bind {A B} (m : M A) (f : A → M B) :
  calls_only allowed m → (∀ a, calls_only allowed (f a)) → calls_only allowed (m ≫= f).
Proof.
  intros Hm Hf w. unfold mbind, M_bind. destruct (Hm w) as (evs & Hw & Hall).
  destruct (m w) as [[a|e] w1]; simpl in *; [|by exists evs].
  destruct (Hf a w1) as (evs' & Hw' & Hall'). subst w1. simpl in Hw'.
  exists (evs ++ evs'). rewrite app_assoc. split; [done|]. by apply Forall_app.
Qed.

Lemma calls_try_catch {A} (m : M A) (h : jserr → M A) :
  calls_only allowed m → (∀ e, calls_only allowed (h e)) → calls_only allowed (try_catch m h).
Proof.
  intros Hm Hh w. unfold try_catch. destruct (Hm w) as (evs & Hw & Hall).
  destruct (m w) as [[a|e] w1]; simpl in *; [by exists evs|].
  destruct (Hh e w1) as (evs' & Hw' & Hall'). subst w1. simpl in Hw'.
  exists (evs ++ evs'). rewrite app_assoc. split; [done|]. by apply Forall_app.
Qed.

Lemma calls_weaken {A} (stricter : call → Prop) (m : M A) :
  (∀ c, stricter c → allowed c) → calls_only stricter m → calls_only allowed m.
Proof.
  intros HPQ Hm w. destruct (Hm w) as (evs & Hw & Hall). exists evs. split; [done|].
  eapply Forall_impl; [done|]. intros ev. apply HPQ.
Qed.

End Calls.

Ltac calls :=
  repeat first
    [ apply calls_ret | apply calls_throw | apply calls_gets | apply calls_first_buffer
    | apply calls_invoke; done
    | apply calls_bind; [|intros ?] | apply calls_try_catch; [|intros ?]
    | match goal with
      | |- calls_only _ (match ?x with _ => _ end) => destruct x
      | |- calls_only _ (if ?x then _ else _) => destruct x
      | |- calls_only _ (let '(_, _) := ?x in _) => destruct x
      end ].

Section StoreCalls.
Variable DOMAIN_URL : string.
Variable namedGraphMeta : string → option string → option string → option string → string.
Variable errorHandler : jserr → string * Z.
Variable respond : list event → call → result jsval.

Lemma collect_documents_calls project urls : ∀ documents,
  calls_only (λ c, reads c = true) (collect_documents respond project urls documents).
Proof.
  induction urls as [|url rest IH]; intros documents; cbn [collect_documents]; calls; apply IH.
Qed.

Lemma collect_graphs_calls project contexts : ∀ graphs,
  calls_only (λ c, reads c = true) (collect_graphs respond project contexts graphs).
Proof.
  induction contexts as [|ctx rest IH]; intros graphs; cbn [collect_graphs]; calls; apply IH.
Qed.

Lemma findProjectData_calls project :
  calls_only (λ c, reads c = true) (findProjectData DOMAIN_URL respond project).
Proof.
  unfold findProjectData. calls; first [apply collect_documents_calls | apply collect_graphs_calls].
Qed.

Lemma setAcl_calls req :
  calls_only (λ c, deletes c = false) (setAcl respond req).
Proof. unfold setAcl. calls. Qed.

Lemma createNamedGraph_calls graphId req :
  calls_only (λ c, deletes c = false)
    (createNamedGraph DOMAIN_URL namedGraphMeta errorHandler respond graphId req).
Proof.
  unfold createNamedGraph, respond_error, setAcl, setGraph, setMetaGraph. calls.
Qed.

End StoreCalls.

(** ** Named graphs and documents *)

Section Graphs.
Variable DOMAIN_URL : string.
Variable namedGraphMeta : string → option string → option string → option string → string.
Variable errorHandler : jserr → string * Z.
Variable respond : list event → call → result jsval.

(** setAcl, branch by branch. *)
Lemma setAcl_run req w :
  setAcl respond req w =
    let p := projectName req in
    let acl := b_acl (req_body req) in
    let aclName := b_aclName (req_body req) in
    match req_files req with
    | None => (Throw (JsError ("Could not create ACL file; " +:+ message (type_error "acl"))), w)
    | Some fs =>
        match f_acl fs with
        | None =>
            if truthy_str acl then
              let c := GetNamedGraph (str acl) p in
              let r := respond (trace w) c in
              (match r with
               | Ok _ => Ok acl
               | Throw _ => Throw (JsError "Could not create ACL file; undefined")
               end, record (c, r) w)
            else (Ok (Some ("https://lbdserver.org/lbd/" +:+ p +:+ "/.acl")), w)
        | Some bufs =>
            match f_aclName fs with
            | None =>
                (Throw (JsError "Could not create ACL file; When uploading a custom acl file, please set a context URL for it"), w)
            | Some _ =>
                match bufs with
                | [] =>
                    (Throw (JsError ("Could not create ACL file; " +:+
                                     message (type_error "buffer"))), w)
                | buffer :: _ =>
                    let c := CreateNamedGraph p
                               (GraphData aclName (str aclName +:+ "#") buffer None None None) in
                    let r := respond (trace w) c in
                    (match r with
                     | Ok _ => Ok aclName
                     | Throw err => Throw (JsError ("Could not create ACL file; " +:+ message err))
                     end, record (c, r) w)
                end
            end
        end
    end.
Proof.
  unfold setAcl. monad_unfold. destruct (req_files req) as [fs|]; [|done]. cbn.
  destruct (f_acl fs) as [bufs|]; cbn.
  - rewrite andb_false_r. destruct (f_aclName fs); [|done].
    destruct bufs as [|buffer ?]; [done|]. cbn. by destruct (respond _ _).
  - rewrite andb_true_r. destruct (truthy_str (b_acl (req_body req))); [|done]. cbn.
    by destruct (respond _ _).
Qed.

(** X5: setAcl returns an ACL reference in exactly three ways.  With no
    ACL file and no [acl] field it returns the default reference and calls
    no store.  With no ACL file and an [acl] field it returns that field
    after one read of the referenced graph that the store answered.  With
    an ACL file (which then wins over an [acl] field) it needs a file
    field [aclName] to be present, but stores the file's text under the
    body field [aclName] and returns that body field, which may be
    missing: the graph is then written with no context and with the
    base URI [undefined#]. *)
Theorem setAcl_chooses req w acl w' :
  let p := projectName req in
  setAcl respond req w = (Ok acl, w') ↔
  ∃ fs,
    req_files req = Some fs ∧
    ((f_acl fs = None ∧ truthy_str (b_acl (req_body req)) = false ∧
      acl = Some ("https://lbdserver.org/lbd/" +:+ p +:+ "/.acl") ∧ w' = w) ∨
     (f_acl fs = None ∧ truthy_str (b_acl (req_body req)) = true ∧
      acl = b_acl (req_body req) ∧
      ∃ v, respond (trace w) (GetNamedGraph (str acl) p) = Ok v ∧
           w' = record (GetNamedGraph (str acl) p, Ok v) w) ∨
     (∃ buffer rest v,
        f_acl fs = Some (buffer :: rest) ∧ is_Some (f_aclName fs) ∧
        acl = b_aclName (req_body req) ∧
        let upload := CreateNamedGraph p (GraphData acl (str acl +:+ "#") buffer None None None) in
        respond (trace w) upload = Ok v ∧ w' = record (upload, Ok v) w)).
Proof.
  intros p. subst p. rewrite setAcl_run. cbn zeta.
  destruct (req_files req) as [fs|].
  2: { split; [done|]. by intros (fs & [=] & _). }
  split.
  - intros H. exists fs. split; [done|].
    destruct (f_acl fs) as [bufs|].
    + destruct (f_aclName fs) eqn:Hn; [|done]. destruct bufs as [|buffer rest]; [done|].
      destruct (respond _ _) as [v|] eqn:Hr; [|done]. injection H as <- <-.
      right. right. exists buffer, rest, v. by repeat split.
    + destruct (truthy_str _) eqn:Ht.
      * destruct (respond _ _) as [v|] eqn:Hr; [|done]. injection H as <- <-.
        right. left. repeat split; try done. by exists v.
      * injection H as <- <-. by left.
  - intros (fs' & [= <-] & [(-> & -> & -> & ->)|[(-> & -> & -> & v & Hr & ->)|
           (buffer & rest & v & -> & [n ->] & -> & Hr & ->)]]); try done.
    + by rewrite Hr.
    + cbn zeta in Hr. by rewrite Hr.
Qed.

(** X6: every error of setAcl reads [Could not create ACL file; <cause>].
    When the referenced ACL graph cannot be read, the cause is the text
    [undefined]: the object thrown for that case, with its reason and its
    status 400, has no message, and neither the reason nor the status
    reaches the caller.  The other causes are the missing [req.files], the
    missing [aclName] file field, the empty ACL upload and the message of
    a failed write of the uploaded ACL graph; only the last one and the
    failed read have called the store. *)
Theorem setAcl_failure req w e w' :
  setAcl respond req w = (Throw e, w') →
  ∃ cause,
    e = JsError ("Could not create ACL file; " +:+ cause) ∧
    ((req_files req = None ∧ cause = message (type_error "acl") ∧ w' = w) ∨
     ∃ fs, req_files req = Some fs ∧
       ((is_Some (f_acl fs) ∧ f_aclName fs = None ∧ w' = w ∧
         cause = "When uploading a custom acl file, please set a context URL for it") ∨
        (f_acl fs = Some [] ∧ w' = w ∧ cause = message (type_error "buffer")) ∨
        (∃ buffer rest err,
           f_acl fs = Some (buffer :: rest) ∧
           w' = record (CreateNamedGraph (projectName req)
                          (GraphData (b_aclName (req_body req))
                             (str (b_aclName (req_body req)) +:+ "#") buffer None None None),
                        Throw err) w ∧
           cause = message err) ∨
        (∃ err, f_acl fs = None ∧
                w' = record (GetNamedGraph (str (b_acl (req_body req))) (projectName req),
                             Throw err) w ∧
                cause = "undefined"))).
Proof.
  rewrite setAcl_run. cbn zeta. destruct (req_files req) as [fs|].
  2: { intros [= <- <-]. eexists. split; [reflexivity|]. by left. }
  destruct (f_acl fs) as [bufs|] eqn:Hacl.
  - destruct (f_aclName fs) eqn:Hn.
    + destruct bufs as [|buffer rest].
      * intros [= <- <-]. eexists. split; [reflexivity|]. right. exists fs.
        split; [done|]. right. left. by repeat split.
      * destruct (respond _ _) as [|err] eqn:Hr; [done|]. intros [= <- <-].
        eexists. split; [reflexivity|]. right. exists fs. split; [done|].
        right. right. left. by exists buffer, rest, err.
    + intros [= <- <-]. eexists. split; [reflexivity|]. right. exists fs.
      split; [done|]. left. by repeat split.
  - destruct (truthy_str _); [|done].
    destruct (respond _ _) as [|err] eqn:Hr; [done|]. intros [= <- <-].
    eexists. split; [reflexivity|]. right. exists fs. split; [done|].
    right. right. right. by exists err.
Qed.

(** A setAcl that fails has written no graph and deleted nothing. *)
Lemma setAcl_failure_writes req w e w' :
  setAcl respond req w = (Throw e, w') →
  ∃ evs, w' = World (trace w ++ evs) (principal w) (writeCommands w) ∧
         graphs_written evs = [] ∧
         Forall (λ ev : event, deletes (fst ev) = false) evs.
Proof.
  rewrite setAcl_run. cbn zeta. intros H.
  assert (∀ c err, deletes c = false →
            ∃ evs, record (c, Throw err) w = World (trace w ++ evs) (principal w) (writeCommands w) ∧
                   graphs_written evs = [] ∧
                   Forall (λ ev : event, deletes (fst ev) = false) evs) as Hone.
  { intros c err Hc. exists [(c, Throw err)]. split; [done|]. split; [by destruct c|].
    by constructor. }
  assert (∃ evs, w = World (trace w ++ evs) (principal w) (writeCommands w) ∧
                 graphs_written evs = [] ∧
                 Forall (λ ev : event, deletes (fst ev) = false) evs) as Hnone.
  { exists []. rewrite app_nil_r. by destruct w. }
  destruct (req_files req) as [fs|]; [|by injection H as _ <-].
  destruct (f_acl fs) as [[|buffer ?]|]; [destruct (f_aclName fs)|destruct (f_aclName fs)|
    destruct (truthy_str _)]; try discriminate; try by injection H as _ <-.
  all: destruct (respond _ _) as [|err]; [discriminate|]; injection H as _ <-; by apply Hone.
Qed.

Lemma graphs_written_app a b : graphs_written (a ++ b) = graphs_written a ++ graphs_written b.
Proof. apply flat_map_app. Qed.

(** A setAcl that succeeds has written the uploaded ACL graph and no other. *)
Lemma setAcl_success_writes req w acl w' :
  setAcl respond req w = (Ok acl, w') →
  ∃ evs, w' = World (trace w ++ evs) (principal w) (writeCommands w) ∧
         graphs_written evs = uploaded_acl req.
Proof.
  rewrite setAcl_run. unfold uploaded_acl. cbn zeta. intros H.
  destruct (req_files req) as [fs|]; [|done].
  destruct (f_acl fs) as [[|buffer ?]|]; [destruct (f_aclName fs)|destruct (f_aclName fs)|
    destruct (truthy_str _)]; try discriminate.
  - destruct (respond _ _) as [v|]; [|done]. injection H as _ <-. by eexists [_].
  - destruct (respond _ _) as [v|]; [|done]. injection H as _ <-. by eexists [_].
  - injection H as _ <-. exists []. rewrite app_nil_r. by destruct w.
Qed.

(** createNamedGraph, in terms of what setAcl does. *)
Lemma createNamedGraph_run graphId req w :
  createNamedGraph DOMAIN_URL namedGraphMeta errorHandler respond graphId req w =
    let p := projectName req in
    let context := DOMAIN_URL +:+ "/lbd/" +:+ p +:+ "/graphs/" +:+ graphId in
    let label := if_truthy (b_label (req_body req)) in
    let description := if_truthy (b_description (req_body req)) in
    let fail (error : jserr) (w : world) :=
      (Ok (Response (snd (errorHandler error)) (PError (fst (errorHandler error)))), w) in
    let listing := respond (trace w) (GetAllNamedGraphs p) in
    let w1 := record (GetAllNamedGraphs p, listing) w in
    match listing with
    | Throw e => fail e w1
    | Ok (VBindings _) =>
        match setAcl respond req w1 with
        | (Throw e, w2) => fail e w2
        | (Ok acl, w2) =>
            match graph_text context <$> req_files req with
            | None =>
                fail (JsError ("Could not create graph with context " +:+ context +:+ "; " +:+
                               message (type_error "graph"))) w2
            | Some (Throw e) =>
                fail (JsError ("Could not create graph with context " +:+ context +:+ "; " +:+
                               message e)) w2
            | Some (Ok data) =>
                let graph := CreateNamedGraph p
                               (GraphData (Some context) (context +:+ "#") data acl None None) in
                let r1 := respond (trace w2) graph in
                let w3 := record (graph, r1) w2 in
                match r1 with
                | Throw e =>
                    fail (JsError ("Could not create graph with context " +:+ context +:+
                                   "; " +:+ message e)) w3
                | Ok _ =>
                    let metaData := namedGraphMeta context acl label description in
                    let metaGraph :=
                      CreateNamedGraph p
                        (GraphData (Some (context +:+ ".meta")) (context +:+ ".meta#") metaData
                           None label description) in
                    let r2 := respond (trace w3) metaGraph in
                    let w4 := record (metaGraph, r2) w3 in
                    match r2 with
                    | Throw e =>
                        fail (JsError ("Could not create metadata graph with context " +:+
                                       context +:+ "; " +:+ message e)) w4
                    | Ok _ =>
                        (Ok (Response 201
                               (PCreated
                                  (Some ("Successfully created the named graph with context " +:+
                                         context))
                                  metaData (VString context))), w4)
                    end
                end
            end
        end
    | Ok _ => fail (type_error "bindings") w1
    end.
Proof.
  unfold createNamedGraph, setGraph, setMetaGraph, respond_error, graph_text.
  monad_unfold. cbn.
  destruct (respond (trace w) _) as [listing|e]; cbn; [|by destruct (errorHandler e)].
  destruct listing; cbn; try by destruct (errorHandler _).
  destruct (setAcl respond req _) as [[acl|e] w2]; cbn; [|by destruct (errorHandler e)].
  destruct (req_files req) as [fs|]; cbn; [|by destruct (errorHandler _)].
  destruct (f_graph fs) as [[|buffer ?]|]; cbn; try by destruct (errorHandler _).
  - destruct (respond (trace w2) _) as [v1|e]; cbn; [|by destruct (errorHandler _)].
    destruct (respond _ _) as [v2|e]; cbn; [done|by destruct (errorHandler _)].
  - destruct (respond (trace w2) _) as [v1|e]; cbn; [|by destruct (errorHandler _)].
    destruct (respond _ _) as [v2|e]; cbn; [done|by destruct (errorHandler _)].
Qed.

(** X7: createNamedGraph answers with a creation payload exactly when the
    listing of the project's graphs, setAcl and the two graph writes all
    succeed.  The status is then 201 and the URL is
    [DOMAIN/lbd/project/graphs/id]; the graph was written under that
    context with base URI [context#], with the uploaded text or else a
    blank graph, and with the ACL reference that setAcl chose; its
    meta-graph was written after it under [context.meta] with base URI
    [context.meta#], and its text is the [metaGraph] of the payload. *)
Theorem createNamedGraph_created graphId req w st msg metaData url w' :
  let p := projectName req in
  let context := DOMAIN_URL +:+ "/lbd/" +:+ p +:+ "/graphs/" +:+ graphId in
  let label := if_truthy (b_label (req_body req)) in
  let description := if_truthy (b_description (req_body req)) in
  createNamedGraph DOMAIN_URL namedGraphMeta errorHandler respond graphId req w =
    (Ok (Response st (PCreated msg metaData url)), w') ↔
  ∃ bindings acl w2 fs data v1 v2,
    let listing : event := (GetAllNamedGraphs p, Ok (VBindings bindings)) in
    let graph : event :=
      (CreateNamedGraph p (GraphData (Some context) (context +:+ "#") data acl None None),
       Ok v1) in
    let metaGraph : event :=
      (CreateNamedGraph p
         (GraphData (Some (context +:+ ".meta")) (context +:+ ".meta#") metaData None
            label description),
       Ok v2) in
    respond (trace w) (fst listing) = snd listing ∧
    setAcl respond req (record listing w) = (Ok acl, w2) ∧
    req_files req = Some fs ∧
    graph_text context fs = Ok data ∧
    respond (trace w2) (fst graph) = snd graph ∧
    respond (trace w2 ++ [graph]) (fst metaGraph) = snd metaGraph ∧
    st = 201 ∧
    msg = Some ("Successfully created the named graph with context " +:+ context) ∧
    metaData = namedGraphMeta context acl label description ∧
    url = VString context ∧
    w' = record metaGraph (record graph w2).
Proof.
  intros p context label description. rewrite createNamedGraph_run. cbn zeta.
  fold p. fold context. fold label. fold description. split.
  - destruct (respond (trace w) _) as [listing|e] eqn:H0; [|done].
    destruct listing as [| | |bindings| | |]; try done.
    destruct (setAcl respond req _) as [[acl|e] w2] eqn:Hacl; [|done].
    destruct (req_files req) as [fs|]; [|done]. cbn.
    destruct (graph_text context fs) as [data|e] eqn:Hd; [|done].
    destruct (respond (trace w2) _) as [v1|e] eqn:H1; [|done].
    destruct (respond _ _) as [v2|e] eqn:H2 in |- *; [|done].
    intros [= <- <- <- <- <-]. exists bindings, acl, w2, fs, data, v1, v2.
    by repeat (split; [done|]).
  - intros (bindings & acl & w2 & fs & data & v1 & v2 & H0 & Hacl & Hf & Hd & H1 & H2 &
            -> & -> & -> & -> & ->).
    cbn in H0, H1, H2. rewrite H0, Hacl, Hf. cbn. rewrite Hd, H1. cbn. by rewrite H2.
Qed.

(** X8: createNamedGraph does not roll back.  When the graph has been
    written and the write of its meta-graph then throws, the handler
    answers with the error that errorHandler makes of [Could not create
    metadata graph with context <context>; <message>], the graph stays in
    the store without a meta-graph, and no call of the whole run deletes
    anything. *)
Theorem createNamedGraph_keeps_graph_without_meta graphId req w bindings acl w2 fs data v e :
  let p := projectName req in
  let context := DOMAIN_URL +:+ "/lbd/" +:+ p +:+ "/graphs/" +:+ graphId in
  let label := if_truthy (b_label (req_body req)) in
  let description := if_truthy (b_description (req_body req)) in
  let listing : event := (GetAllNamedGraphs p, Ok (VBindings bindings)) in
  let graph : event :=
    (CreateNamedGraph p (GraphData (Some context) (context +:+ "#") data acl None None),
     Ok v) in
  let metaGraph : event :=
    (CreateNamedGraph p
       (GraphData (Some (context +:+ ".meta")) (context +:+ ".meta#")
          (namedGraphMeta context acl label description) None label description),
     Throw e) in
  let error :=
    JsError ("Could not create metadata graph with context " +:+ context +:+ "; " +:+
             message e) in
  respond (trace w) (fst listing) = snd listing →
  setAcl respond req (record listing w) = (Ok acl, w2) →
  req_files req = Some fs →
  graph_text context fs = Ok data →
  respond (trace w2) (fst graph) = snd graph →
  respond (trace w2 ++ [graph]) (fst metaGraph) = snd metaGraph →
  createNamedGraph DOMAIN_URL namedGraphMeta errorHandler respond graphId req w =
    (Ok (Response (snd (errorHandler error)) (PError (fst (errorHandler error)))),
     record metaGraph (record graph w2)) ∧
  ∃ evs, trace w2 ++ [graph; metaGraph] = trace w ++ evs ∧
         graph ∈ evs ∧
         Forall (λ ev : event, deletes (fst ev) = false) evs.
Proof.
  intros p context label description. cbn zeta. cbn [fst snd].
  intros H0 Hacl Hf Hd H1 H2.
  match goal with |- ?G ∧ _ => assert G as Hrun end.
  { rewrite createNamedGraph_run. cbn zeta.
    fold p. fold context. fold label. fold description.
    rewrite H0, Hacl, Hf. cbn. rewrite Hd, H1. cbn. by rewrite H2. }
  split; [done|].
  destruct (createNamedGraph_calls DOMAIN_URL namedGraphMeta errorHandler respond graphId req w)
    as (evs & Hw & Hall).
  rewrite Hrun in Hw. cbn in Hw. injection Hw as Ht _ _. rewrite <- app_assoc in Ht. cbn in Ht.
  exists evs. split; [done|]. split; [|done].
  destruct (setAcl_calls respond req (record (GetAllNamedGraphs p, Ok (VBindings bindings)) w))
    as (evs2 & Hw2 & _).
  rewrite Hacl in Hw2. cbn in Hw2. subst w2. cbn in Ht.
  rewrite <- !app_assoc in Ht. apply app_inv_head in Ht. subst evs.
  set_solver.
Qed.

(** X9: a createNamedGraph that refers to an ACL graph that cannot be read
    writes nothing: after the listing and the failed read it answers with
    the error that errorHandler makes of [Could not create ACL file;
    undefined]. *)
Theorem createNamedGraph_missing_acl_reference graphId req w bindings fs e :
  let p := projectName req in
  let acl := str (b_acl (req_body req)) in
  let listing : event := (GetAllNamedGraphs p, Ok (VBindings bindings)) in
  let lookup : event := (GetNamedGraph acl p, Throw e) in
  let error := JsError "Could not create ACL file; undefined" in
  req_files req = Some fs →
  f_acl fs = None →
  truthy_str (b_acl (req_body req)) = true →
  respond (trace w) (fst listing) = snd listing →
  respond (trace w ++ [listing]) (fst lookup) = snd lookup →
  createNamedGraph DOMAIN_URL namedGraphMeta errorHandler respond graphId req w =
    (Ok (Response (snd (errorHandler error)) (PError (fst (errorHandler error)))),
     World (trace w ++ [listing; lookup]) (principal w) (writeCommands w)).
Proof.
  intros p acl. cbn zeta. cbn [fst snd]. intros Hf Ha Ht H0 H1.
  rewrite createNamedGraph_run. cbn zeta. fold p. rewrite H0, setAcl_run. cbn zeta.
  rewrite Hf, Ha, Ht. cbn. fold p. fold acl. rewrite H1. unfold record. cbn.
  by rewrite <- app_assoc.
Qed.

(** uploadDocumentToProject, in terms of what setAcl does. *)
Lemma uploadDocumentToProject_run req w :
  uploadDocumentToProject namedGraphMeta errorHandler respond req w =
    let p := projectName req in
    let label := if_truthy (b_label (req_body req)) in
    let description := if_truthy (b_description (req_body req)) in
    let fail (error : jserr) (w : world) :=
      (Ok (Response (snd (errorHandler error)) (PError (fst (errorHandler error)))), w) in
    match principal w with
    | None => fail (type_error "uri") w
    | Some u =>
        match req_files req with
        | None => fail (type_error "file") w
        | Some fs =>
            match f_file fs with
            | None => fail (type_error "0") w
            | Some [] => fail (type_error "buffer") w
            | Some (data :: _) =>
                let upload := UploadDocuments p data (uri u) in
                let r := respond (trace w) upload in
                let w1 := record (upload, r) w in
                match r with
                | Throw e => fail e w1
                | Ok documentUrl =>
                    match setAcl respond req w1 with
                    | (Throw e, w2) => fail e w2
                    | (Ok acl, w2) =>
                        let url := to_str documentUrl in
                        let metaData := namedGraphMeta url acl label description in
                        let metaGraph :=
                          CreateNamedGraph p
                            (GraphData (Some (url +:+ ".meta")) (url +:+ ".meta#") metaData
                               None label description) in
                        let r2 := respond (trace w2) metaGraph in
                        let w3 := record (metaGraph, r2) w2 in
                        match r2 with
                        | Throw e =>
                            fail (JsError ("Could not create metadata graph with context " +:+
                                           url +:+ "; " +:+ message e)) w3
                        | Ok _ => (Ok (Response 201 (PCreated None metaData documentUrl)), w3)
                        end
                    end
                end
            end
        end
    end.
Proof.
  unfold uploadDocumentToProject, setMetaGraph, respond_error.
  monad_unfold. destruct w as [tr [u|] wc]; cbn; [|by destruct (errorHandler _)].
  destruct (req_files req) as [fs|]; cbn; [|by destruct (errorHandler _)].
  destruct (f_file fs) as [[|data ?]|]; cbn; try by destruct (errorHandler _).
  destruct (respond tr _) as [url|e]; cbn; [|by destruct (errorHandler _)].
  destruct (setAcl respond req _) as [[acl|e] w2]; cbn; [|by destruct (errorHandler e)].
  destruct (respond _ _) as [v2|e]; cbn; [done|by destruct (errorHandler _)].
Qed.

(** X10: uploadDocumentToProject answers with a creation payload exactly
    when there is a principal, the request has a file, and the upload,
    setAcl and the write of the meta-graph all succeed, in this order.
    The document is stored for the principal's URI; the status is 201,
    the payload has no message, its URL is what the document store
    returned, and the meta-graph was written under [<url>.meta] with the
    ACL reference that setAcl chose. *)
Theorem uploadDocumentToProject_created req w st msg metaData url w' :
  let p := projectName req in
  let label := if_truthy (b_label (req_body req)) in
  let description := if_truthy (b_description (req_body req)) in
  uploadDocumentToProject namedGraphMeta errorHandler respond req w =
    (Ok (Response st (PCreated msg metaData url)), w') ↔
  ∃ u fs data rest acl w2 v,
    let stored : event := (UploadDocuments p data (uri u), Ok url) in
    let metaGraph : event :=
      (CreateNamedGraph p
         (GraphData (Some (to_str url +:+ ".meta")) (to_str url +:+ ".meta#") metaData None
            label description),
       Ok v) in
    principal w = Some u ∧
    req_files req = Some fs ∧
    f_file fs = Some (data :: rest) ∧
    respond (trace w) (fst stored) = snd stored ∧
    setAcl respond req (record stored w) = (Ok acl, w2) ∧
    respond (trace w2) (fst metaGraph) = snd metaGraph ∧
    st = 201 ∧ msg = None ∧
    metaData = namedGraphMeta (to_str url) acl label description ∧
    w' = record metaGraph w2.
Proof.
  intros p label description. rewrite uploadDocumentToProject_run. cbn zeta.
  fold p. fold label. fold description. split.
  - destruct (principal w) as [u|]; [|done].
    destruct (req_files req) as [fs|]; [|done].
    destruct (f_file fs) as [[|data rest]|] eqn:Hd; try done.
    destruct (respond (trace w) _) as [url'|e] eqn:H0; [|done].
    destruct (setAcl respond req _) as [[acl|e] w2] eqn:Hacl; [|done].
    destruct (respond _ _) as [v|e] eqn:H2 in |- *; [|done].
    intros [= <- <- <- <- <-]. exists u, fs, data, rest, acl, w2, v.
    by repeat (split; [done|]).
  - intros (u & fs & data & rest & acl & w2 & v & Hu & Hf & Hd & H0 & Hacl & H2 &
            -> & -> & -> & ->).
    cbn [fst snd] in H0, H2. rewrite Hu, Hf, Hd, H0, Hacl. by rewrite H2.
Qed.

(** X11: uploadDocumentToProject stores the document before it looks at
    the ACL, and does not roll back.  When the document has been stored
    and setAcl then fails, the handler answers with the error that
    errorHandler makes of setAcl's error, the document stays in the
    document store, no meta-graph or other graph has been written for it,
    and nothing has been deleted. *)
Theorem uploadDocumentToProject_keeps_document_without_meta req w u fs data rest url e w2 :
  let p := projectName req in
  let stored : event := (UploadDocuments p data (uri u), Ok url) in
  principal w = Some u →
  req_files req = Some fs →
  f_file fs = Some (data :: rest) →
  respond (trace w) (fst stored) = snd stored →
  setAcl respond req (record stored w) = (Throw e, w2) →
  uploadDocumentToProject namedGraphMeta errorHandler respond req w =
    (Ok (Response (snd (errorHandler e)) (PError (fst (errorHandler e)))), w2) ∧
  ∃ evs, trace w2 = trace w ++ stored :: evs ∧
         graphs_written evs = [] ∧
         Forall (λ ev : event, deletes (fst ev) = false) evs.
Proof.
  intros p. cbn zeta. cbn [fst snd]. intros Hu Hf Hd H0 Hacl.
  split.
  - rewrite uploadDocumentToProject_run. cbn zeta. fold p.
    by rewrite Hu, Hf, Hd, H0, Hacl.
  - apply setAcl_failure_writes in Hacl as (evs & -> & Hw & Hall).
    exists evs. cbn. by rewrite <- app_assoc.
Qed.

(** X12: deleteNamedGraph undoes createNamedGraph, up to an uploaded ACL.
    Take a createNamedGraph that answered with its creation payload and a
    deleteNamedGraph for the same project and graph id that answered with
    its success message.  The graphs that the creation wrote are then the
    uploaded ACL graph, if the request came with one, followed by exactly
    the graphs that the deletion removed: the graph and its meta-graph.
    The uploaded ACL graph is never removed. *)
Theorem deleteNamedGraph_removes_what_was_created graphId req w st msg metaData url w1
    req' w1' st' m w2 :
  projectName req' = projectName req →
  createNamedGraph DOMAIN_URL namedGraphMeta errorHandler respond graphId req w =
    (Ok (Response st (PCreated msg metaData url)), w1) →
  deleteNamedGraph DOMAIN_URL errorHandler respond graphId req' w1' =
    (Ok (Response st' (PMessage m)), w2) →
  ∃ evs evs',
    trace w1 = trace w ++ evs ∧
    trace w2 = trace w1' ++ evs' ∧
    graphs_written evs = uploaded_acl req ++ graphs_removed evs'.
Proof.
  intros Hp Hc Hd. rewrite createNamedGraph_run in Hc. cbn zeta in Hc.
  destruct (respond (trace w) _) as [listing|e] eqn:H0; [|done].
  destruct listing as [| | |bindings| | |]; try done.
  destruct (setAcl respond req _) as [[acl|e] w3] eqn:Hacl; [|done].
  destruct (req_files req) as [fs|] eqn:Hf; [|done]. cbn in Hc.
  destruct (graph_text _ fs) as [data|e] eqn:Hdata; [|done].
  destruct (respond (trace w3) _) as [v1|e] eqn:H1; [|done].
  destruct (respond _ _) as [v2|e] eqn:H2 in Hc; [|done].
  injection Hc as _ _ _ _ <-.
  apply setAcl_success_writes in Hacl as (evs & -> & Hw).
  unfold deleteNamedGraph, respond_error in Hd. monad_unfold. cbn in Hd.
  destruct (respond (trace w1') _) as [d1|e] eqn:H3; cbn in Hd;
    [|by destruct (errorHandler e)].
  destruct (respond _ _) as [d2|e] eqn:H4 in Hd; cbn in Hd;
    [|by destruct (errorHandler e)].
  injection Hd as _ _ <-. cbn.
  eexists _, [_; _]. rewrite <- !app_assoc. split; [reflexivity|]. split; [reflexivity|].
  rewrite !graphs_written_app, Hw, Hp. cbn. by rewrite !append_assoc.
Qed.

(** X13: deleteDocumentFromProject removes the meta-graph of the URL that
    the document store hands back.  Take an upload that answered with its
    creation payload and a deletion in the same project that answered with
    its success message, the document store having returned the URL of
    that upload: the graphs that the upload wrote are the uploaded ACL
    graph, if any, followed by exactly the graph that the deletion
    removed. *)
Theorem deleteDocumentFromProject_removes_the_metadata req w st msg metaData url w1
    fileId req' w1' st' m w2 :
  projectName req' = projectName req →
  uploadDocumentToProject namedGraphMeta errorHandler respond req w =
    (Ok (Response st (PCreated msg metaData url)), w1) →
  respond (trace w1') (DeleteDocument fileId) = Ok url →
  deleteDocumentFromProject errorHandler respond fileId req' w1' =
    (Ok (Response st' (PMessage m)), w2) →
  ∃ evs evs',
    trace w1 = trace w ++ evs ∧
    trace w2 = trace w1' ++ evs' ∧
    graphs_written evs = uploaded_acl req ++ graphs_removed evs'.
Proof.
  intros Hp Hc Hurl Hd. rewrite uploadDocumentToProject_run in Hc. cbn zeta in Hc.
  destruct (principal w) as [u|]; [|done].
  destruct (req_files req) as [fs|] eqn:Hf; [|done].
  destruct (f_file fs) as [[|data rest]|]; try done.
  destruct (respond (trace w) _) as [url'|e] eqn:H0; [|done].
  destruct (setAcl respond req _) as [[acl|e] w3] eqn:Hacl; [|done].
  destruct (respond _ _) as [v|e] eqn:H2 in Hc; [|done].
  injection Hc as _ _ _ -> <-.
  apply setAcl_success_writes in Hacl as (evs & -> & Hw).
  unfold deleteDocumentFromProject, respond_error in Hd. monad_unfold. cbn in Hd.
  rewrite Hurl in Hd. cbn in Hd.
  destruct (respond _ _) as [d2|e] eqn:H4 in Hd; cbn in Hd;
    [|by destruct (errorHandler e)].
  injection Hd as _ _ <-. cbn.
  eexists _, [_; _]. rewrite <- !app_assoc. split; [reflexivity|]. split; [reflexivity|].
  rewrite !graphs_written_app, Hw, Hp. cbn. done.
Qed.

End Graphs.

(** ** Snapshots and listings *)

Lemma length_append (a b : string) :
  String.length (a +:+ b) = (String.length a + String.length b)%nat.
Proof.
  induction a as [|x a IH]; [done|].
  change (String.length (String x (a +:+ b)) = S (String.length a + String.length b)).
  simpl. by rewrite IH.
Qed.

Lemma substring_append (a b : string) :
  String.substring (String.length a) (String.length b) (a +:+ b) = b.
Proof.
  induction a as [|x a IH].
  - change (String.substring 0 (String.length b) b = b).
    induction b as [|y b IHb]; [done|]. simpl. by rewrite IHb.
  - exact IH.
Qed.

Lemma endsWith_append (a b : string) : endsWith (a +:+ b) b = true.
Proof.
  unfold endsWith. rewrite length_append.
  replace (String.length a + String.length b - String.length b)%nat with (String.length a)
    by lia.
  rewrite substring_append, String.eqb_refl, andb_true_r. apply Nat.leb_le. lia.
Qed.

Section Reading.
Variable DOMAIN_URL : string.
Variable respond : list event → call → result jsval.
Variable adaptQuery : JsString.t → list string → result JsString.t.

Lemma findProjectData_throws project w e w' :
  findProjectData DOMAIN_URL respond project w = (Throw e, w') →
  ∃ cause, e = JsError ("Could not find project data for project with id " +:+ project +:+
                        "; " +:+ cause).
Proof.
  unfold findProjectData, try_catch.
  match goal with
  | |- context [match ?b with _ => _ end] => destruct b as [[d|err] w1]
  end; [done|]. intros [= <- <-]. by eexists.
Qed.

Lemma findProjectData_id project w d w' :
  findProjectData DOMAIN_URL respond project w = (Ok d, w') → d_id d = project.
Proof.
  unfold findProjectData. monad_unfold.
  repeat match goal with
    | |- context [match ?x with _ => _ end] =>
        match x with
        | respond _ _ => destruct x as [[]|]
        | collect_documents _ _ _ _ _ => destruct x as [[|] ?]
        | collect_graphs _ _ _ _ _ => destruct x as [[|] ?]
        end; cbn; try done
    end.
  all: by intros [= <- <-].
Qed.

(** X14: findProjectData only reads.  Whatever the stores answer, every
    call it makes fetches a graph, lists the graphs of the repository or
    finds the files of the project; it leaves the principal and the saga
    record alone; and when it fails, the error reads [Could not find
    project data for project with id <id>; <cause>]. *)
Theorem findProjectData_only_reads project w :
  ∃ evs,
    snd (findProjectData DOMAIN_URL respond project w) =
      World (trace w ++ evs) (principal w) (writeCommands w) ∧
    Forall (λ ev : event, reads (fst ev) = true) evs ∧
    ∀ e, fst (findProjectData DOMAIN_URL respond project w) = Throw e →
         ∃ cause, e = JsError ("Could not find project data for project with id " +:+
                               project +:+ "; " +:+ cause).
Proof.
  destruct (findProjectData_calls DOMAIN_URL respond project w) as (evs & Hw & Hall).
  exists evs. split; [done|]. split; [done|]. intros e He.
  destruct (findProjectData DOMAIN_URL respond project w) as [r w'] eqn:E. cbn in He. subst r.
  by eapply findProjectData_throws.
Qed.

(** X15: a snapshot never lists a graph whose context ends in [acl] or in
    [meta]; in particular it lists no [.meta] companion of any resource
    and no project's [/.acl] graph. *)
Theorem snapshot_leaves_out_companions project w d w' :
  findProjectData DOMAIN_URL respond project w = (Ok d, w') →
  (∀ ctx, endsWith ctx "acl" = true ∨ endsWith ctx "meta" = true →
          d_graphs d !! ctx = None) ∧
  (∀ resource, d_graphs d !! (resource +:+ ".meta") = None) ∧
  (∀ id, d_graphs d !! project_acl DOMAIN_URL id = None).
Proof.
  intros H.
  assert (∀ ctx, endsWith ctx "acl" = true ∨ endsWith ctx "meta" = true →
                 d_graphs d !! ctx = None) as Hout.
  { unfold findProjectData in H. monad_unfold. cbn in H.
    destruct (respond (trace w) (GetNamedGraph _ project)) as [g|?] eqn:H0; [|done].
    destruct (respond _ (GetAllNamedGraphs project)) as [named|?] eqn:H1; [|done].
    destruct (respond _ (FileFind _)) as [fs|?] eqn:H2; [|done].
    destruct fs as [| | | |urls| |]; try done.
    destruct (collect_documents _ _ _ _ _) as [[docs|?] w1] eqn:Hd; [|done].
    destruct named as [| | |contexts| | |]; try done.
    destruct (collect_graphs _ _ _ _ _) as [[graphs|?] w2] eqn:Hg; [|done].
    injection H as <- <-. simpl.
    apply collect_graphs_spec in Hg as (_ & Hg1 & _).
    intros ctx Hsuffix. apply eq_None_not_Some. rewrite Hg1, lookup_empty.
    intros [[? ?]|[_ Hl]]; [done|]. apply listed_iff in Hl as [Hl _].
    apply andb_true_iff in Hl as [Ha Hm]. apply negb_true_iff in Ha, Hm.
    destruct Hsuffix; congruence. }
  split; [done|]. split.
  - intros resource. apply Hout. right.
    change ".meta" with ("." +:+ "meta"). rewrite <- append_assoc. apply endsWith_append.
  - intros id. apply Hout. left. unfold project_acl.
    change "/.acl" with ("/." +:+ "acl"). rewrite <- !append_assoc. apply endsWith_append.
Qed.

Lemma collect_projects_ok names : ∀ acc w ps w',
  collect_projects DOMAIN_URL respond names acc w = (Ok ps, w') →
  ∃ ds, ps = acc ++ ds ∧
        Forall2 (λ p d, ∃ w1 w2, findProjectData DOMAIN_URL respond p w1 = (Ok d, w2))
          names ds.
Proof.
  induction names as [|p rest IH]; intros acc w ps w' H.
  - injection H as <- <-. exists []. by rewrite app_nil_r.
  - cbn [collect_projects] in H. unfold mbind, M_bind in H.
    destruct (findProjectData DOMAIN_URL respond p w) as [[d|?] w1] eqn:Hd; [|done].
    apply IH in H as (ds & -> & Hall). exists (d :: ds). rewrite <- app_assoc.
    split; [done|]. constructor; [by exists w, w1|done].
Qed.

Lemma collect_projects_throws names : ∀ acc w e w',
  collect_projects DOMAIN_URL respond names acc w = (Throw e, w') →
  ∃ p cause, p ∈ names ∧
    e = JsError ("Could not find project data for project with id " +:+ p +:+ "; " +:+ cause).
Proof.
  induction names as [|p rest IH]; intros acc w e w' H; [done|].
  cbn [collect_projects] in H. unfold mbind, M_bind in H.
  destruct (findProjectData DOMAIN_URL respond p w) as [[d|?] w1] eqn:Hd.
  - apply IH in H as (p' & cause & Hin & ->). exists p', cause. split; [by right|done].
  - injection H as <- <-. apply findProjectData_throws in Hd as [cause ->].
    exists p, cause. split; [by left|done].
Qed.

Lemma collect_projects_calls names : ∀ acc,
  calls_only (λ c, reads c = true) (collect_projects DOMAIN_URL respond names acc).
Proof.
  induction names as [|p rest IH]; intros acc; cbn [collect_projects]; [calls|].
  apply calls_bind; [apply findProjectData_calls|]. intros data. apply IH.
Qed.

(** X16: when getAllProjects returns, there is a principal and the result
    has one snapshot for each entry of the principal's project list, in
    the order of the list and with repetitions, each one a result of
    findProjectData for that entry; and the run has only read. *)
Theorem getAllProjects_lists_owned req w ps w' :
  getAllProjects DOMAIN_URL respond req w = (Ok ps, w') →
  ∃ u evs,
    principal w = Some u ∧
    d_id <$> ps = projects u ∧
    Forall2 (λ p d, ∃ w1 w2, findProjectData DOMAIN_URL respond p w1 = (Ok d, w2))
      (projects u) ps ∧
    w' = World (trace w ++ evs) (principal w) (writeCommands w) ∧
    Forall (λ ev : event, reads (fst ev) = true) evs.
Proof.
  unfold getAllProjects. intros H. monad_unfold.
  destruct (principal w) as [u|] eqn:Hu; [|done].
  destruct (collect_projects DOMAIN_URL respond (projects u) [] w) as [[ds|?] w1] eqn:Hc;
    [|done].
  injection H as <- <-.
  destruct (collect_projects_calls (projects u) [] w) as (evs & Hw & Hall).
  rewrite Hc in Hw. cbn in Hw. rewrite Hu in Hw.
  apply collect_projects_ok in Hc as (ds' & -> & Hds). cbn. cbn in Hds.
  exists u, evs. split; [done|]. split; [|done].
  clear Hw. induction Hds as [|p d names ds (w1' & w2 & Hd) _ IH]; [done|].
  cbn. rewrite IH. by rewrite (findProjectData_id _ _ _ _ Hd).
Qed.

(** X17: one project whose snapshot fails makes the whole listing fail.
    When getAllProjects throws, either there was no principal, no store
    was called and the cause is the TypeError of reading [projects] off
    it; or the error names an entry of the principal's project list:
    [Could not retrieve all projects; Could not find project data for
    project with id <entry>; <cause>]. *)
Theorem getAllProjects_failure req w e w' :
  getAllProjects DOMAIN_URL respond req w = (Throw e, w') →
  (principal w = None ∧ w' = w ∧
   e = JsError ("Could not retrieve all projects; " +:+ message (type_error "projects"))) ∨
  ∃ u p cause,
    principal w = Some u ∧ p ∈ projects u ∧
    e = JsError ("Could not retrieve all projects; Could not find project data for project with id " +:+
                 p +:+ "; " +:+ cause).
Proof.
  unfold getAllProjects. intros H. monad_unfold.
  destruct (principal w) as [u|] eqn:Hu.
  - right. destruct (collect_projects DOMAIN_URL respond (projects u) [] w) as [[ds|?] w1] eqn:Hc;
      [done|].
    injection H as <- <-. apply collect_projects_throws in Hc as (p & cause & Hin & ->).
    by exists u, p, cause.
  - left. by injection H as <- <-.
Qed.

Lemma queryProject_calls req :
  calls_only (read_or_gated_query req) (queryProject respond req).
Proof.
  intros w. destruct (String.eqb (method req) "GET") eqn:Hm.
  - apply String.eqb_eq in Hm. destruct (query req) as [q|] eqn:Hq.
    + rewrite (queryProject_get respond req w q Hm Hq).
      destruct (JsString.encodeURIComponent q) as [e|] eqn:He.
      * destruct (read_gate q e) eqn:Hg.
        -- eexists [_]. split; [reflexivity|]. constructor; [|done]. right. by exists q, e.
        -- exists []. rewrite app_nil_r. by destruct w.
      * exists []. rewrite app_nil_r. by destruct w.
    + unfold queryProject. monad_unfold. rewrite Hq.
      replace (String.eqb (method req) "GET") with true by (symmetry; by apply String.eqb_eq).
      cbn. exists []. rewrite app_nil_r. by destruct w.
  - unfold queryProject. monad_unfold. rewrite Hm. exists []. rewrite app_nil_r. by destruct w.
Qed.

(** X18: getOneProject never sends a query past the read gate.  Whatever
    the stores answer, every call it makes is a read of the snapshot or
    the percent-encoded query of a GET request that has passed the read
    gate, sent to the repository of the requested project; the principal
    and the saga record are left alone. *)
Theorem getOneProject_dispatches_only_gated_queries permissions req w :
  ∃ evs,
    snd (getOneProject DOMAIN_URL respond permissions req w) =
      World (trace w ++ evs) (principal w) (writeCommands w) ∧
    Forall (λ ev : event, read_or_gated_query req (fst ev)) evs.
Proof.
  revert w. change (calls_only (read_or_gated_query req)
                      (getOneProject DOMAIN_URL respond permissions req)).
  unfold getOneProject, array_from.
  apply calls_try_catch; [|intros ?; calls].
  apply calls_bind.
  { eapply calls_weaken; [|apply findProjectData_calls]. intros c Hc. by left. }
  intros d. apply calls_bind; [calls|]. intros l.
  destruct (truthy_query _); [|calls].
  apply calls_bind; [apply queryProject_calls|]. intros v. calls.
Qed.

(** X19: what getOneProject returns is the snapshot of the requested
    project, taken first, together with the permissions of the request.
    Without a query, or with an empty one, it has no query results and
    queryProject is not run.  With a query it has the results of
    queryProject, run after the snapshot; for a request that is not a GET
    these results are [undefined] and nothing was dispatched. *)
Theorem getOneProject_results permissions req w o w' :
  getOneProject DOMAIN_URL respond permissions req w = (Ok o, w') →
  ∃ w1,
    findProjectData DOMAIN_URL respond (projectName req) w = (Ok (o_data o), w1) ∧
    permissions = Some (o_permissions o) ∧
    match query req with
    | Some (_ :: _) =>
        ∃ results, o_queryResults o = Some results ∧
                   queryProject respond req w1 = (Ok results, w') ∧
                   (method req ≠ "GET" → results = VUndefined ∧ w' = w1)
    | _ => o_queryResults o = None ∧ w' = w1
    end.
Proof.
  unfold getOneProject, array_from. intros H. monad_unfold.
  destruct (findProjectData _ _ _ w) as [[d|?] w1] eqn:Hd; [|done].
  exists w1. destruct permissions as [l|]; [|done]. cbn in H.
  destruct (query req) as [[|c q]|] eqn:Hq; cbn in H.
  - by injection H as <- <-.
  - destruct (queryProject respond req w1) as [[results|?] w2] eqn:Hr; [|done].
    injection H as <- <-. cbn. split; [done|]. split; [done|].
    exists results. split; [done|]. split; [done|].
    intros Hm. apply String.eqb_neq in Hm. unfold queryProject in Hr. monad_unfold.
    rewrite Hm in Hr. by injection Hr as <- <-.
  - by injection H as <- <-.
Qed.

(** X20: getNamedGraph has no read gate.  A request with a non-empty query
    and without [onlyPermissions] gets the text that adaptQuery returns
    sent to the repository, whatever its method and whatever the text;
    when the store answers, the response is 200 with that text and the
    results.  The same request, as a GET whose text has [insert] or
    [delete] in it, is rejected by queryProject. *)
Theorem getNamedGraph_query_is_not_gated graphId permissions req w c q q' :
  let p := projectName req in
  let namedGraph := DOMAIN_URL +:+ "/lbd/" +:+ p +:+ "/graphs/" +:+ graphId in
  let sent := QueryRepository p q' in
  query req = Some (c :: q) →
  adaptQuery (c :: q) [namedGraph] = Ok q' →
  snd (getNamedGraph DOMAIN_URL respond adaptQuery graphId false permissions req w) =
    record (sent, respond (trace w) sent) w ∧
  (∀ results, respond (trace w) sent = Ok results →
     fst (getNamedGraph DOMAIN_URL respond adaptQuery graphId false permissions req w) =
       Ok (GraphResponse 200 (GQuery q' results))) ∧
  (method req = "GET" →
   JsString.includes (JsString.toLowerCase (c :: q)) tok_insert = true ∨
   JsString.includes (JsString.toLowerCase (c :: q)) tok_delete = true →
   rejected respond req w).
Proof.
  intros p namedGraph sent Hq Ha. subst sent. unfold getNamedGraph, lift. monad_unfold.
  rewrite Hq. fold p. fold namedGraph. rewrite Ha. cbn.
  split; [|split].
  - destruct (respond (trace w) _) as [v|e]; [done|]. unfold getNamedGraph_catch. cbn.
    destruct e as [|reason ?]; [done|]. by destruct (String.eqb reason "").
  - by intros results ->.
  - intros Hm Htok. unfold rejected. rewrite (queryProject_get respond req w _ Hm Hq).
    destruct (JsString.encodeURIComponent (c :: q)) as [enc|] eqn:He; [|eauto].
    assert (read_gate (c :: q) enc = false) as ->; [|eauto].
    unfold read_gate. destruct Htok as [Ht|Ht].
    + rewrite (includes_encoded tok_insert (c :: q) enc); [|done|done|done].
      by rewrite andb_false_r.
    + rewrite (includes_encoded tok_delete (c :: q) enc); [|done|done|done].
      by rewrite andb_false_r.
Qed.

(** X21: getNamedGraph sends a graph back exactly when the request has
    neither [onlyPermissions] nor a non-empty query, the store returned
    for [DOMAIN/lbd/project/graphs/id] a value with a positive length,
    and the request carries permissions; the status is then 200 and that
    one read is the only store call.  An empty graph is never sent as a
    success. *)
Theorem getNamedGraph_serves_graph graphId onlyPermissions permissions req w st g perms w' :
  let p := projectName req in
  let namedGraph := DOMAIN_URL +:+ "/lbd/" +:+ p +:+ "/graphs/" +:+ graphId in
  getNamedGraph DOMAIN_URL respond adaptQuery graphId onlyPermissions permissions req w =
    (Ok (GraphResponse st (GGraph g perms)), w') ↔
  onlyPermissions = false ∧
  truthy_query (query req) = false ∧
  respond (trace w) (GetNamedGraph namedGraph p) = Ok g ∧
  has_length g = Ok true ∧
  permissions = Some perms ∧
  st = 200 ∧
  w' = record (GetNamedGraph namedGraph p, Ok g) w.
Proof.
  intros p namedGraph. unfold getNamedGraph, getNamedGraph_catch, array_from, lift.
  monad_unfold. fold p. fold namedGraph. split.
  - destruct onlyPermissions.
    { destruct permissions; cbn; [done|]. done. }
    assert (∀ e w0, (match e with
                     | JsError msg => λ w1, (Ok (GraphResponse 500 (GError (Some msg))), w1)
                     | JsThrown reason status =>
                         if negb (String.eqb reason "")
                         then λ w1, (Ok (GraphResponse status (GError (Some reason))), w1)
                         else λ w1, (Ok (GraphResponse 500 (GError None)), w1)
                     end) w0 ≠ (Ok (GraphResponse st (GGraph g perms)), w')) as Hcatch.
    { intros [|reason ?] w0; [done|]. by destruct (negb _). }
    destruct (query req) as [[|c q]|] eqn:Hq; cbn.
    + destruct (respond (trace w) _) as [g'|e] eqn:Hr; cbn; [|intros H; by apply Hcatch in H].
      destruct (has_length g') as [[]|e] eqn:Hl; cbn; try done.
      * destruct permissions; cbn; [|done]. by intros [= <- <- <- <-].
      * intros H; by apply Hcatch in H.
    + destruct (adaptQuery _ _) as [q'|e]; cbn; [|intros H; by apply Hcatch in H].
      destruct (respond (trace w) _) as [v|e] eqn:Hr; cbn; [done|intros H; by apply Hcatch in H].
    + destruct (respond (trace w) _) as [g'|e] eqn:Hr; cbn; [|intros H; by apply Hcatch in H].
      destruct (has_length g') as [[]|e] eqn:Hl; cbn; try done.
      * destruct permissions; cbn; [|done]. by intros [= <- <- <- <-].
      * intros H; by apply Hcatch in H.
  - intros (-> & Hq & Hr & Hl & -> & -> & ->).
    destruct (query req) as [[|c q]|]; try done; cbn; rewrite Hr; cbn; by rewrite Hl.
Qed.

End Reading.

(** ** The public listing *)

Section Public.
Variable DOMAIN_URL : string.
Variable respond : list event → call → result jsval.
Variable findAllProjectDocuments : result (list (string * string)).
Variable queryPermissions : option user → string → string → result (list string).

Lemma collect_public_ok documents : ∀ acc w ps w',
  collect_public DOMAIN_URL respond queryPermissions documents acc w = (Ok ps, w') →
  ∃ ds, ps = acc ++ ds ∧
        d_id <$> ds = snd <$> List.filter (publicly_readable queryPermissions) documents.
Proof.
  induction documents as [|[url id] rest IH]; intros acc w ps w' H.
  - injection H as <- <-. exists []. by rewrite app_nil_r.
  - cbn [collect_public] in H. unfold mbind, M_bind, lift in H.
    cbn [List.filter]. unfold publicly_readable at 1. cbn [fst snd].
    destruct (queryPermissions None (url +:+ "/.acl") id) as [permissions|?]; [|done].
    destruct (bool_decide _).
    + destruct (findProjectData DOMAIN_URL respond id w) as [[d|?] w1] eqn:Hd; [|done].
      apply IH in H as (ds & -> & Hids). exists (d :: ds). rewrite <- app_assoc.
      split; [done|]. cbn. by rewrite Hids, (findProjectData_id _ _ _ _ _ _ Hd).
    + by apply IH in H.
Qed.

Lemma collect_public_calls documents : ∀ acc,
  calls_only (λ c, reads c = true)
    (collect_public DOMAIN_URL respond queryPermissions documents acc).
Proof.
  induction documents as [|[url id] rest IH]; intros acc; cbn [collect_public]; [calls|].
  apply calls_bind.
  { unfold lift. intros w. exists []. by rewrite app_nil_r, world_eta. }
  intros permissions. destruct (bool_decide _); [|apply IH].
  apply calls_bind; [apply findProjectData_calls|]. intros data. apply IH.
Qed.

(** X22: when getPublicProjects returns, the result has the snapshots of
    exactly those project documents for which the anonymous agent is
    granted [acl:Read] on [<url>/.acl], in the order of the document
    store; for a project document whose URL is [DOMAIN/lbd/id] that graph
    is the ACL graph that createProject writes.  The run has only read
    the stores. *)
Theorem getPublicProjects_lists_readable w ps w' :
  getPublicProjects DOMAIN_URL respond findAllProjectDocuments queryPermissions w =
    (Ok ps, w') →
  ∃ documents evs,
    findAllProjectDocuments = Ok documents ∧
    d_id <$> ps = snd <$> List.filter (publicly_readable queryPermissions) documents ∧
    (∀ id, (DOMAIN_URL +:+ "/lbd/" +:+ id) +:+ "/.acl" = project_acl DOMAIN_URL id) ∧
    w' = World (trace w ++ evs) (principal w) (writeCommands w) ∧
    Forall (λ ev : event, reads (fst ev) = true) evs.
Proof.
  unfold getPublicProjects. intros H. monad_unfold. unfold lift in H.
  destruct findAllProjectDocuments as [documents|] eqn:Hdocs; [|done].
  destruct (collect_public _ _ _ documents [] w) as [[ds|?] w1] eqn:Hc; [|done].
  injection H as <- <-.
  destruct (collect_public_calls documents [] w) as (evs & Hw & Hall).
  rewrite Hc in Hw. cbn in Hw.
  apply collect_public_ok in Hc as (ds' & -> & Hids).
  exists documents, evs. split; [done|]. split; [done|]. split; [|done].
  intros id. unfold project_acl. by rewrite !append_assoc.
Qed.

End Public.

(** ** The read gate, exactly *)

Section Exact.
Import JsString.

Lemma lower_hex_digit n :
  0 ≤ n < 16 →
  (48 ≤ lower_unit (hex_digit n) ≤ 57 ∨ 97 ≤ lower_unit (hex_digit n) ≤ 102) ∧
  (lower_unit (hex_digit n) = 100 ↔ n = 13).
Proof.
  intros Hn. unfold lower_unit, hex_digit.
  destruct (n <? 10) eqn:E1; [apply Z.ltb_lt in E1|apply Z.ltb_ge in E1].
  - destruct ((65 <=? 48 + n) && (48 + n <=? 90)) eqn:E2.
    + apply andb_true_iff in E2 as [E2 _]. apply Z.leb_le in E2. lia.
    + lia.
  - destruct ((65 <=? 55 + n) && (55 + n <=? 90)) eqn:E2.
    + lia.
    + apply andb_false_iff in E2 as [E2|E2]; [apply Z.leb_gt in E2|apply Z.leb_gt in E2]; lia.
Qed.

Lemma lor_bound n a b : 0 ≤ n → 0 ≤ a < 2 ^ n → 0 ≤ b < 2 ^ n → 0 ≤ Z.lor a b < 2 ^ n.
Proof.
  intros Hn Ha Hb.
  assert (Z.lor a b = Z.lor a b mod 2 ^ n) as ->.
  { rewrite <- Z.land_ones by done. rewrite Z.land_lor_distr_l.
    rewrite !Z.land_ones by done. by rewrite !Z.mod_small. }
  apply Z.mod_pos_bound. by apply Z.pow_pos_nonneg.
Qed.

Lemma land_bound a k : 0 ≤ k → 0 ≤ Z.land a (Z.ones k) < 2 ^ k.
Proof.
  intros Hk. rewrite Z.land_ones by done. apply Z.mod_pos_bound. by apply Z.pow_pos_nonneg.
Qed.

Lemma shiftr_bound a k n : 0 ≤ k → 0 ≤ a < 2 ^ (n + k) → 0 ≤ n → 0 ≤ Z.shiftr a k < 2 ^ n.
Proof.
  intros Hk Ha Hn. rewrite Z.shiftr_div_pow2 by done. split.
  - apply Z.div_pos; [lia|]. by apply Z.pow_pos_nonneg.
  - apply Z.div_lt_upper_bound; [by apply Z.pow_pos_nonneg|].
    rewrite <- Z.pow_add_r by done. rewrite (Z.add_comm k n). lia.
Qed.

(** A continuation octet of UTF-8 is below C0 and keeps the low nibble of
    the code point. *)
Lemma continuation_octet x :
  0 ≤ Z.lor 128 (Z.land x 63) < 192 ∧ Z.land (Z.lor 128 (Z.land x 63)) 15 = Z.land x 15.
Proof.
  split.
  - pose proof (land_bound x 6 ltac:(lia)) as H. change (Z.ones 6) with 63 in H.
    change (2 ^ 6) with 64 in H.
    assert (Z.lor 128 (Z.land x 63) = 128 + Z.land x 63) as ->; [|lia].
    rewrite <- Z.add_nocarry_lor; [done|].
    apply Z.bits_inj'. intros i Hi. rewrite Z.land_spec, Z.bits_0.
    destruct (decide (i = 7)) as [->|Hne].
    + rewrite Z.land_spec. change (Z.testbit 63 7) with false. by rewrite andb_false_r.
    + assert (Z.testbit 128 i = false) as ->; [|done].
      change 128 with (2 ^ 7). apply Z.pow2_bits_false. lia.
  - rewrite Z.land_lor_distr_l. change (Z.land 128 15) with 0.
    rewrite Z.lor_0_l, <- Z.land_assoc. done.
Qed.

Lemma utf8_octets cp : 0 ≤ cp < 0x110000 → Forall octet (utf8 cp).
Proof.
  intros Hcp. unfold utf8, octet.
  assert (∀ x, 0 ≤ Z.lor 128 (Z.land x 63) < 256) as Hcont.
  { intros x. pose proof (continuation_octet x). lia. }
  destruct (cp <? 128) eqn:E1; [apply Z.ltb_lt in E1|apply Z.ltb_ge in E1].
  { repeat constructor; lia. }
  destruct (cp <? 2048) eqn:E2; [apply Z.ltb_lt in E2|apply Z.ltb_ge in E2].
  { repeat constructor; try apply Hcont.
    - apply (lor_bound 8); [lia|lia|]. pose proof (shiftr_bound cp 6 5). lia.
    - apply (lor_bound 8); [lia|lia|]. pose proof (shiftr_bound cp 6 5). lia. }
  destruct (cp <? 65536) eqn:E3; [apply Z.ltb_lt in E3|apply Z.ltb_ge in E3].
  { repeat constructor; try apply Hcont.
    - apply (lor_bound 8); [lia|lia|]. pose proof (shiftr_bound cp 12 4). lia.
    - apply (lor_bound 8); [lia|lia|]. pose proof (shiftr_bound cp 12 4). lia. }
  repeat constructor; try apply Hcont.
  - apply (lor_bound 8); [lia|lia|]. pose proof (shiftr_bound cp 18 5). lia.
  - apply (lor_bound 8); [lia|lia|]. pose proof (shiftr_bound cp 18 5). lia.
Qed.

Lemma utf8_last cp :
  0 ≤ cp < 0x110000 →
  ∃ init lb, utf8 cp = init ++ [lb] ∧ 0 ≤ lb < 192 ∧ Z.land lb 15 = Z.land cp 15.
Proof.
  intros Hcp. unfold utf8.
  destruct (cp <? 128) eqn:E1; [apply Z.ltb_lt in E1|].
  { exists [], cp. split; [done|]. split; [lia|done]. }
  destruct (cp <? 2048); [|destruct (cp <? 65536)].
  - eexists [_], _. split; [reflexivity|]. apply continuation_octet.
  - eexists [_; _], _. split; [reflexivity|]. apply continuation_octet.
  - eexists [_; _; _], _. split; [reflexivity|]. apply continuation_octet.
Qed.

Lemma octet_digits b :
  octet b → 0 ≤ Z.shiftr b 4 < 16 ∧ 0 ≤ Z.land b 15 < 16.
Proof.
  intros Hb. split; [apply (shiftr_bound b 4 4); unfold octet in Hb; lia|].
  apply (land_bound b 4). lia.
Qed.

Lemma escape_code_point_head cp : ∃ t, escape_code_point cp = 37 :: t.
Proof.
  unfold escape_code_point, utf8.
  destruct (cp <? 128); [|destruct (cp <? 2048); [|destruct (cp <? 65536)]];
    eexists; reflexivity.
Qed.

Lemma lower_letter_not_escaped c x :
  lower_letter x = true → unreserved c = false → (x =? lower_unit c) = false.
Proof.
  intros Hx Hc. apply Z.eqb_neq. intros ->.
  apply lower_letter_unreserved in Hx. congruence.
Qed.

Lemma lower_letter_not_percent x : lower_letter x = true → (x =? 37) = false.
Proof.
  unfold lower_letter. intros H. apply andb_true_iff in H as [H _].
  apply Z.leb_le in H. apply Z.eqb_neq. lia.
Qed.

Lemma startsWith_cons y s x tok :
  startsWith (y :: s) (x :: tok) = (x =? y) && startsWith s tok.
Proof. done. Qed.

Lemma startsWith_delete y s :
  startsWith (y :: s) tok_delete = (100 =? y) && startsWith s tok_elete.
Proof. done. Qed.

Lemma includes_cons c s tok :
  includes (c :: s) tok = startsWith (c :: s) tok || includes s tok.
Proof. done. Qed.

(** A word of lower-case letters starts the encoded text exactly when it
    starts the text. *)
Lemma startsWith_decoded tok :
  forallb lower_letter tok = true →
  ∀ q e, encodeURIComponent q = Some e →
         startsWith (toLowerCase e) tok = startsWith (toLowerCase q) tok.
Proof.
  induction tok as [|x tok IH]; intros Htok q e He; [done|].
  simpl in Htok. apply andb_true_iff in Htok as [Hx Htok].
  destruct q as [|c r]; [simpl in He; by injection He as <-|].
  simpl in He. destruct (unreserved c) eqn:Hu.
  { destruct (encodeURIComponent r) as [e'|] eqn:Hr; [|done].
    injection He as <-. simpl. by rewrite (IH Htok r e'). }
  assert (∀ cp e', startsWith (toLowerCase (escape_code_point cp ++ e')) (x :: tok) = false)
    as Hesc.
  { intros cp e'. destruct (escape_code_point_head cp) as [t ->]. simpl.
    change (lower_unit 37) with 37. by rewrite (lower_letter_not_percent x Hx). }
  simpl. rewrite (lower_letter_not_escaped c x Hx Hu). simpl.
  destruct (is_low_surrogate c); [done|].
  destruct (is_high_surrogate c).
  - destruct r as [|d r']; [done|]. destruct (is_low_surrogate d); [|done].
    destruct (encodeURIComponent r') as [e'|]; [|done]. injection He as <-. apply Hesc.
  - destruct (encodeURIComponent r) as [e'|]; [|done]. injection He as <-. apply Hesc.
Qed.

(** The escape of a sequence of octets has no word that begins with a
    letter after [f]. *)
Lemma includes_escapes_other x tok bs rest :
  lower_letter x = true → 102 < x →
  Forall octet bs →
  includes (toLowerCase (concat (escape_octet <$> bs)) ++ rest) (x :: tok) =
    includes rest (x :: tok).
Proof.
  intros Hx Hf Hbs. induction Hbs as [|b bs Hb _ IH]; [done|].
  destruct (octet_digits b Hb) as [H1 H2].
  destruct (lower_hex_digit _ H1) as [R1 _]. destruct (lower_hex_digit _ H2) as [R2 _].
  change (includes (37 :: lower_unit (hex_digit (Z.shiftr b 4)) ::
                    lower_unit (hex_digit (Z.land b 15)) ::
                    (toLowerCase (concat (escape_octet <$> bs)) ++ rest)) (x :: tok) =
          includes rest (x :: tok)).
  rewrite !includes_cons, !startsWith_cons.
  rewrite (lower_letter_not_percent x Hx).
  assert ((x =? lower_unit (hex_digit (Z.shiftr b 4))) = false) as -> by (apply Z.eqb_neq; lia).
  assert ((x =? lower_unit (hex_digit (Z.land b 15))) = false) as -> by (apply Z.eqb_neq; lia).
  cbn [andb orb]. apply IH.
Qed.

(** Inside the escape of a code point, [delete] can only start at the last
    hexadecimal digit. *)
Lemma includes_escapes_delete init lb rest :
  0 ≤ lb < 192 →
  includes (toLowerCase (concat (escape_octet <$> (init ++ [lb]))) ++ rest) tok_delete =
    (Z.land lb 15 =? 13) && startsWith rest tok_elete || includes rest tok_delete.
Proof.
  intros Hlb. induction init as [|b init IH].
  - assert (octet lb) as Hb by (unfold octet; lia).
    destruct (octet_digits lb Hb) as [H1 H2].
    assert (Z.shiftr lb 4 < 12) as H1'.
    { pose proof (shiftr_bound lb 4 4). rewrite Z.shiftr_div_pow2 by lia.
      apply Z.div_lt_upper_bound; [done|]. change (2 ^ 4 * 12) with 192. lia. }
    destruct (lower_hex_digit _ H1) as [_ D1]. destruct (lower_hex_digit _ H2) as [_ D2].
    change (includes (37 :: lower_unit (hex_digit (Z.shiftr lb 4)) ::
                      lower_unit (hex_digit (Z.land lb 15)) :: rest) tok_delete =
            (Z.land lb 15 =? 13) && startsWith rest tok_elete || includes rest tok_delete).
    rewrite !includes_cons, !startsWith_delete.
    change (100 =? 37) with false.
    assert ((100 =? lower_unit (hex_digit (Z.shiftr lb 4))) = false) as ->.
    { apply Z.eqb_neq. intros H. symmetry in H. apply D1 in H. lia. }
    assert ((100 =? lower_unit (hex_digit (Z.land lb 15))) = (Z.land lb 15 =? 13)) as ->.
    { destruct (Z.eqb_spec (Z.land lb 15) 13) as [E|E].
      - apply Z.eqb_eq. symmetry. by apply D2.
      - apply Z.eqb_neq. intros H. symmetry in H. by apply D2 in H. }
    cbn [andb orb]. done.
  - assert (∃ T, toLowerCase (concat (escape_octet <$> (init ++ [lb]))) ++ rest = 37 :: T)
      as [T HT] by (destruct init; eexists; reflexivity).
    change (includes (37 :: lower_unit (hex_digit (Z.shiftr b 4)) ::
                      lower_unit (hex_digit (Z.land b 15)) ::
                      (toLowerCase (concat (escape_octet <$> (init ++ [lb]))) ++ rest))
              tok_delete =
            (Z.land lb 15 =? 13) && startsWith rest tok_elete || includes rest tok_delete).
    rewrite <- IH. rewrite HT. rewrite !includes_cons, !startsWith_delete.
    assert (∀ y, startsWith (y :: 37 :: T) tok_elete = false) as Hy.
    { intros y. change tok_elete with [101; 108; 101; 116; 101].
      rewrite !startsWith_cons. change (108 =? 37) with false. by rewrite andb_false_r. }
    assert (startsWith (37 :: T) tok_elete = false) as H37 by done.
    rewrite Hy, H37. change (100 =? 37) with false.
    by rewrite !andb_false_r.
Qed.

Lemma code_units_cons c r :
  code_units (c :: r) = true → 0 ≤ c < 65536 ∧ code_units r = true.
Proof.
  unfold code_units. simpl. rewrite !andb_true_iff, Z.leb_le, Z.ltb_lt. tauto.
Qed.

Lemma surrogate_pair_range hi lo :
  is_high_surrogate hi = true → is_low_surrogate lo = true →
  0 ≤ surrogate_pair hi lo < 0x110000 ∧
  Z.land (surrogate_pair hi lo) 15 = Z.land lo 15.
Proof.
  unfold is_high_surrogate, is_low_surrogate, surrogate_pair.
  rewrite !andb_true_iff, !Z.leb_le. intros [H1 H2] [L1 L2]. split; [lia|].
  change 15 with (Z.ones 4). rewrite !Z.land_ones by lia.
  replace ((hi - 55296) * 1024 + (lo - 56320) + 65536)
    with (lo + ((hi - 55296) * 64 + 576) * 2 ^ 4) by lia.
  by rewrite Z.mod_add.
Qed.

Lemma low_surrogate_escaped d : is_low_surrogate d = true → unreserved d = false.
Proof.
  intros Hd. destruct (unreserved d) eqn:E; [|done].
  unfold is_low_surrogate in Hd. apply andb_true_iff in Hd as [L1 L2].
  apply Z.leb_le in L1, L2. unfold unreserved, is_alpha, is_digit, is_mark in E.
  simpl in E. rewrite !orb_true_iff, !andb_true_iff, !Z.leb_le, !Z.eqb_eq in E. lia.
Qed.

(** What the encoding does to the occurrences of [delete]. *)
Lemma includes_encoded_delete_upto :
  ∀ n q e, (length q ≤ n)%nat →
           code_units q = true →
           encodeURIComponent q = Some e →
           includes (toLowerCase e) tok_delete =
             includes (toLowerCase q) tok_delete || escape_completes_delete q.
Proof.
  assert (forallb lower_letter tok_elete = true) as Hel by done.
  induction n as [|n IH]; intros q e Hn Hq He.
  { destruct q; [|simpl in Hn; lia]. simpl in He. by injection He as <-. }
  destruct q as [|c r]; [simpl in He; by injection He as <-|].
  simpl in Hn. apply code_units_cons in Hq as [Hc Hr].
  cbn [escape_completes_delete].
  simpl in He. destruct (unreserved c) eqn:Hu.
  { destruct (encodeURIComponent r) as [e'|] eqn:Hr'; [|done].
    injection He as <-.
    change (toLowerCase (c :: e')) with (lower_unit c :: toLowerCase e').
    change (toLowerCase (c :: r)) with (lower_unit c :: toLowerCase r).
    rewrite !includes_cons. rewrite (IH r e') by (done || lia).
    rewrite !startsWith_delete.
    rewrite (startsWith_decoded tok_elete Hel r e' Hr').
    cbn [negb andb orb]. by rewrite orb_assoc. }
  assert ((100 =? lower_unit c) = false) as Hd by (by apply lower_letter_not_escaped).
  destruct (is_low_surrogate c) eqn:Hlow; [done|].
  destruct (is_high_surrogate c) eqn:Hhigh.
  - destruct r as [|d r']; [done|]. destruct (is_low_surrogate d) eqn:Hd'; [|done].
    destruct (encodeURIComponent r') as [e'|] eqn:Hr'; [|done]. injection He as <-.
    apply code_units_cons in Hr as [Hdr Hr].
    destruct (surrogate_pair_range c d Hhigh Hd') as [Hcp Hland].
    destruct (utf8_last _ Hcp) as (init & lb & Hutf & Hlb & Hlast).
    unfold escape_code_point. rewrite Hutf, toLowerCase_app, includes_escapes_delete by done.
    rewrite (IH r' e') by (done || simpl in Hn; lia).
    rewrite (startsWith_decoded tok_elete Hel r' e' Hr'), Hlast, Hland.
    change (toLowerCase (c :: d :: r')) with (lower_unit c :: lower_unit d :: toLowerCase r').
    rewrite !includes_cons. cbn [escape_completes_delete].
    pose proof (low_surrogate_escaped d Hd') as Hud.
    assert ((100 =? lower_unit d) = false) as Hdd by (by apply lower_letter_not_escaped).
    change (toLowerCase (d :: r')) with (lower_unit d :: toLowerCase r').
    assert (startsWith (lower_unit d :: toLowerCase r') tok_elete = false) as ->.
    { change tok_elete with [101; 108; 101; 116; 101]. rewrite startsWith_cons.
      by rewrite (lower_letter_not_escaped d 101 eq_refl Hud). }
    rewrite !startsWith_delete, Hd, Hdd, Hud.
    cbn [negb andb orb]. rewrite ?andb_false_r. cbn [orb].
    by destruct (Z.land d 15 =? 13), (startsWith (toLowerCase r') tok_elete),
      (includes (toLowerCase r') tok_delete), (escape_completes_delete r').
  - destruct (encodeURIComponent r) as [e'|] eqn:Hr'; [|done]. injection He as <-.
    assert (0 ≤ c < 0x110000) as Hcp by lia.
    destruct (utf8_last _ Hcp) as (init & lb & Hutf & Hlb & Hlast).
    unfold escape_code_point. rewrite Hutf, toLowerCase_app, includes_escapes_delete by done.
    rewrite (IH r e') by (done || lia).
    rewrite (startsWith_decoded tok_elete Hel r e' Hr'), Hlast.
    change (toLowerCase (c :: r)) with (lower_unit c :: toLowerCase r).
    rewrite !includes_cons, startsWith_delete, Hd.
    cbn [negb andb orb].
    by destruct (Z.land c 15 =? 13), (startsWith (toLowerCase r) tok_elete),
      (includes (toLowerCase r) tok_delete), (escape_completes_delete r).
Qed.

(** The encoding neither adds nor removes an occurrence of a word of
    lower-case letters that begins after [f]. *)
Lemma includes_encoded_other_upto x tok :
  lower_letter x = true → 102 < x → forallb lower_letter tok = true →
  ∀ n q e, (length q ≤ n)%nat →
           code_units q = true →
           encodeURIComponent q = Some e →
           includes (toLowerCase e) (x :: tok) = includes (toLowerCase q) (x :: tok).
Proof.
  intros Hx Hf Htok. induction n as [|n IH]; intros q e Hn Hq He.
  { destruct q; [|simpl in Hn; lia]. simpl in He. by injection He as <-. }
  destruct q as [|c r]; [simpl in He; by injection He as <-|].
  simpl in Hn. apply code_units_cons in Hq as [Hc Hr].
  simpl in He. destruct (unreserved c) eqn:Hu.
  { destruct (encodeURIComponent r) as [e'|] eqn:Hr'; [|done].
    injection He as <-.
    change (toLowerCase (c :: e')) with (lower_unit c :: toLowerCase e').
    change (toLowerCase (c :: r)) with (lower_unit c :: toLowerCase r).
    rewrite !includes_cons. rewrite (IH r e') by (done || lia).
    rewrite !startsWith_cons. by rewrite (startsWith_decoded tok Htok r e' Hr'). }
  assert ((x =? lower_unit c) = false) as Hd by (by apply lower_letter_not_escaped).
  destruct (is_low_surrogate c) eqn:Hlow; [done|].
  destruct (is_high_surrogate c) eqn:Hhigh.
  - destruct r as [|d r']; [done|]. destruct (is_low_surrogate d) eqn:Hd'; [|done].
    destruct (encodeURIComponent r') as [e'|] eqn:Hr'; [|done]. injection He as <-.
    apply code_units_cons in Hr as [Hdr Hr].
    destruct (surrogate_pair_range c d Hhigh Hd') as [Hcp Hland].
    unfold escape_code_point.
    rewrite toLowerCase_app, includes_escapes_other by (done || by apply utf8_octets).
    rewrite (IH r' e') by (done || simpl in Hn; lia).
    change (toLowerCase (c :: d :: r')) with (lower_unit c :: lower_unit d :: toLowerCase r').
    rewrite !includes_cons, !startsWith_cons, Hd.
    assert ((x =? lower_unit d) = false) as ->; [|done].
    apply Z.eqb_neq. intros ->. by rewrite (low_surrogate_not_letter d Hd') in Hx.
  - destruct (encodeURIComponent r) as [e'|] eqn:Hr'; [|done]. injection He as <-.
    unfold escape_code_point.
    rewrite toLowerCase_app, includes_escapes_other by (done || apply utf8_octets; lia).
    rewrite (IH r e') by (done || lia).
    change (toLowerCase (c :: r)) with (lower_unit c :: toLowerCase r).
    rewrite !includes_cons, !startsWith_cons. by rewrite Hd.
Qed.

Lemma includes_encoded_exact tok q e :
  forallb lower_letter tok = true →
  match tok with x :: _ => 102 <? x | [] => true end = true →
  code_units q = true →
  encodeURIComponent q = Some e →
  includes (toLowerCase e) tok = includes (toLowerCase q) tok.
Proof.
  destruct tok as [|x tok]; [intros; by rewrite !includes_nil|].
  intros Htok Hx Hq He. simpl in Htok. apply andb_true_iff in Htok as [H1 H2].
  apply Z.ltb_lt in Hx.
  by apply (includes_encoded_other_upto x tok H1 Hx H2 (length q) q e).
Qed.

Lemma includes_encoded_delete q e :
  code_units q = true →
  encodeURIComponent q = Some e →
  includes (toLowerCase e) tok_delete =
    includes (toLowerCase q) tok_delete || escape_completes_delete q.
Proof. intros Hq He. by apply (includes_encoded_delete_upto (length q) q e). Qed.

End Exact.

Section Gate.
Variable respond : list event → call → result jsval.

(** X23: the read gate, in terms of the text of the query.  A GET request
    is dispatched as a read exactly when its text can be encoded (it has no
    lone surrogate), its lower-cased text contains [select] and neither
    [insert] nor [delete], and no escaped character whose escape ends in
    the hexadecimal digit D (such as the equals sign, escaped as percent
    3D) is directly followed by [elete].  Percent-encoding neither creates
    nor hides an [insert]; that one pattern is the only way it creates a
    [delete].  A request that is not dispatched is rejected with an error,
    and no store is called. *)
Theorem queryProject_accepts_exactly req w q :
  method req = "GET" → query req = Some q → code_units q = true →
  (accepted_as_read respond req w ↔
     is_Some (JsString.encodeURIComponent q) ∧
     read_only_text q ∧
     escape_completes_delete q = false) ∧
  (¬ accepted_as_read respond req w → rejected respond req w).
Proof.
  intros Hm Hq Hu. unfold accepted_as_read, rejected, read_only_text.
  rewrite (queryProject_get respond req w q Hm Hq).
  assert (¬ ∃ e r, w = record (QueryRepository (projectName req) e, r) w) as Hno.
  { intros (e' & r & H). by apply symmetry, record_neq in H. }
  destruct (JsString.encodeURIComponent q) as [e|] eqn:He.
  2: { simpl. split; [|eauto]. split; [intros H; by apply Hno in H|]. by intros [[? [=]] _]. }
  assert (read_gate q e =
            JsString.includes (JsString.toLowerCase q) tok_select &&
            negb (JsString.includes (JsString.toLowerCase q) tok_insert) &&
            negb (JsString.includes (JsString.toLowerCase q) tok_delete ||
                  escape_completes_delete q)) as Hgate.
  { unfold read_gate.
    rewrite (includes_encoded_exact tok_insert q e) by done.
    by rewrite (includes_encoded_delete q e). }
  rewrite Hgate.
  destruct (JsString.includes (JsString.toLowerCase q) tok_select),
    (JsString.includes (JsString.toLowerCase q) tok_insert),
    (JsString.includes (JsString.toLowerCase q) tok_delete),
    (escape_completes_delete q); simpl.
  all: split; [|eauto; intros H; destruct H; eexists _, _; reflexivity].
  all: split; [try (intros H; by apply Hno in H)|try (intros (_ & (? & ? & ?) & ?); done)].
  all: try (intros _; eexists _, _; reflexivity).
  all: intros _; by repeat split.
Qed.

End Gate.

(** * The further properties on the concrete deployment *)

Import Incidents.

(** X2, on an example: the record write fails with a duplicate key. *)
Lemma createProject_failure_witness :
  ∃ e w',
    createProject domain meta doc_write_fails "p1" create_atrium (logged_in alice) =
      (Throw e, w') ∧
    ((principal (logged_in alice) = None ∧ w' = logged_in alice ∧
      e = JsError "You must be authenticated to create a new LBDserver Project") ∨
     ∃ u tr c cause undo,
       principal (logged_in alice) = Some u ∧
       doc_write_fails tr c = Throw cause ∧
       ((c ∈ [ CreateRepository (Some "Atrium") "p1";
               CreateProjectDoc "http://localhost:5000/lbd/p1" "p1";
               SaveUser (with_project "p1" u);
               CreateNamedGraph "p1"
                 (GraphData (Some "http://localhost:5000/lbd/p1.meta")
                    "http://localhost:5000/lbd/p1.meta"
                    (meta "http://localhost:5000/lbd/p1"
                       (Some (project_acl domain "p1")) (Some "Atrium") (Some "A hall"))
                    None None None) ] ∧
         e = JsError ("Failed to create Project; " +:+ message cause +:+
                      ". Undoing past operations: " +:+ undo)) ∨
        (c = CreateNamedGraph "p1"
               (GraphData (Some (project_acl domain "p1")) (project_acl domain "p1" +:+ "#")
                  (defaultAclData "p1" (with_project "p1" u) true) None None None) ∧
         e = JsError ("Failed to create Project; Failed creating the default ACL graph; " +:+
                      message cause +:+ ". Undoing past operations: " +:+ undo)))).
Proof.
  eexists _, _. split; [vm_compute; reflexivity|].
  exact (createProject_failure domain meta doc_write_fails "p1" create_atrium
           (logged_in alice) _ _ eq_refl).
Defined.

(** X4, on an example: the deletion of the project record fails. *)
Lemma deleteProject_failure_witness :
  ∃ e w',
    deleteProject domain doc_delete_fails delete_p1 (logged_in alice_p1) = (Throw e, w') ∧
    ∃ cause undo,
      e = JsError ("Failed to create Project with id p1; " +:+ cause +:+
                   ". Undoing past operations: " +:+ undo) ∧
      ((principal (logged_in alice_p1) = None ∧ cause = message (type_error "projects")) ∨
       ∃ u tr c err,
         principal (logged_in alice_p1) = Some u ∧ doc_delete_fails tr c = Throw err ∧
         cause = message err ∧
         c ∈ [SaveUser (without_project "p1" u); DeleteProjectDoc "p1"; DeleteRepository "p1"]).
Proof.
  eexists _, _. split; [vm_compute; reflexivity|].
  exact (deleteProject_failure domain doc_delete_fails delete_p1 (logged_in alice_p1) _ _ eq_refl).
Defined.

(** X6, on an example: the request refers to the team's ACL graph, which
    the store does not have. *)
Lemma setAcl_failure_witness :
  ∃ e w',
    setAcl reference_missing create_graph_with_reference anonymous = (Throw e, w') ∧
    ∃ cause,
      e = JsError ("Could not create ACL file; " +:+ cause) ∧
      ((req_files create_graph_with_reference = None ∧
        cause = message (type_error "acl") ∧ w' = anonymous) ∨
       ∃ fs, req_files create_graph_with_reference = Some fs ∧
         ((is_Some (f_acl fs) ∧ f_aclName fs = None ∧ w' = anonymous ∧
           cause = "When uploading a custom acl file, please set a context URL for it") ∨
          (f_acl fs = Some [] ∧ w' = anonymous ∧ cause = message (type_error "buffer")) ∨
          (∃ buffer rest err,
             f_acl fs = Some (buffer :: rest) ∧
             w' = record (CreateNamedGraph "p1"
                            (GraphData None "undefined#" buffer None None None),
                          Throw err) anonymous ∧
             cause = message err) ∨
          (∃ err, f_acl fs = None ∧
                  w' = record (GetNamedGraph team_acl "p1", Throw err) anonymous ∧
                  cause = "undefined"))).
Proof.
  eexists _, _. split; [vm_compute; reflexivity|].
  exact (setAcl_failure reference_missing create_graph_with_reference anonymous _ _ eq_refl).
Defined.

(** X8, on an example: the graph store refuses the meta-graph of a new
    graph of p1. *)
Lemma createNamedGraph_keeps_graph_without_meta_witness :
  let context := "http://localhost:5000/lbd/p1/graphs/g1" in
  let acl := Some "https://lbdserver.org/lbd/p1/.acl" in
  let listing : event := (GetAllNamedGraphs "p1", Ok (VBindings [])) in
  let graph : event :=
    (CreateNamedGraph "p1"
       (GraphData (Some context) (context +:+ "#") (blank_graph context) acl None None),
     Ok (VBool true)) in
  let metaGraph : event :=
    (CreateNamedGraph "p1"
       (GraphData (Some (context +:+ ".meta")) (context +:+ ".meta#")
          (meta context acl (Some "plan") None) None (Some "plan") None),
     Throw (JsError "repository unavailable")) in
  createNamedGraph domain meta handler meta_write_fails "g1" create_graph anonymous =
    (Ok (Response 500
           (PError "Could not create metadata graph with context http://localhost:5000/lbd/p1/graphs/g1; repository unavailable")),
     World [listing; graph; metaGraph] None []) ∧
  ∃ evs, [listing; graph; metaGraph] = evs ∧
         graph ∈ evs ∧
         Forall (λ ev : event, deletes (fst ev) = false) evs.
Proof.
  exact (createNamedGraph_keeps_graph_without_meta domain meta handler meta_write_fails
           "g1" create_graph anonymous [] (Some "https://lbdserver.org/lbd/p1/.acl")
           (record (GetAllNamedGraphs "p1", Ok (VBindings [])) anonymous) no_files
           (blank_graph "http://localhost:5000/lbd/p1/graphs/g1") (VBool true)
           (JsError "repository unavailable")
           eq_refl eq_refl eq_refl eq_refl eq_refl eq_refl).
Defined.

(** X9, on an example: a new graph of p1 that refers to the missing ACL
    graph. *)
Lemma createNamedGraph_missing_acl_reference_witness :
  createNamedGraph domain meta handler reference_missing "g1" create_graph_with_reference
    anonymous =
    (Ok (Response 500 (PError "Could not create ACL file; undefined")),
     World [ (GetAllNamedGraphs "p1", Ok (VBindings []));
             (GetNamedGraph team_acl "p1", Throw (JsError "Graph not found")) ] None []).
Proof.
  exact (createNamedGraph_missing_acl_reference domain meta handler reference_missing "g1"
           create_graph_with_reference anonymous [] no_files (JsError "Graph not found")
           eq_refl eq_refl eq_refl eq_refl eq_refl).
Defined.

(** X11, on an example: alice uploads a file to p1 and refers to the
    missing ACL graph. *)
Lemma uploadDocumentToProject_keeps_document_without_meta_witness :
  let stored : event :=
    (UploadDocuments "p1" "%PDF-1.7" "http://localhost:5000/alice",
     Ok (VString "http://localhost:5000/lbd/p1/files/f1")) in
  let lookup : event := (GetNamedGraph team_acl "p1", Throw (JsError "Graph not found")) in
  uploadDocumentToProject meta handler reference_missing upload_with_reference
    (logged_in alice) =
    (Ok (Response 500 (PError "Could not create ACL file; undefined")),
     World [stored; lookup] (Some alice) []) ∧
  ∃ evs, [stored; lookup] = stored :: evs ∧
         graphs_written evs = [] ∧
         Forall (λ ev : event, deletes (fst ev) = false) evs.
Proof.
  exact (uploadDocumentToProject_keeps_document_without_meta meta handler reference_missing
           upload_with_reference (logged_in alice) alice
           (Files (Some ["%PDF-1.7"]) None None None) "%PDF-1.7" []
           (VString "http://localhost:5000/lbd/p1/files/f1")
           (JsError "Could not create ACL file; undefined")
           (World [ (UploadDocuments "p1" "%PDF-1.7" "http://localhost:5000/alice",
                     Ok (VString "http://localhost:5000/lbd/p1/files/f1"));
                    (GetNamedGraph team_acl "p1", Throw (JsError "Graph not found")) ]
              (Some alice) [])
           eq_refl eq_refl eq_refl eq_refl eq_refl).
Defined.

(** X12, on an example: graph g1 of p1 is created and then deleted. *)
Lemma deleteNamedGraph_removes_what_was_created_witness :
  ∃ w1 w2,
    createNamedGraph domain meta handler all_ok "g1" create_graph anonymous =
      (Ok (Response 201
             (PCreated
                (Some "Successfully created the named graph with context http://localhost:5000/lbd/p1/graphs/g1")
                (meta "http://localhost:5000/lbd/p1/graphs/g1"
                   (Some "https://lbdserver.org/lbd/p1/.acl") (Some "plan") None)
                (VString "http://localhost:5000/lbd/p1/graphs/g1"))), w1) ∧
    deleteNamedGraph domain handler all_ok "g1" delete_graph w1 =
      (Ok (Response 200 (PMessage "The named graph was successfully deleted")), w2) ∧
    ∃ evs evs',
      trace w1 = trace anonymous ++ evs ∧
      trace w2 = trace w1 ++ evs' ∧
      graphs_written evs = uploaded_acl create_graph ++ graphs_removed evs'.
Proof.
  eexists _, _. split; [vm_compute; reflexivity|]. split; [vm_compute; reflexivity|].
  eapply (deleteNamedGraph_removes_what_was_created domain meta handler all_ok "g1"
            create_graph anonymous _ _ _ _ _ delete_graph).
  - reflexivity.
  - vm_compute. reflexivity.
  - vm_compute. reflexivity.
Defined.

(** X13, on an example: alice uploads a file to p1 and deletes it again. *)
Lemma deleteDocumentFromProject_removes_the_metadata_witness :
  ∃ w1 w2,
    uploadDocumentToProject meta handler file_deleted upload_with_reference (logged_in alice) =
      (Ok (Response 201
             (PCreated None
                (meta "http://localhost:5000/lbd/p1/files/f1" (Some team_acl)
                   (Some "survey") None)
                (VString "http://localhost:5000/lbd/p1/files/f1"))), w1) ∧
    deleteDocumentFromProject handler file_deleted "f1" delete_graph w1 =
      (Ok (Response 200 (PMessage "Document deleted")), w2) ∧
    ∃ evs evs',
      trace w1 = trace (logged_in alice) ++ evs ∧
      trace w2 = trace w1 ++ evs' ∧
      graphs_written evs = uploaded_acl upload_with_reference ++ graphs_removed evs'.
Proof.
  eexists _, _. split; [vm_compute; reflexivity|]. split; [vm_compute; reflexivity|].
  eapply (deleteDocumentFromProject_removes_the_metadata meta handler file_deleted
            upload_with_reference (logged_in alice) _ _ _ _ _ "f1" delete_graph).
  - reflexivity.
  - vm_compute. reflexivity.
  - vm_compute. reflexivity.
  - vm_compute. reflexivity.
Defined.

(** X15, on an example: the snapshot of p1. *)
Lemma snapshot_leaves_out_companions_witness :
  ∃ d w',
    findProjectData domain p1_repository "p1" anonymous = (Ok d, w') ∧
    (∀ ctx, endsWith ctx "acl" = true ∨ endsWith ctx "meta" = true →
            d_graphs d !! ctx = None) ∧
    (∀ resource, d_graphs d !! (resource +:+ ".meta") = None) ∧
    (∀ id, d_graphs d !! project_acl domain id = None).
Proof.
  destruct (findProjectData domain p1_repository "p1" anonymous) as [[d|e] w'] eqn:E.
  - exists d, w'. split; [reflexivity|].
    exact (snapshot_leaves_out_companions domain p1_repository "p1" anonymous d w' E).
  - vm_compute in E. discriminate.
Defined.

(** X16, on an example: alice owns p0 and p1. *)
Lemma getAllProjects_lists_owned_witness :
  ∃ ps w',
    getAllProjects domain p1_repository list_projects (logged_in alice_p1) = (Ok ps, w') ∧
    ∃ u evs,
      Some alice_p1 = Some u ∧
      d_id <$> ps = projects u ∧
      Forall2 (λ p d, ∃ w1 w2, findProjectData domain p1_repository p w1 = (Ok d, w2))
        (projects u) ps ∧
      w' = World ([] ++ evs) (Some alice_p1) [] ∧
      Forall (λ ev : event, reads (fst ev) = true) evs.
Proof.
  destruct (getAllProjects domain p1_repository list_projects (logged_in alice_p1))
    as [[ps|e] w'] eqn:E.
  - exists ps, w'. split; [reflexivity|].
    exact (getAllProjects_lists_owned domain p1_repository list_projects (logged_in alice_p1)
             ps w' E).
  - vm_compute in E. discriminate.
Defined.

(** X17, on an example: alice owns p0 and p1, and the repository of p0 is
    gone. *)
Lemma getAllProjects_failure_witness :
  ∃ e w',
    getAllProjects domain p0_unavailable list_projects (logged_in alice_p1) = (Throw e, w') ∧
    ((Some alice_p1 = None ∧ w' = logged_in alice_p1 ∧
      e = JsError ("Could not retrieve all projects; " +:+ message (type_error "projects"))) ∨
     ∃ u p cause,
       Some alice_p1 = Some u ∧ p ∈ projects u ∧
       e = JsError ("Could not retrieve all projects; Could not find project data for project with id " +:+
                    p +:+ "; " +:+ cause)).
Proof.
  eexists _, _. split; [vm_compute; reflexivity|].
  exact (getAllProjects_failure domain p0_unavailable list_projects (logged_in alice_p1)
           _ _ eq_refl).
Defined.

(** X19, on an example: a POST to p1 that carries a query. *)
Lemma getOneProject_results_witness :
  let req := post_query "SELECT * WHERE { ?s ?p ?o }" in
  ∃ o w',
    getOneProject domain p1_repository (Some may_read) req anonymous = (Ok o, w') ∧
    ∃ w1,
      findProjectData domain p1_repository "p1" anonymous = (Ok (o_data o), w1) ∧
      Some may_read = Some (o_permissions o) ∧
      ∃ results, o_queryResults o = Some results ∧
                 queryProject p1_repository req w1 = (Ok results, w') ∧
                 (method req ≠ "GET" → results = VUndefined ∧ w' = w1).
Proof.
  intros req.
  destruct (getOneProject domain p1_repository (Some may_read) req anonymous)
    as [[o|e] w'] eqn:E.
  - exists o, w'. split; [reflexivity|].
    exact (getOneProject_results domain p1_repository (Some may_read) req anonymous o w' E).
  - vm_compute in E. discriminate.
Defined.

(** X20, on an example: an update that empties graph g1 of p1, sent as a
    GET query to the graph, with an adaptQuery that changes nothing. *)
Lemma getNamedGraph_query_is_not_gated_witness :
  let req := get_query mutation in
  let sent := QueryRepository "p1" (JsString.of_string mutation) in
  snd (getNamedGraph domain all_ok same_query "g1" false None req anonymous) =
    record (sent, all_ok [] sent) anonymous ∧
  (∀ results, all_ok [] sent = Ok results →
     fst (getNamedGraph domain all_ok same_query "g1" false None req anonymous) =
       Ok (GraphResponse 200 (GQuery (JsString.of_string mutation) results))) ∧
  (method req = "GET" →
   JsString.includes (JsString.toLowerCase (JsString.of_string mutation)) tok_insert = true ∨
   JsString.includes (JsString.toLowerCase (JsString.of_string mutation)) tok_delete = true →
   rejected all_ok req anonymous).
Proof.
  exact (getNamedGraph_query_is_not_gated domain all_ok same_query "g1" None
           (get_query mutation) anonymous 68
           (JsString.of_string "ELETE WHERE { ?s ?p ?o }") (JsString.of_string mutation)
           eq_refl eq_refl).
Defined.

(** X22, on an example: of the projects p0 and p1, only p1 is open. *)
Lemma getPublicProjects_lists_readable_witness :
  ∃ ps w',
    getPublicProjects domain p1_repository project_documents p1_is_open anonymous =
      (Ok ps, w') ∧
    ∃ documents evs,
      project_documents = Ok documents ∧
      d_id <$> ps = snd <$> List.filter (publicly_readable p1_is_open) documents ∧
      (∀ id, (domain +:+ "/lbd/" +:+ id) +:+ "/.acl" = project_acl domain id) ∧
      w' = World ([] ++ evs) None [] ∧
      Forall (λ ev : event, reads (fst ev) = true) evs.
Proof.
  destruct (getPublicProjects domain p1_repository project_documents p1_is_open anonymous)
    as [[ps|e] w'] eqn:E.
  - exists ps, w'. split; [reflexivity|].
    exact (getPublicProjects_lists_readable domain p1_repository project_documents
             p1_is_open anonymous ps w' E).
  - vm_compute in E. discriminate.
Defined.

(** In that example the listing is the snapshot of p1 alone. *)
Example only_p1_is_public :
  ∃ d w',
    getPublicProjects domain p1_repository project_documents p1_is_open anonymous =
      (Ok [d], w') ∧
    d_id d = "p1".
Proof. eexists _, _. split; [vm_compute; reflexivity|reflexivity]. Qed.

(** X23, on an example: a read that uses the prefix [elete:] right after an
    [=]. *)
Lemma queryProject_accepts_exactly_witness :
  let q := JsString.of_string prefixed_query in
  (accepted_as_read all_ok (get_query prefixed_query) anonymous ↔
     is_Some (JsString.encodeURIComponent q) ∧
     read_only_text q ∧
     escape_completes_delete q = false) ∧
  (¬ accepted_as_read all_ok (get_query prefixed_query) anonymous →
   rejected all_ok (get_query prefixed_query) anonymous).
Proof.
  exact (queryProject_accepts_exactly all_ok (get_query prefixed_query) anonymous
           (JsString.of_string prefixed_query) eq_refl eq_refl eq_refl).
Defined.

(** The same example, decided: the text is a read-only text, the escape of
    [=] completes a [delete], and the request is rejected. *)
Example escaped_equals_sign_completes_delete :
  read_only_text (JsString.of_string prefixed_query) ∧
  escape_completes_delete (JsString.of_string prefixed_query) = true ∧
  rejected all_ok (get_query prefixed_query) anonymous.
Proof.
  split; [repeat split; vm_compute; reflexivity|]. split; [vm_compute; reflexivity|].
  split; [eexists; vm_compute; reflexivity|vm_compute; reflexivity].
Qed.
